(** * draftmachine: value reconciliation and draft-state store

    A shallow embedding of the merge script (the [normalizeName] helper, the
    [yahooMap] lookup table, the [draftData.forEach] merge loop and the final
    [mergedData.sort]), of the draft-sync route handlers ([POST], [PUT],
    [GET], [DELETE] over the file-backed cache) and of the tracker page's
    available-player filter.

    Conventions of the embedding.
    - A JavaScript string is the list of its UTF-16 code units ([list N]).
    - A JavaScript number is an IEEE 754 double.  It is carried as the
      rational it denotes ([Q]): the scrapers and the forms only ever produce
      finite numbers ([parseFloat(..) || 0], [parseInt] guarded by [isNaN]).
      The arithmetic of the sources ([+], [-], [*], [/]) rounds its exact
      result to the nearest double, ties to even ([JS.binary64]); comparisons
      and the sign of a difference are those of the exact values.  A result
      beyond the largest finite double is [Infinity] at run time and is not
      represented: statements about computed values bound their operands.
      Counters (pick numbers, indices) are [Z].
    - [undefined] is [None]. *)

From Stdlib Require Import ZArith QArith Qround Qabs Qpower Lqa Lia.
From Stdlib Require Import List String Ascii.
From Stdlib Require Import Sorting.Sorted Sorting.Permutation.
From stdpp Require Import gmap list.
Import ListNotations.

Set Default Proof Using "Type".
Local Open Scope Z_scope.

(** ** JavaScript runtime primitives used by the sources *)

Module JS.

Abbreviation jsstring := (list N).

(** A string literal of the sources, as code units (ASCII range). *)
Definition lit (s : string) : jsstring :=
  map N_of_ascii (list_ascii_of_string s).

(** ECMAScript [WhiteSpace] and [LineTerminator] code units: what the regular
    expression class [\s] matches and what [String.prototype.trim] strips. *)
Definition isWhiteSpace (c : N) : bool :=
  ((9 <=? c) && (c <=? 13) || (c =? 32) || (c =? 160) || (c =? 5760)
   || (8192 <=? c) && (c <=? 8202) || (c =? 8232) || (c =? 8233)
   || (c =? 8239) || (c =? 8287) || (c =? 12288) || (c =? 65279))%N.

Fixpoint trimStart (s : jsstring) : jsstring :=
  match s with
  | c :: s' => if isWhiteSpace c then trimStart s' else s
  | [] => []
  end.

Definition trimEnd (s : jsstring) : jsstring := rev (trimStart (rev s)).

(** [String.prototype.trim]. *)
Definition trim (s : jsstring) : jsstring := trimEnd (trimStart s).

(** [s.startsWith(sub)] on code units. *)
Fixpoint startsWith (s sub : jsstring) {struct sub} : bool :=
  match sub, s with
  | [], _ => true
  | _ :: _, [] => false
  | b :: sub', a :: s' => (a =? b)%N && startsWith s' sub'
  end.

(** [s.includes(sub)]: [sub] occurs in [s] as a contiguous run. *)
Fixpoint includes (s sub : jsstring) : bool :=
  startsWith s sub ||
  match s with
  | [] => false
  | _ :: s' => includes s' sub
  end.

(** *** Numbers *)

(** [2^e]. *)
Definition pow2 (e : Z) : Q := (2 ^ e)%Q.

(** The binade of a non-zero number: [floor (log2 |x|)]. *)
Definition ilog2 (x : Q) : Z :=
  let e := Z.log2 (Z.abs (Qnum x)) - Z.log2 (Zpos (Qden x)) in
  if Qle_bool (pow2 e) (Qabs x) then e else e - 1.

(** The nearest integer, the even one on a tie. *)
Definition roundHalfEven (x : Q) : Z :=
  let f := Qfloor x in
  match (x - inject_Z f ?= 1 # 2)%Q with
  | Lt => f
  | Gt => f + 1
  | Eq => if Z.even f then f else f + 1
  end.

(** The double nearest to [x] (IEEE 754 binary64, round to nearest, ties to
    even): 53 significant bits in the binade of [x], and multiples of
    [2^-1074] below [2^-1022] (subnormal numbers). *)
Definition binary64 (x : Q) : Q :=
  if Qeq_bool x 0 then 0%Q
  else
    let e := Z.max (ilog2 x - 52) (-1074) in
    Qred (inject_Z (roundHalfEven (x / pow2 e)) * pow2 e).

(** The operators [+], [-], [*] and [/] on numbers ([Number::add] and so on
    in ECMAScript); no source divides by zero. *)
Definition Number_add (a b : Q) : Q := binary64 (a + b).

Definition Number_subtract (a b : Q) : Q := binary64 (a - b).

Definition Number_multiply (a b : Q) : Q := binary64 (a * b).

Definition Number_divide (a b : Q) : Q := binary64 (a / b).

(** [Number.MAX_SAFE_INTEGER]: every integer up to it is a double. *)
Definition MAX_SAFE_INTEGER : Z := 2 ^ 53 - 1.

(** [Number.MAX_VALUE], the largest finite double. *)
Definition MAX_VALUE : Q := inject_Z ((2 ^ 53 - 1) * 2 ^ 971).

(** [Math.round]: nearest integer, ties towards +infinity (an integer below
    [2^53] in magnitude unless [x] is itself a larger integer). *)
Definition Math_round (x : Q) : Z := Qfloor (x + (1 # 2))%Q.

(** [Math.floor]. *)
Definition Math_floor (x : Q) : Z := Qfloor x.

(** Truthiness of a number ([0] is falsy), for [x || d]. *)
Definition truthyNum (x : Q) : bool := negb (Qeq_bool x 0).

(** [Array.prototype.sort(compareFn)].  The engine's algorithm is not part of
    the repository; ECMAScript (2019 and later) fixes its result for a
    consistent comparator: the stable ordering in which [a] precedes [b]
    whenever [compareFn(a, b) < 0].  It is modelled by a stable insertion
    sort driven by the sign of [compareFn]. *)
Section Sort.
Context {A : Type} (compareFn : A -> A -> Q).

Fixpoint sortInsert (x : A) (l : list A) : list A :=
  match l with
  | [] => [x]
  | y :: l' =>
      if Qle_bool (compareFn x y) 0 then x :: y :: l'
      else y :: sortInsert x l'
  end.

Fixpoint Array_sort (l : list A) : list A :=
  match l with
  | [] => []
  | x :: l' => sortInsert x (Array_sort l')
  end.

End Sort.

End JS.

(** ** The merge script *)

Module Merge.
Import JS.

(** A record of [draft-data.json] (ESPN scrape). *)
Record EspnPlayer := {
  name : jsstring;
  team : jsstring;
  position : jsstring;
  avgAuctionValue : Q;
  headshotUrl : jsstring
}.

(** A record of [yahoo-draft-data.json]. *)
Record YahooPlayer := {
  yahoo_name : jsstring;
  yahooAuctionValue : Q
}.

(** A record of [merged-draft-data.json]: the spread [...player] with
    [avgAuctionValue] possibly overwritten, plus the two source values
    ([null] is [None]). *)
Record MergedPlayer := {
  m_name : jsstring;
  m_team : jsstring;
  m_position : jsstring;
  m_avgAuctionValue : Q;
  m_headshotUrl : jsstring;
  m_espnAuctionValue : Q;
  m_yahooAuctionValue : option Q
}.

Section Unicode.

(** [String.prototype.toLowerCase] and [String.prototype.normalize('NFD')]
    depend on the Unicode tables of the runtime; they are parameters. *)
Variable toLowerCase : jsstring -> jsstring.
Variable normalizeNFD : jsstring -> jsstring.

(** The class [\u0300-\u036f] of combining diacritical marks. *)
Definition isDiacritic (c : N) : bool := ((768 <=? c) && (c <=? 879))%N.

(** The complement of the class [[^a-z\s]]: what the last [replace] keeps. *)
Definition isLetterOrSpace (c : N) : bool :=
  ((97 <=? c) && (c <=? 122))%N || isWhiteSpace c.

Definition normalizeName (nm : jsstring) : jsstring :=
  trim
    (List.filter isLetterOrSpace
       (List.filter (fun c => negb (isDiacritic c))
          (normalizeNFD (toLowerCase nm)))).

(** [yahooMap]: a [Map] filled by [yahooData.forEach], later entries
    overwriting earlier ones with the same key. *)
Definition yahooMap (yahooData : list YahooPlayer) : gmap (list N) Q :=
  foldl (fun m player =>
           <[normalizeName (yahoo_name player) := yahooAuctionValue player]> m)
        ∅ yahooData.

(** The body of [draftData.forEach]: the record pushed for one player. *)
Definition mergePlayer (ymap : gmap (list N) Q) (player : EspnPlayer)
  : MergedPlayer :=
  match ymap !! normalizeName (name player) with
  | Some yahooValue =>
      let avgValue :=
        Number_divide (Number_add (avgAuctionValue player) yahooValue) 2 in
      {| m_name := name player;
         m_team := team player;
         m_position := position player;
         m_avgAuctionValue :=
           Number_divide
             (inject_Z (Math_round (Number_multiply avgValue 10))) 10;
         m_headshotUrl := headshotUrl player;
         m_espnAuctionValue := avgAuctionValue player;
         m_yahooAuctionValue := Some yahooValue |}
  | None =>
      {| m_name := name player;
         m_team := team player;
         m_position := position player;
         m_avgAuctionValue := avgAuctionValue player;
         m_headshotUrl := headshotUrl player;
         m_espnAuctionValue := avgAuctionValue player;
         m_yahooAuctionValue := None |}
  end.

(** [mergedData] before sorting: one push per element of [draftData]. *)
Definition mergedData (draftData : list EspnPlayer)
    (yahooData : list YahooPlayer) : list MergedPlayer :=
  map (mergePlayer (yahooMap yahooData)) draftData.

(** The comparator [(a, b) => b.avgAuctionValue - a.avgAuctionValue]. *)
Definition byValueDesc (a b : MergedPlayer) : Q :=
  (m_avgAuctionValue b - m_avgAuctionValue a)%Q.

(** The whole script: what is written to [merged-draft-data.json]. *)
Definition merge (draftData : list EspnPlayer)
    (yahooData : list YahooPlayer) : list MergedPlayer :=
  Array_sort byValueDesc (mergedData draftData yahooData).

End Unicode.

(** Lower-casing restricted to the ASCII range, on which NFD is the
    identity: the instance used for concrete runs on ASCII names. *)
Definition asciiLower (s : jsstring) : jsstring :=
  map (fun c => if ((65 <=? c) && (c <=? 90))%N then (c + 32)%N else c) s.

Definition asciiNFD (s : jsstring) : jsstring := s.

End Merge.

(** ** The draft-sync route: [POST], [PUT], [GET], [DELETE] *)

Module DraftSync.
Import JS.

(** [interface SyncedPick]: a pick as stored in the cache file. *)
Record SyncedPick := {
  playerName : jsstring;
  teamName : jsstring;
  pickNumber : Z;
  bidAmount : Q;
  isMyPick : bool;
  draftedByTeam : option jsstring
}.

(** [interface DraftTeam]. *)
Record DraftTeam := {
  name : jsstring;
  budget : Q;
  isMyTeam : bool
}.

(** The object kept in one cache file.  [teams] and [myTeamBudget] may be
    absent in files written by older versions (the handlers test for it). *)
Record CacheData := {
  picks : list SyncedPick;
  teams : option (list DraftTeam);
  syncedAt : jsstring;
  totalPicks : Z;
  isComplete : bool;
  myTeamBudget : option Q
}.

(** The cache directory: one file per [leagueId]. *)
Abbreviation Cache := (gmap (list N) CacheData).

Definition loadFromCache (cache : Cache) (leagueId : jsstring)
  : option CacheData := cache !! leagueId.

Definition saveToCache (cache : Cache) (leagueId : jsstring)
    (data : CacheData) : Cache := <[leagueId := data]> cache.

(** A handler answers with a JSON body and a status, or with
    [{ error }] and a status. *)
Inductive Response (A : Type) : Type :=
| Json (status : Z) (body : A)
| ErrorJson (status : Z) (error : jsstring).
Arguments Json {A} status body.
Arguments ErrorJson {A} status error.

(** *** [POST]: initialize the teams of a draft *)

(** A team of the request body; [budget] and [isMyTeam] may be missing. *)
Record TeamInput := {
  in_name : jsstring;
  in_budget : option Q;
  in_isMyTeam : option bool
}.

(** The request body [{ teams }]; [None] when [teams] is missing or is not
    an array. *)
Record PostBody := { post_teams : option (list TeamInput) }.

Record PostOk := {
  post_success : bool;
  post_message : jsstring;
  post_result_teams : list DraftTeam
}.

(** [team.budget || 200]. *)
Definition budgetOrDefault (b : option Q) : Q :=
  match b with
  | Some x => if truthyNum x then x else 200%Q
  | None => 200%Q
  end.

(** The callback of [teams.map]. *)
Definition initTeam (t : TeamInput) : DraftTeam :=
  {| name := in_name t;
     budget := budgetOrDefault (in_budget t);
     isMyTeam := default false (in_isMyTeam t) |}.

Definition POST (now : jsstring) (cache : Cache) (leagueId : jsstring)
    (body : PostBody) : Response PostOk * Cache :=
  match post_teams body with
  | None => (ErrorJson 400 (lit "teams array is required"), cache)
  | Some ts =>
      let cacheData :=
        {| picks := [];
           teams := Some (map initTeam ts);
           syncedAt := now;
           totalPicks := 130;
           isComplete := false;
           myTeamBudget := Some 200%Q |} in
      (Json 200 {| post_success := true;
                   post_message := lit "Draft initialized successfully";
                   post_result_teams := map initTeam ts |},
       saveToCache cache leagueId cacheData)
  end.

(** *** [PUT]: add a single pick *)

(** The request body; every field may be missing. *)
Record PutBody := {
  put_playerName : option jsstring;
  put_bidAmount : option Q;
  put_isMyPick : option bool;
  put_draftedByTeam : option jsstring
}.

Record PutOk := {
  put_success : bool;
  put_pick : SyncedPick;
  put_totalPicks : Z;
  put_myTeamBudget : Q
}.

(** Truthiness of a possibly missing string: [undefined] and the empty
    string are falsy. *)
Definition truthyStr (s : option jsstring) : option jsstring :=
  match s with
  | Some (c :: r) => Some (c :: r)
  | _ => None
  end.

(** [Array.prototype.findIndex]; [-1] is [None]. *)
Fixpoint findIndex {A : Type} (f : A -> bool) (l : list A) : option nat :=
  match l with
  | [] => None
  | x :: l' => if f x then Some 0%nat else S <$> findIndex f l'
  end.

(** Equality [===] of two strings. *)
Definition strEq (a b : jsstring) : bool := bool_decide (a = b).

(** [existingData.teams[teamIndex].budget -= bidAmount]. *)
Definition subBudget (bid : Q) (t : DraftTeam) : DraftTeam :=
  {| name := name t;
     budget := Number_subtract (budget t) bid;
     isMyTeam := isMyTeam t |}.

(** The object a missing cache file is replaced by. *)
Definition emptyData (now : jsstring) : CacheData :=
  {| picks := [];
     teams := Some [];
     syncedAt := now;
     totalPicks := 130;
     isComplete := false;
     myTeamBudget := Some 200%Q |}.

(** "Find the team and deduct from their budget": the new [teams] and
    [myTeamBudget] of the session. *)
Definition deduct (existingTeams : option (list DraftTeam)) (myBudget : Q)
    (isMy : bool) (draftedBy : option jsstring) (bid : Q)
  : option (list DraftTeam) * Q :=
  match truthyStr draftedBy, existingTeams with
  | Some d, Some (t0 :: ts0) =>
      let ts := t0 :: ts0 in
      match findIndex (fun t => strEq (name t) d) ts with
      | Some teamIndex =>
          (Some (alter (subBudget bid) teamIndex ts),
           match ts !! teamIndex with
           | Some t =>
               if isMyTeam t then Number_subtract myBudget bid else myBudget
           | None => myBudget
           end)
      | None => (existingTeams, myBudget)
      end
  | _, _ =>
      (existingTeams, if isMy then Number_subtract myBudget bid else myBudget)
  end.

Definition newPick (existing : CacheData) (name_ : jsstring) (bid : Q)
    (isMy : bool) (draftedBy : option jsstring) : SyncedPick :=
  {| playerName := name_;
     teamName := if isMy then lit "My Team" else lit "Manual";
     pickNumber := Z.of_nat (length (picks existing)) + 1;
     bidAmount := bid;
     isMyPick := isMy;
     draftedByTeam :=
       match truthyStr draftedBy with
       | Some d => Some d
       | None => if isMy then Some (lit "My Team") else None
       end |}.

Definition PUT (now : jsstring) (cache : Cache) (leagueId : jsstring)
    (body : PutBody) : Response PutOk * Cache :=
  match truthyStr (put_playerName body), put_bidAmount body with
  | Some name_, Some bid =>
      let isMy := default false (put_isMyPick body) in
      let draftedBy := put_draftedByTeam body in
      let existingData := default (emptyData now) (loadFromCache cache leagueId) in
      let myBudget := default 200%Q (myTeamBudget existingData) in
      let '(teams', myBudget') :=
        deduct (teams existingData) myBudget isMy draftedBy bid in
      let pick := newPick existingData name_ bid isMy draftedBy in
      let updated :=
        {| picks := picks existingData ++ [pick];
           teams := teams';
           syncedAt := now;
           totalPicks := totalPicks existingData;
           isComplete := isComplete existingData;
           myTeamBudget := Some myBudget' |} in
      (Json 200 {| put_success := true;
                   put_pick := pick;
                   put_totalPicks := Z.of_nat (length (picks updated));
                   put_myTeamBudget := myBudget' |},
       saveToCache cache leagueId updated)
  | _, _ =>
      (ErrorJson 400 (lit "playerName and bidAmount are required"), cache)
  end.

(** *** [GET]: the state of a draft *)

(** A pick as the tracker receives it ([interface DraftPick] of the page). *)
Record DraftPick := {
  v_playerId : Z;
  v_playerName : jsstring;
  v_teamId : Z;
  v_pickNumber : Z;
  v_round : Z;
  v_bidAmount : Q;
  v_isMyPick : bool;
  v_draftedByTeam : option jsstring
}.

Record DraftData := {
  d_picks : list DraftPick;
  d_teams : list DraftTeam;
  d_currentPick : Z;
  d_totalPicks : Z;
  d_isComplete : bool;
  d_synced : bool;
  d_syncedAt : option jsstring;
  d_myTeamBudget : Q;
  d_teamsConfigured : option bool
}.

(** The callback of [cachedData.picks.map]. *)
Definition transformPick (index : nat) (pick : SyncedPick) : DraftPick :=
  let i := Z.of_nat index in
  {| v_playerId := i + 1;
     v_playerName := playerName pick;
     v_teamId := 0;
     v_pickNumber := if (pickNumber pick =? 0) then i + 1 else pickNumber pick;
     v_round := Math_floor (inject_Z i / 10) + 1;
     v_bidAmount := if truthyNum (bidAmount pick) then bidAmount pick else 0%Q;
     v_isMyPick := isMyPick pick;
     v_draftedByTeam := draftedByTeam pick |}.

Definition GET (cache : Cache) (leagueId : jsstring) : Response DraftData :=
  match loadFromCache cache leagueId with
  | None =>
      Json 200 {| d_picks := [];
                  d_teams := [];
                  d_currentPick := 1;
                  d_totalPicks := 130;
                  d_isComplete := false;
                  d_synced := false;
                  d_syncedAt := None;
                  d_myTeamBudget := 200%Q;
                  d_teamsConfigured := None |}
  | Some cachedData =>
      let transformedPicks := imap transformPick (picks cachedData) in
      Json 200 {| d_picks := transformedPicks;
                  d_teams := default [] (teams cachedData);
                  d_currentPick := Z.of_nat (length transformedPicks) + 1;
                  d_totalPicks := totalPicks cachedData;
                  d_isComplete := isComplete cachedData;
                  d_synced := true;
                  d_syncedAt := Some (syncedAt cachedData);
                  d_myTeamBudget := default 200%Q (myTeamBudget cachedData);
                  d_teamsConfigured :=
                    (fun ts => negb (Nat.eqb (length ts) 0)) <$> teams cachedData |}
  end.

(** *** [DELETE]: reset a draft *)

Record DeleteOk := { del_success : bool; del_message : jsstring }.

Definition DELETE (cache : Cache) (leagueId : jsstring)
  : Response DeleteOk * Cache :=
  (Json 200 {| del_success := true;
               del_message := lit "Draft reset successfully" |},
   delete leagueId cache).

(** *** Sequences of requests against one cache directory *)

Inductive Request :=
| ReqPOST (leagueId now : jsstring) (body : PostBody)
| ReqPUT (leagueId now : jsstring) (body : PutBody)
| ReqGET (leagueId : jsstring)
| ReqDELETE (leagueId : jsstring).

(** The cache after serving one request. *)
Definition serve (cache : Cache) (r : Request) : Cache :=
  match r with
  | ReqPOST leagueId now body => snd (POST now cache leagueId body)
  | ReqPUT leagueId now body => snd (PUT now cache leagueId body)
  | ReqGET _ => cache
  | ReqDELETE leagueId => snd (DELETE cache leagueId)
  end.

Definition serveAll (cache : Cache) (rs : list Request) : Cache :=
  foldl serve cache rs.

End DraftSync.

(** ** The tracker page: players still available *)

Module Tracker.
Import JS.

Section Unicode.
Variable toLowerCase : jsstring -> jsstring.

(** The predicate of [draftData.picks.some]. *)
Definition pickMatches (p : Merge.MergedPlayer) (pick : DraftSync.DraftPick)
  : bool :=
  includes (toLowerCase (DraftSync.v_playerName pick))
           (toLowerCase (Merge.m_name p))
  || includes (toLowerCase (Merge.m_name p))
              (toLowerCase (DraftSync.v_playerName pick)).

(** [availablePlayers = allPlayers.filter(p => !draftData.picks.some(..))]. *)
Definition availablePlayers (allPlayers : list Merge.MergedPlayer)
    (picks : list DraftSync.DraftPick) : list Merge.MergedPlayer :=
  List.filter (fun p => negb (existsb (pickMatches p) picks)) allPlayers.

End Unicode.

End Tracker.

(** ** The merge script: counters and the printed table *)

Module MergeLog.
Import JS Merge.

Section Unicode.
Variable toLowerCase : jsstring -> jsstring.
Variable normalizeNFD : jsstring -> jsstring.

(** The variables the merge loop updates. *)
Record LoopState := {
  merged : list MergedPlayer;
  matchedCount : Z;
  unmatchedCount : Z
}.

(** One iteration of [draftData.forEach], with its counters. *)
Definition loopBody (ymap : gmap (list N) Q) (st : LoopState)
    (player : EspnPlayer) : LoopState :=
  match ymap !! normalizeName toLowerCase normalizeNFD (name player) with
  | Some _ =>
      {| merged := merged st ++ [mergePlayer toLowerCase normalizeNFD ymap player];
         matchedCount := matchedCount st + 1;
         unmatchedCount := unmatchedCount st |}
  | None =>
      {| merged := merged st ++ [mergePlayer toLowerCase normalizeNFD ymap player];
         matchedCount := matchedCount st;
         unmatchedCount := unmatchedCount st + 1 |}
  end.

(** The state after the loop. *)
Definition mergeLoop (draftData : list EspnPlayer)
    (yahooData : list YahooPlayer) : LoopState :=
  foldl (loopBody (yahooMap toLowerCase normalizeNFD yahooData))
        {| merged := []; matchedCount := 0; unmatchedCount := 0 |}
        draftData.

(** A row of the table printed at the end. *)
Record TableRow := {
  row_Name : jsstring;
  row_Team : jsstring;
  row_Position : jsstring;
  row_ESPN : Q;
  row_Yahoo : option Q;
  row_Avg : Q
}.

Definition tableRow (p : MergedPlayer) : TableRow :=
  {| row_Name := m_name p; row_Team := m_team p;
     row_Position := m_position p; row_ESPN := m_espnAuctionValue p;
     row_Yahoo := m_yahooAuctionValue p; row_Avg := m_avgAuctionValue p |}.

(** [mergedData.slice(0, 10).map(..)], after the sort. *)
Definition topTen (draftData : list EspnPlayer)
    (yahooData : list YahooPlayer) : list TableRow :=
  map tableRow (take 10 (merge toLowerCase normalizeNFD draftData yahooData)).

End Unicode.

End MergeLog.

(** ** The tracker page: requests it sends *)

Module Page.
Import JS.

(** An entry of [myTeam] in the recommendation request. *)
Record MyTeamPlayer := {
  mt_playerName : jsstring;
  mt_position : jsstring;
  mt_bidAmount : Q;
  mt_avgValue : Q
}.

(** The body posted to the recommendations route. *)
Record RecommendationRequest := {
  draftedPlayers : list jsstring;
  rq_availablePlayers : list Merge.MergedPlayer;
  myTeam : list MyTeamPlayer;
  remainingBudget : Q;
  totalBudget : Q
}.

(** [s || 'Unknown'] on a possibly missing string. *)
Definition orUnknown (s : option jsstring) : jsstring :=
  match s with
  | Some (c :: r) => c :: r
  | _ => lit "Unknown"
  end.

(** [x || 0] on a possibly missing number. *)
Definition orZero (x : option Q) : Q :=
  match x with
  | Some v => if truthyNum v then v else 0%Q
  | None => 0%Q
  end.

Section Unicode.
Variable toLowerCase : jsstring -> jsstring.

(** The predicate of [draftedPlayerNames.some] in [fetchRecommendations]. *)
Definition nameDrafted (p : Merge.MergedPlayer) (nm : jsstring) : bool :=
  includes (toLowerCase nm) (toLowerCase (Merge.m_name p))
  || includes (toLowerCase (Merge.m_name p)) (toLowerCase nm).

(** The predicate of [allPlayers.find] in [fetchRecommendations]. *)
Definition rosterMatch (pick : DraftSync.DraftPick) (p : Merge.MergedPlayer)
  : bool :=
  DraftSync.strEq (toLowerCase (Merge.m_name p))
                  (toLowerCase (DraftSync.v_playerName pick))
  || includes (toLowerCase (Merge.m_name p))
              (toLowerCase (DraftSync.v_playerName pick))
  || includes (toLowerCase (DraftSync.v_playerName pick))
              (toLowerCase (Merge.m_name p)).

(** The callback of [myTeamPicks.map]. *)
Definition rosterEntry (allPlayers : list Merge.MergedPlayer)
    (pick : DraftSync.DraftPick) : MyTeamPlayer :=
  let playerData := List.find (rosterMatch pick) allPlayers in
  {| mt_playerName := DraftSync.v_playerName pick;
     mt_position := orUnknown (Merge.m_position <$> playerData);
     mt_bidAmount := orZero (Some (DraftSync.v_bidAmount pick));
     mt_avgValue := orZero (Merge.m_avgAuctionValue <$> playerData) |}.

(** The request body [fetchRecommendations] builds; [None] when it returns
    early because no player data is loaded. *)
Definition fetchRecommendations (allPlayers : list Merge.MergedPlayer)
    (picks : list DraftSync.DraftPick) (remaining : Q)
  : option RecommendationRequest :=
  match allPlayers with
  | [] => None
  | _ :: _ =>
      let draftedPlayerNames := map DraftSync.v_playerName picks in
      Some
        {| draftedPlayers := draftedPlayerNames;
           rq_availablePlayers :=
             List.filter
               (fun p => negb (existsb (nameDrafted p) draftedPlayerNames))
               allPlayers;
           myTeam :=
             map (rosterEntry allPlayers)
                 (List.filter DraftSync.v_isMyPick picks);
           remainingBudget := remaining;
           totalBudget := 200 |}
  end.

End Unicode.

(** The body [handleAddPick] sends with [PUT]. *)
Definition handleAddPick (playerName : jsstring) (salary : Q)
    (isMyPick : bool) (draftedByTeam : jsstring) : DraftSync.PutBody :=
  {| DraftSync.put_playerName := Some playerName;
     DraftSync.put_bidAmount := Some salary;
     DraftSync.put_isMyPick := Some isMyPick;
     DraftSync.put_draftedByTeam := Some draftedByTeam |}.

(** The body [handleTeamSetup] sends with [POST]. *)
Definition handleTeamSetup (teams : list DraftSync.DraftTeam)
  : DraftSync.PostBody :=
  {| DraftSync.post_teams :=
       Some (map (fun t =>
                    {| DraftSync.in_name := DraftSync.name t;
                       DraftSync.in_budget := Some (DraftSync.budget t);
                       DraftSync.in_isMyTeam := Some (DraftSync.isMyTeam t) |})
                 teams) |}.

End Page.

(** ** The live-draft panel *)

Module LiveDraft.
Import JS.

Section Unicode.
Variable toLowerCase : jsstring -> jsstring.

(** The predicate of [allPlayers.find] in [getPlayerData]. *)
Definition fuzzyMatch (normalized : jsstring) (p : Merge.MergedPlayer) : bool :=
  DraftSync.strEq (trim (toLowerCase (Merge.m_name p))) normalized
  || includes (toLowerCase (Merge.m_name p)) normalized
  || includes normalized (toLowerCase (Merge.m_name p)).

(** [getPlayerData]; [null] is [None]. *)
Definition getPlayerData (allPlayers : list Merge.MergedPlayer)
    (nm : jsstring) : option Merge.MergedPlayer :=
  let normalized := trim (toLowerCase nm) in
  List.find (fuzzyMatch normalized) allPlayers.

End Unicode.

(** The comparator [(a, b) => b.pickNumber - a.pickNumber]. *)
Definition byPickNumberDesc (a b : DraftSync.DraftPick) : Q :=
  inject_Z (DraftSync.v_pickNumber b - DraftSync.v_pickNumber a).

(** [sortedPicks = [...picks].sort(..)]. *)
Definition sortedPicks (picks : list DraftSync.DraftPick)
  : list DraftSync.DraftPick :=
  Array_sort byPickNumberDesc picks.

(** The picks listed under "Recent Picks": [sortedPicks.slice(0, 10)]. *)
Definition recentPicks (picks : list DraftSync.DraftPick)
  : list DraftSync.DraftPick :=
  take 10 (sortedPicks picks).

(** A cell of the draft board:
    [picks.find(p => p.round === round && p.draftedByTeam === team.name)]. *)
Definition boardCell (picks : list DraftSync.DraftPick) (round : Z)
    (team : DraftSync.DraftTeam) : option DraftSync.DraftPick :=
  List.find (fun p => (DraftSync.v_round p =? round)
                      && bool_decide (DraftSync.v_draftedByTeam p
                                      = Some (DraftSync.name team)))
            picks.

(** The rounds of the board: [[...Array(5)].map((_, i) => i + 1)]. *)
Definition boardRounds : list Z := map (fun i => Z.of_nat i + 1) (seq 0 5).

End LiveDraft.

(** ** The my-team panel *)

Module MyTeam.
Import JS.

(** [picks.filter(pick => pick.isMyPick)]. *)
Definition myPicks (picks : list DraftSync.DraftPick)
  : list DraftSync.DraftPick :=
  List.filter DraftSync.v_isMyPick picks.

(** [myPicks.reduce((sum, pick) => sum + (pick.bidAmount || 0), 0)]. *)
Definition totalSpent (picks : list DraftSync.DraftPick) : Q :=
  foldl (fun sum pick =>
           Number_add sum (Page.orZero (Some (DraftSync.v_bidAmount pick))))
        0%Q (myPicks picks).

End MyTeam.

(** ** The team-budgets panel *)

Module TeamBudgets.
Import JS.

(** An element of [teamStats]: the team with its computed columns. *)
Record TeamStat := {
  st_name : jsstring;
  st_budget : Q;
  st_isMyTeam : bool;
  playerCount : nat;
  totalSpent : Q;
  avgPerPlayer : Q
}.

(** The callback of [teams.map]. *)
Definition teamStat (picks : list DraftSync.DraftPick)
    (team : DraftSync.DraftTeam) : TeamStat :=
  let teamPicks :=
    List.filter (fun p => bool_decide (DraftSync.v_draftedByTeam p
                                       = Some (DraftSync.name team))) picks in
  let spent :=
    foldl (fun sum p =>
             Number_add sum (Page.orZero (Some (DraftSync.v_bidAmount p))))
          0%Q teamPicks in
  let count := length teamPicks in
  {| st_name := DraftSync.name team;
     st_budget := DraftSync.budget team;
     st_isMyTeam := DraftSync.isMyTeam team;
     playerCount := count;
     totalSpent := spent;
     avgPerPlayer :=
       if (0 <? count)%nat
       then Number_divide spent (inject_Z (Z.of_nat count))
       else 0%Q |}.

Definition teamStats (teams : list DraftSync.DraftTeam)
    (picks : list DraftSync.DraftPick) : list TeamStat :=
  map (teamStat picks) teams.

(** The comparator of [sortedTeamStats]: the user's team first, then by
    remaining budget. *)
Definition myTeamFirst (a b : TeamStat) : Q :=
  if st_isMyTeam a then (-1)%Q
  else if st_isMyTeam b then 1%Q
  else (st_budget b - st_budget a)%Q.

Definition sortedTeamStats (teams : list DraftSync.DraftTeam)
    (picks : list DraftSync.DraftPick) : list TeamStat :=
  Array_sort myTeamFirst (teamStats teams picks).

End TeamBudgets.

(** ** The team-setup form *)

Module TeamSetup.
Import JS.

(** The decimal digits of a natural number, as [String(n)] gives them. *)
Fixpoint digits (u : Decimal.uint) : jsstring :=
  match u with
  | Decimal.Nil => []
  | Decimal.D0 u' => 48%N :: digits u'
  | Decimal.D1 u' => 49%N :: digits u'
  | Decimal.D2 u' => 50%N :: digits u'
  | Decimal.D3 u' => 51%N :: digits u'
  | Decimal.D4 u' => 52%N :: digits u'
  | Decimal.D5 u' => 53%N :: digits u'
  | Decimal.D6 u' => 54%N :: digits u'
  | Decimal.D7 u' => 55%N :: digits u'
  | Decimal.D8 u' => 56%N :: digits u'
  | Decimal.D9 u' => 57%N :: digits u'
  end.

(** The template [`Team ${index + 1}`]. *)
Definition teamLabel (index : nat) : jsstring :=
  lit "Team " ++ digits (Nat.to_uint (index + 1)).

(** The state of the form (the wizard step aside). *)
Record State := {
  numTeams : nat;
  teamNames : list jsstring;
  myTeamIndex : nat
}.

(** [handleNumTeamsChange]: [Array.from({ length: num }, (_, i) => ..)]. *)
Definition handleNumTeamsChange (st : State) (num : nat) : State :=
  {| numTeams := num;
     teamNames :=
       map (fun i => match teamNames st !! i with
                     | Some nm => nm
                     | None => teamLabel i
                     end)
           (seq 0 num);
     myTeamIndex := myTeamIndex st |}.

(** [handleComplete]: the teams handed to [onComplete]. *)
Definition handleComplete (st : State) : list DraftSync.DraftTeam :=
  imap (fun index nm =>
          {| DraftSync.name :=
               match trim nm with
               | [] => teamLabel index
               | c :: r => c :: r
               end;
             DraftSync.budget := 200%Q;
             DraftSync.isMyTeam := Nat.eqb index (myTeamIndex st) |})
       (teamNames st).

End TeamSetup.

(** ** The add-pick form *)

Module AddPickForm.
Import JS.

(** What the form holds when it is submitted. *)
Record FormState := {
  selectedPlayer : option Merge.MergedPlayer;
  salary : jsstring;
  draftedByTeam : jsstring
}.

(** The alerts of [handleSubmit]. *)
Inductive Alert :=
| SelectPlayer
| SelectTeam
| InvalidSalary
| NotEnoughBudget (remaining : Q).

(** [handleSubmit] either alerts or calls [onPickAdded]. *)
Inductive Outcome :=
| Alerted (a : Alert)
| PickAdded (playerName : jsstring) (salaryValue : Z) (isMyPick : bool)
            (team : jsstring).

(** [myTeam?.name || 'My Team'] with [myTeam = teams.find(t => t.isMyTeam)]. *)
Definition myTeamName (teams : list DraftSync.DraftTeam) : jsstring :=
  match DraftSync.name <$> List.find DraftSync.isMyTeam teams with
  | Some (c :: r) => c :: r
  | _ => lit "My Team"
  end.

Section Runtime.

(** [parseInt] is the runtime's; [NaN] is [None]. *)
Variable parseInt : jsstring -> option Z.

Definition handleSubmit (teams : list DraftSync.DraftTeam)
    (remainingBudget : Q) (st : FormState) : Outcome :=
  match selectedPlayer st with
  | None => Alerted SelectPlayer
  | Some player =>
      match trim (draftedByTeam st) with
      | [] => Alerted SelectTeam
      | c :: r =>
          match parseInt (salary st) with
          | None => Alerted InvalidSalary
          | Some salaryValue =>
              if salaryValue <? 0 then Alerted InvalidSalary
              else
                let isMyPick :=
                  DraftSync.strEq (draftedByTeam st) (myTeamName teams) in
                if isMyPick
                   && negb (Qle_bool (inject_Z salaryValue) remainingBudget)
                then Alerted (NotEnoughBudget remainingBudget)
                else PickAdded (Merge.m_name player) salaryValue isMyPick
                               (c :: r)
          end
      end
  end.

End Runtime.

End AddPickForm.

(** ** The recommendations route: its pure parts *)

Module Recommend.
Import JS.

(** An element of [topAvailable]. *)
Record TopEntry := {
  top_name : jsstring;
  top_team : jsstring;
  top_position : jsstring;
  top_avgValue : Q;
  top_yahooValue : option Q
}.

(** The comparator
    [(a, b) => (b.avgAuctionValue || 0) - (a.avgAuctionValue || 0)]. *)
Definition byValueOrZeroDesc (a b : Merge.MergedPlayer) : Q :=
  (Page.orZero (Some (Merge.m_avgAuctionValue b))
   - Page.orZero (Some (Merge.m_avgAuctionValue a)))%Q.

Definition topEntry (p : Merge.MergedPlayer) : TopEntry :=
  {| top_name := Merge.m_name p; top_team := Merge.m_team p;
     top_position := Merge.m_position p;
     top_avgValue := Merge.m_avgAuctionValue p;
     top_yahooValue := Merge.m_yahooAuctionValue p |}.

(** [availablePlayers.sort(..).slice(0, 30).map(..)]. *)
Definition topAvailable (availablePlayers : list Merge.MergedPlayer)
  : list TopEntry :=
  map topEntry (take 30 (Array_sort byValueOrZeroDesc availablePlayers)).

(** The suffix of [s] that starts at the first [c]. *)
Fixpoint fromFirst (c : N) (s : jsstring) : option jsstring :=
  match s with
  | [] => None
  | x :: r => if (x =? c)%N then Some s else fromFirst c r
  end.

(** The prefix of [s] that ends at the last [c]. *)
Definition throughLast (c : N) (s : jsstring) : option jsstring :=
  option_map (@rev N) (fromFirst c (rev s)).

(** [content.match(/\{[\s\S]*\}/)]: the leftmost opening brace and, the
    star being greedy, everything up to the last closing brace after it;
    [null] is [None]. *)
Definition jsonMatch (content : jsstring) : option jsstring :=
  match fromFirst 123 content with
  | Some (open :: rest) => option_map (cons open) (throughLast 125 rest)
  | _ => None
  end.

End Recommend.

(** * Vocabulary of the statements

    Predicates and sample data the properties below are stated with. *)

Section NumberVocabulary.
Import JS.

(** The number a decimal literal of a JSON file denotes once parsed. *)
Definition parsed (decimal : Q) : Q := binary64 decimal.

(** Whole numbers. *)
Definition whole (x : Q) : Prop := exists k : Z, (x == inject_Z k)%Q.

(** [Number.MAX_SAFE_INTEGER] as a number. *)
Definition safe : Q := inject_Z MAX_SAFE_INTEGER.

End NumberVocabulary.

Section MergeVocabulary.
Import JS Merge.

(** Sample records: an ESPN player and a Yahoo player of a given name and
    value, and the script run with ASCII lower-casing. *)
Definition espn (nm : string) (v : Q) : EspnPlayer :=
  {| name := lit nm; team := []; position := []; avgAuctionValue := v;
     headshotUrl := [] |}.

Definition yahoo (nm : string) (v : Q) : YahooPlayer :=
  {| yahoo_name := lit nm; yahooAuctionValue := v |}.

Definition run_merge := merge asciiLower asciiNFD.


End MergeVocabulary.

Section TrackerVocabulary.
Import JS Merge DraftSync Tracker.

(** [sub] occurs in [s] as a contiguous run of code units. *)
Definition occursIn (sub s : jsstring) : Prop :=
  exists pre post, s = pre ++ sub ++ post.

(** The two names match: one lower-cased name contains the other. *)
Definition namesMatch (lower : jsstring -> jsstring) (a b : jsstring) : Prop :=
  occursIn (lower a) (lower b) \/ occursIn (lower b) (lower a).

(** Sample records: a catalog player and a reported pick of a given name. *)
Definition player (nm : string) : MergedPlayer :=
  {| m_name := lit nm; m_team := []; m_position := [];
     m_avgAuctionValue := 0; m_headshotUrl := [];
     m_espnAuctionValue := 0; m_yahooAuctionValue := None |}.

Definition pickOf (nm : string) : DraftPick :=
  {| v_playerId := 1; v_playerName := lit nm; v_teamId := 0;
     v_pickNumber := 1; v_round := 1; v_bidAmount := 0;
     v_isMyPick := false; v_draftedByTeam := None |}.

End TrackerVocabulary.

Section DraftSyncVocabulary.
Import JS DraftSync.

(** The request passes the guard [!playerName || bidAmount === undefined]. *)
Definition accepted (body : PutBody) : bool :=
  match truthyStr (put_playerName body), put_bidAmount body with
  | Some _, Some _ => true
  | _, _ => false
  end.

(** The picks stored for a league ([[]] when it has no cache file). *)
Definition picksOf (cache : Cache) (leagueId : jsstring) : list SyncedPick :=
  default [] (picks <$> loadFromCache cache leagueId).

(** Successive [PUT] requests, each with its time stamp, for one league. *)
Definition putsTo (leagueId : jsstring) (calls : list (jsstring * PutBody))
  : list Request :=
  map (fun c => ReqPUT leagueId (fst c) (snd c)) calls.

(** The session an accepted [PUT] writes back. *)
Definition written (now : jsstring) (existing : CacheData) (nm : jsstring)
    (bid : Q) (isMy : bool) (draftedBy : option jsstring) : CacheData :=
  let r := deduct (teams existing) (default 200%Q (myTeamBudget existing))
                  isMy draftedBy bid in
  {| picks := picks existing ++ [newPick existing nm bid isMy draftedBy];
     teams := fst r;
     syncedAt := now;
     totalPicks := totalPicks existing;
     isComplete := isComplete existing;
     myTeamBudget := Some (snd r) |}.

(** Every stored pick carries its position (from 1) as its number. *)
Definition numbered (l : list SyncedPick) : Prop :=
  map pickNumber l = seqZ 1 (Z.of_nat (length l)).

(** ... in every session of the cache. *)
Definition allNumbered (cache : Cache) : Prop :=
  forall leagueId s, cache !! leagueId = Some s -> numbered (picks s).

(** What the stored picks of team [d] cost: the exact sum of their bids. *)
Definition spentBy (d : jsstring) (l : list SyncedPick) : Q :=
  foldl (fun sum p => (sum + bidAmount p)%Q) 0%Q
        (List.filter (fun p => bool_decide (draftedByTeam p = Some d)) l).

(** Team [m] bears [mineName] before any other team does, and is the one
    team flagged [isMyTeam]. *)
Definition myTeamAt (m : nat) (mineName : jsstring) (ts : list DraftTeam)
  : Prop :=
  (exists t, ts !! m = Some t /\ name t = mineName /\ isMyTeam t = true)
  /\ (forall j y, ts !! j = Some y -> isMyTeam y = true -> j = m)
  /\ (forall j y, (j < m)%nat -> ts !! j = Some y -> name y <> mineName).

(** The invariant: [myTeamBudget] is the budget of my team. *)
Definition tracksMyTeam (m : nat) (mineName : jsstring) (s : CacheData)
  : Prop :=
  exists ts t b,
    teams s = Some ts /\ myTeamAt m mineName ts /\ ts !! m = Some t
    /\ myTeamBudget s = Some b
    /\ (b == budget t)%Q.

(** The bid of a request ([0] when it is missing). *)
Definition bidOf (body : PutBody) : Q := default 0%Q (put_bidAmount body).

(** Whole-dollar requests, as the add-pick form sends them ([parseInt]). *)
Definition wholeBids (calls : list (jsstring * PutBody)) : Prop :=
  Forall (fun c => whole (bidOf (snd c))) calls.

(** The bids of the requests, added up in magnitude. *)
Definition volume (calls : list (jsstring * PutBody)) : Q :=
  foldr (fun c sum => (Qabs (bidOf (snd c)) + sum)%Q) 0%Q calls.

(** The same for stored picks. *)
Definition wholePicks (l : list SyncedPick) : Prop :=
  Forall (fun p => whole (bidAmount p)) l.

Definition magnitude (l : list SyncedPick) : Q :=
  foldr (fun p sum => (Qabs (bidAmount p) + sum)%Q) 0%Q l.

(** Sample data: a league, a time stamp, team and pick requests. *)
Definition league : jsstring := lit "L".

Definition t0 : jsstring := lit "2025-10-01T00:00:00.000Z".

Definition teamIn (nm : jsstring) (b : Q) (mine : bool) : TeamInput :=
  {| in_name := nm; in_budget := Some b; in_isMyTeam := Some mine |}.

Definition pickFor (player : string) (bid : Q) (isMy : bool) (d : jsstring)
  : PutBody :=
  {| put_playerName := Some (lit player); put_bidAmount := Some bid;
     put_isMyPick := Some isMy; put_draftedByTeam := Some d |}.

(** The cache after initializing league [L] with the given teams. *)
Definition initialized (ts : list TeamInput) : Cache :=
  snd (POST t0 ∅ league {| post_teams := Some ts |}).

(** The stored team budgets of league [L]. *)
Definition budgetsOf (cache : Cache) : option (list Q) :=
  s ← loadFromCache cache league; ts ← teams s; Some (map budget ts).

Definition teamsAB : list TeamInput :=
  [teamIn (lit "A") 200 true; teamIn (lit "B") 200 false].

(** The stored teams of league [L], as (name, budget) pairs. *)
Definition teamsOf (cache : Cache) : option (list (jsstring * Q)) :=
  s ← loadFromCache cache league; ts ← teams s;
  Some (map (fun t => (name t, budget t)) ts).

(** The stored [myTeamBudget] of league [L]. *)
Definition myBudgetOf (cache : Cache) : option Q :=
  s ← loadFromCache cache league; myTeamBudget s.

End DraftSyncVocabulary.

Section RouteVocabulary.
Import JS DraftSync.

(** The league a request addresses. *)
Definition leagueOf (r : Request) : jsstring :=
  match r with
  | ReqPOST leagueId _ _ => leagueId
  | ReqPUT leagueId _ _ => leagueId
  | ReqGET leagueId => leagueId
  | ReqDELETE leagueId => leagueId
  end.

(** What [GET] answers for a league without cache file. *)
Definition defaultDraftData : DraftData :=
  {| d_picks := []; d_teams := []; d_currentPick := 1; d_totalPicks := 130;
     d_isComplete := false; d_synced := false; d_syncedAt := None;
     d_myTeamBudget := 200%Q; d_teamsConfigured := None |}.

(** What [GET] answers for a stored session. *)
Definition reported (s : CacheData) : DraftData :=
  {| d_picks := imap transformPick (picks s);
     d_teams := default [] (teams s);
     d_currentPick := Z.of_nat (length (imap transformPick (picks s))) + 1;
     d_totalPicks := totalPicks s;
     d_isComplete := isComplete s;
     d_synced := true;
     d_syncedAt := Some (syncedAt s);
     d_myTeamBudget := default 200%Q (myTeamBudget s);
     d_teamsConfigured :=
       (fun ts => negb (Nat.eqb (length ts) 0)) <$> teams s |}.

(** The constants no handler ever changes, and the fields every handler
    writes. *)
Definition wellFormedSession (s : CacheData) : Prop :=
  isComplete s = false /\ totalPicks s = 130
  /\ is_Some (teams s) /\ is_Some (myTeamBudget s).

(** The names and [isMyTeam] flags of a team list, in order. *)
Definition teamShape (ts : list DraftTeam) : list (jsstring * bool) :=
  map (fun t => (name t, isMyTeam t)) ts.

End RouteVocabulary.

Section PanelVocabulary.
Import JS DraftSync.

(** A reported pick [v] shows the stored pick [p]. *)
Definition shows (v : DraftPick) (p : SyncedPick) : Prop :=
  v_playerName v = playerName p
  /\ v_isMyPick v = isMyPick p
  /\ v_draftedByTeam v = draftedByTeam p
  /\ (Page.orZero (Some (v_bidAmount v)) == bidAmount p)%Q.

End PanelVocabulary.

Section BudgetVocabulary.
Import JS DraftSync.

(** The position of the first team called [d], as [PUT] looks it up. *)
Definition firstNamed (d : jsstring) (ts : list DraftTeam) : option nat :=
  findIndex (fun t => strEq (name t) d) ts.

(** Team [i], the first of its name, has its starting budget [B] less what
    its picks cost. *)
Definition charged (i : nat) (B : Q) (s : CacheData) : Prop :=
  exists ts t,
    teams s = Some ts /\ ts !! i = Some t
    /\ firstNamed (name t) ts = Some i
    /\ (budget t == B - spentBy (name t) (picks s))%Q.

(** The picks flagged [isMyPick] are those drafted by [mineName]. *)
Definition flaggedFor (mineName : jsstring) (l : list SyncedPick) : Prop :=
  Forall (fun p => isMyPick p
                   = bool_decide (draftedByTeam p = Some mineName)) l.

End BudgetVocabulary.

(** * Properties *)

(** ** Initialization *)

Section Initialize.
Import JS DraftSync.

(** C2, as stated, fails: initializing the two teams "A" and "B" stores (and
    [GET] reports) [totalPicks = 130], not [2 * 13 = 26]. *)
Lemma totalPicks_two_teams_not_26 :
  let cache := initialized teamsAB in
  length teamsAB = 2%nat
  /\ (totalPicks <$> loadFromCache cache league) = Some 130
  /\ (exists d, GET cache league = Json 200 d /\ d_totalPicks d = 130)
  /\ 130 <> 2 * 13.
Proof.
  vm_compute. split; [reflexivity | ]. split; [reflexivity | ].
  split; [eexists; split; reflexivity | discriminate].
Qed.

(** C2 (amended): every successful initialization stores [totalPicks = 130],
    which [GET] then reports, whatever the number [T] of teams; this is
    [T * 13] exactly when [T = 10]. *)
Theorem initialize_totalPicks_130 (now leagueId : jsstring) (cache : Cache)
    (ts : list TeamInput) :
  let cache' := snd (POST now cache leagueId {| post_teams := Some ts |}) in
  (totalPicks <$> loadFromCache cache' leagueId) = Some 130
  /\ (exists d, GET cache' leagueId = Json 200 d /\ d_totalPicks d = 130)
  /\ (130 = Z.of_nat (length ts) * 13 <-> length ts = 10%nat).
Proof.
  cbn. unfold GET, loadFromCache, saveToCache.
  rewrite lookup_insert_eq. cbn.
  split; [reflexivity | split; [ | lia]].
  eexists. split; reflexivity.
Qed.

End Initialize.

(** ** Runtime primitives *)

Section JSFacts.
Import JS.

Lemma startsWith_spec (s sub : jsstring) :
  startsWith s sub = true <-> exists post, s = sub ++ post.
Proof.
  revert s. induction sub as [|b sub IH]; intros s; cbn.
  - split; [intros _; exists s; reflexivity | reflexivity].
  - destruct s as [|a s].
    + split; [discriminate | intros [post H]; discriminate].
    + rewrite andb_true_iff, N.eqb_eq, IH. split.
      * intros [-> [post ->]]. exists post. reflexivity.
      * intros [post H]. injection H as -> ->. eauto.
Qed.

(** [includes] decides contiguous occurrence. *)
Lemma includes_spec (s sub : jsstring) :
  includes s sub = true <-> exists pre post, s = pre ++ sub ++ post.
Proof.
  induction s as [|a s IH]; cbn [includes];
    rewrite orb_true_iff, startsWith_spec.
  - split.
    + intros [[post H] | H]; [ | discriminate].
      exists [], post. exact H.
    + intros [pre [post H]]. left.
      destruct pre; [exists post; exact H | discriminate].
  - rewrite IH. split.
    + intros [[post H] | [pre [post H]]].
      * exists [], post. exact H.
      * exists (a :: pre), post. cbn. congruence.
    + intros [[|c pre] [post H]].
      * left. exists post. exact H.
      * right. injection H as -> ->. eauto.
Qed.

Section SortByKey.
Context {A : Type} (key : A -> Q).

(** A comparator of the shape [(a, b) => key(b) - key(a)]. *)
Let desc (a b : A) : Q := (key b - key a)%Q.

Lemma sortInsert_perm (x : A) (l : list A) :
  Permutation (sortInsert desc x l) (x :: l).
Proof.
  induction l as [|y l IH]; cbn; [reflexivity | ].
  destruct (Qle_bool (desc x y) 0); [reflexivity | ].
  rewrite IH. apply perm_swap.
Qed.

Lemma Array_sort_perm (l : list A) : Permutation (Array_sort desc l) l.
Proof.
  induction l as [|x l IH]; cbn; [reflexivity | ].
  rewrite sortInsert_perm. apply perm_skip, IH.
Qed.

Lemma sortInsert_sorted (x : A) (l : list A) :
  StronglySorted (fun a b => (key b <= key a)%Q) l ->
  StronglySorted (fun a b => (key b <= key a)%Q) (sortInsert desc x l).
Proof.
  induction 1 as [|y l Hl IH Hy]; cbn.
  - repeat constructor.
  - destruct (Qle_bool (desc x y) 0) eqn:E.
    + apply Qle_bool_iff in E. unfold desc in E.
      constructor; [constructor; assumption | ].
      constructor; [lra | ].
      eapply Forall_impl; [exact Hy | ]. cbn. intros z Hz. lra.
    + assert (~ (desc x y <= 0)%Q) as Hn
        by (intros H; apply Qle_bool_iff in H; congruence).
      unfold desc in Hn.
      constructor; [exact IH | ].
      eapply Permutation_Forall; [symmetry; apply sortInsert_perm | ].
      constructor; [lra | exact Hy].
Qed.

Lemma Array_sort_sorted (l : list A) :
  StronglySorted (fun a b => (key b <= key a)%Q) (Array_sort desc l).
Proof.
  induction l as [|x l IH]; cbn; [constructor | ].
  apply sortInsert_sorted, IH.
Qed.

(** Stability: the elements of any one key value keep their order. *)
Lemma sortInsert_stable (v : Q) (x : A) (l : list A) :
  List.filter (fun a => Qeq_bool (key a) v) (sortInsert desc x l)
  = List.filter (fun a => Qeq_bool (key a) v) (x :: l).
Proof.
  induction l as [|y l IH]; [reflexivity | ].
  cbn [sortInsert]. destruct (Qle_bool (desc x y) 0) eqn:E; [reflexivity | ].
  assert (~ (desc x y <= 0)%Q) as Hn
    by (intros H; apply Qle_bool_iff in H; congruence).
  unfold desc in Hn.
  cbn [List.filter] in *. rewrite IH.
  destruct (Qeq_bool (key x) v) eqn:Ex; [ | reflexivity].
  destruct (Qeq_bool (key y) v) eqn:Ey; [ | reflexivity].
  apply Qeq_bool_iff in Ex, Ey. lra.
Qed.

Lemma Array_sort_stable (v : Q) (l : list A) :
  List.filter (fun a => Qeq_bool (key a) v) (Array_sort desc l)
  = List.filter (fun a => Qeq_bool (key a) v) l.
Proof.
  induction l as [|x l IH]; [reflexivity | ].
  cbn [Array_sort]. rewrite sortInsert_stable. cbn. rewrite IH. reflexivity.
Qed.

End SortByKey.

(** *** Numbers *)

Lemma pow2_pos (e : Z) : (0 < pow2 e)%Q.
Proof. apply Qpower_0_lt. reflexivity. Qed.

Lemma pow2_add (a b : Z) : (pow2 (a + b) == pow2 a * pow2 b)%Q.
Proof. apply Qpower_plus. discriminate. Qed.

Lemma pow2_Z (e : Z) : 0 <= e -> (pow2 e == inject_Z (2 ^ e))%Q.
Proof. intros H. symmetry. apply (Zpower_Qpower 2 e H). Qed.

Lemma pow2_lt_inv (a b : Z) : (pow2 a < pow2 b)%Q -> a < b.
Proof. intros H. apply (Qpower_lt_compat_l_inv 2); [exact H | reflexivity]. Qed.

Lemma Qabs_num_den (x : Q) :
  (Qabs x * inject_Z (Zpos (Qden x)) == inject_Z (Z.abs (Qnum x)))%Q.
Proof.
  destruct x as [n d]. unfold Qabs, Qeq, Qmult, inject_Z. cbn. lia.
Qed.

(** [ilog2 x] is the binade of [x]: [2^(ilog2 x) <= |x| < 2^(ilog2 x + 1)]. *)
Lemma ilog2_spec (x : Q) :
  ~ (x == 0)%Q ->
  (pow2 (ilog2 x) <= Qabs x)%Q /\ (Qabs x < pow2 (ilog2 x + 1))%Q.
Proof.
  intros Hx. unfold ilog2.
  set (n := Z.abs (Qnum x)). set (d := Zpos (Qden x)).
  assert (0 < n) as Hn.
  { unfold n. destruct x as [[|p|p] q]; cbn; try lia.
    exfalso. apply Hx. reflexivity. }
  assert (0 < d) as Hd by (unfold d; lia).
  destruct (Z.log2_spec n Hn) as [Hn1 Hn2].
  destruct (Z.log2_spec d Hd) as [Hd1 Hd2].
  pose proof (Z.log2_nonneg n) as Hna. pose proof (Z.log2_nonneg d) as Hda.
  set (a := Z.log2 n) in *. set (b := Z.log2 d) in *.
  pose proof (Qabs_num_den x) as Hnd. fold n d in Hnd.
  assert (pow2 a <= inject_Z n)%Q as Qn1
    by (rewrite pow2_Z by exact Hna; rewrite <- Zle_Qle; exact Hn1).
  assert (inject_Z n < pow2 (a + 1))%Q as Qn2.
  { rewrite pow2_Z by lia. rewrite <- Zlt_Qlt.
    replace (a + 1) with (Z.succ a) by lia. exact Hn2. }
  assert (pow2 b <= inject_Z d)%Q as Qd1
    by (rewrite pow2_Z by exact Hda; rewrite <- Zle_Qle; exact Hd1).
  assert (inject_Z d < pow2 (b + 1))%Q as Qd2.
  { rewrite pow2_Z by lia. rewrite <- Zlt_Qlt.
    replace (b + 1) with (Z.succ b) by lia. exact Hd2. }
  pose proof (Qabs_nonneg x) as Habs.
  assert (0 < Qabs x)%Q as Hpos.
  { apply Qle_lteq in Habs. destruct Habs as [H | H]; [exact H | ].
    exfalso. rewrite <- H in Hnd. rewrite Qmult_0_l in Hnd.
    unfold Qeq in Hnd. cbn in Hnd. lia. }
  destruct (Qle_bool (pow2 (a - b)) (Qabs x)) eqn:E.
  - apply Qle_bool_iff in E. split; [exact E | ].
    apply Qmult_lt_r with (z := pow2 b); [apply pow2_pos | ].
    rewrite <- pow2_add. replace (a - b + 1 + b) with (a + 1) by lia.
    apply Qle_lt_trans with (y := (Qabs x * inject_Z d)%Q).
    + apply Qmult_le_l; [exact Hpos | exact Qd1].
    + rewrite Hnd. exact Qn2.
  - assert (~ (pow2 (a - b) <= Qabs x)%Q) as Hn'
      by (intros H; apply Qle_bool_iff in H; congruence).
    apply Qnot_le_lt in Hn'. split.
    + apply Qlt_le_weak.
      apply Qmult_lt_r with (z := pow2 (b + 1)); [apply pow2_pos | ].
      rewrite <- pow2_add. replace (a - b - 1 + (b + 1)) with a by lia.
      apply Qle_lt_trans with (y := inject_Z n); [exact Qn1 | ].
      rewrite <- Hnd. apply Qmult_lt_l; [exact Hpos | exact Qd2].
    + replace (a - b - 1 + 1) with (a - b) by lia. exact Hn'.
Qed.

Lemma ilog2_unique (x : Q) (a : Z) :
  (pow2 a <= Qabs x)%Q -> (Qabs x < pow2 (a + 1))%Q -> ilog2 x = a.
Proof.
  intros H1 H2.
  assert (~ (x == 0)%Q) as Hx.
  { intros H. rewrite H in H1. change (Qabs 0) with 0%Q in H1.
    pose proof (pow2_pos a). lra. }
  destruct (ilog2_spec x Hx) as [H3 H4].
  assert (ilog2 x < a + 1)
    by (apply pow2_lt_inv; eapply Qle_lt_trans; eassumption).
  assert (a < ilog2 x + 1)
    by (apply pow2_lt_inv; eapply Qle_lt_trans; eassumption).
  lia.
Qed.

Lemma ilog2_comp (x y : Q) : ~ (x == 0)%Q -> (x == y)%Q -> ilog2 x = ilog2 y.
Proof.
  intros Hx H. destruct (ilog2_spec x Hx) as [H1 H2].
  symmetry. apply ilog2_unique; rewrite <- H; assumption.
Qed.

Lemma roundHalfEven_comp (x y : Q) :
  (x == y)%Q -> roundHalfEven x = roundHalfEven y.
Proof.
  intros H. unfold roundHalfEven. rewrite (Qfloor_comp _ _ H).
  assert ((x - inject_Z (Qfloor y) ?= 1 # 2)
          = (y - inject_Z (Qfloor y) ?= 1 # 2))%Q
    as -> by (apply Qcompare_comp; [rewrite H | ]; reflexivity).
  reflexivity.
Qed.

Lemma roundHalfEven_Z (z : Z) : roundHalfEven (inject_Z z) = z.
Proof.
  unfold roundHalfEven. rewrite Qfloor_Z.
  assert ((inject_Z z - inject_Z z ?= 1 # 2)%Q = Lt) as ->; [ | reflexivity].
  apply (proj1 (Qlt_alt _ _)). generalize (inject_Z z). intros q. lra.
Qed.

Lemma roundHalfEven_near (x : Q) :
  (x - (1 # 2) <= inject_Z (roundHalfEven x))%Q
  /\ (inject_Z (roundHalfEven x) <= x + (1 # 2))%Q.
Proof.
  unfold roundHalfEven.
  pose proof (Qfloor_le x) as Hle. pose proof (Qlt_floor x) as Hlt.
  rewrite inject_Z_plus in Hlt. change (inject_Z 1) with 1%Q in Hlt.
  destruct (x - inject_Z (Qfloor x) ?= 1 # 2)%Q eqn:E.
  - apply Qeq_alt in E.
    destruct (Z.even (Qfloor x)); [ | rewrite inject_Z_plus;
      change (inject_Z 1) with 1%Q]; revert Hle Hlt E;
      generalize (inject_Z (Qfloor x)); intros f; lra.
  - apply Qlt_alt in E. revert Hle Hlt E.
    generalize (inject_Z (Qfloor x)). intros f. lra.
  - apply Qgt_alt in E. rewrite inject_Z_plus.
    change (inject_Z 1) with 1%Q. revert Hle Hlt E.
    generalize (inject_Z (Qfloor x)). intros f. lra.
Qed.

(** Rounding depends on the value only, not on the fraction denoting it. *)
Lemma binary64_comp (x y : Q) : (x == y)%Q -> binary64 x = binary64 y.
Proof.
  intros H. unfold binary64.
  destruct (Qeq_bool x 0) eqn:Ex.
  - assert (Qeq_bool y 0 = true) as ->; [ | reflexivity].
    apply Qeq_bool_iff. transitivity x; [symmetry; exact H | ].
    apply Qeq_bool_iff. exact Ex.
  - assert (~ (x == 0)%Q) as Hx
      by (intros H0; apply Qeq_bool_iff in H0; congruence).
    assert (Qeq_bool y 0 = false) as ->.
    { destruct (Qeq_bool y 0) eqn:Ey; [ | reflexivity].
      apply Qeq_bool_iff in Ey. exfalso. apply Hx.
      transitivity y; assumption. }
    cbn zeta. rewrite <- (ilog2_comp x y Hx H).
    apply Qred_complete.
    rewrite (roundHalfEven_comp (x / pow2 (Z.max (ilog2 x - 52) (-1074)))
                                (y / pow2 (Z.max (ilog2 x - 52) (-1074))))
      by (apply Qdiv_comp; [exact H | reflexivity]).
    reflexivity.
Qed.

(** A number [m * 2^e] with [|m| < 2^53] and [e >= -1074] is a double:
    rounding leaves it as it is. *)
Lemma binary64_exact (x : Q) (m e : Z) :
  (x == inject_Z m * pow2 e)%Q -> Z.abs m < 2 ^ 53 -> -1074 <= e ->
  (binary64 x == x)%Q.
Proof.
  intros Hx Hm He. unfold binary64.
  destruct (Qeq_bool x 0) eqn:E0.
  - apply Qeq_bool_iff in E0. symmetry. exact E0.
  - assert (~ (x == 0)%Q) as Hnz
      by (intros H0; apply Qeq_bool_iff in H0; congruence).
    cbn zeta. rewrite Qred_correct.
    destruct (ilog2_spec x Hnz) as [H1 _].
    set (q := Z.max (ilog2 x - 52) (-1074)).
    assert (q <= e) as Hq.
    { assert (ilog2 x < 53 + e); [ | lia].
      apply pow2_lt_inv. eapply Qle_lt_trans; [exact H1 | ].
      rewrite Hx, Qabs_Qmult, pow2_add.
      rewrite (Qabs_pos (pow2 e)) by (apply Qlt_le_weak, pow2_pos).
      apply Qmult_lt_r; [apply pow2_pos | ].
      rewrite pow2_Z by lia.
      assert (Qabs (inject_Z m) == inject_Z (Z.abs m))%Q as ->
        by (unfold Qabs, inject_Z; reflexivity).
      rewrite <- Zlt_Qlt. exact Hm. }
    assert (x / pow2 q == inject_Z (m * 2 ^ (e - q)))%Q as Hdiv.
    { rewrite Hx, inject_Z_mult, <- pow2_Z by lia.
      replace e with ((e - q) + q) at 1 by lia. rewrite pow2_add.
      field. pose proof (pow2_pos q). lra. }
    rewrite (roundHalfEven_comp _ _ Hdiv), roundHalfEven_Z.
    rewrite Hx, inject_Z_mult, <- pow2_Z by lia.
    replace e with ((e - q) + q) at 2 by lia. rewrite pow2_add. ring.
Qed.

Lemma binary64_integer (x : Q) (k : Z) :
  (x == inject_Z k)%Q -> Z.abs k < 2 ^ 53 -> (binary64 x == x)%Q.
Proof.
  intros Hx Hk. apply (binary64_exact x k 0); [ | exact Hk | lia].
  rewrite Hx. change (pow2 0) with 1%Q. ring.
Qed.

(** The rounding error is at most half a unit in the last place. *)
Lemma binary64_error (x : Q) :
  (Qabs (binary64 x - x) <= Qabs x * pow2 (-53) + pow2 (-1075))%Q.
Proof.
  unfold binary64. destruct (Qeq_bool x 0) eqn:E0.
  - apply Qeq_bool_iff in E0. rewrite E0.
    assert (0 - 0 == 0)%Q as -> by ring. change (Qabs 0) with 0%Q.
    pose proof (pow2_pos (-53)). pose proof (pow2_pos (-1075)). lra.
  - assert (~ (x == 0)%Q) as Hnz
      by (intros H0; apply Qeq_bool_iff in H0; congruence).
    cbn zeta. rewrite Qred_correct.
    destruct (ilog2_spec x Hnz) as [H1 _].
    set (q := Z.max (ilog2 x - 52) (-1074)).
    destruct (roundHalfEven_near (x / pow2 q)) as [Hlo Hhi].
    set (r := inject_Z (roundHalfEven (x / pow2 q))) in *.
    pose proof (pow2_pos q) as Hq0.
    assert (r * pow2 q - x == (r - x / pow2 q) * pow2 q)%Q as ->
      by (field; lra).
    rewrite Qabs_Qmult, (Qabs_pos (pow2 q)) by lra.
    assert (Qabs (r - x / pow2 q) <= 1 # 2)%Q as Hr
      by (apply Qabs_Qle_condition; split; lra).
    assert (pow2 q == 2 * pow2 (q - 1))%Q as Hq1.
    { replace q with (1 + (q - 1)) at 1 by lia. rewrite pow2_add.
      reflexivity. }
    apply Qle_trans with (y := ((1 # 2) * pow2 q)%Q).
    { apply Qmult_le_compat_r; [exact Hr | lra]. }
    rewrite Hq1. pose proof (pow2_pos (q - 1)) as Hq2.
    pose proof (pow2_pos (-53)). pose proof (pow2_pos (-1075)).
    pose proof (Qabs_nonneg x).
    destruct (Z.max_spec (ilog2 x - 52) (-1074)) as [[_ Hmax] | [_ Hmax]];
      fold q in Hmax.
    + assert (pow2 (q - 1) == pow2 (-1075))%Q as ->
        by (rewrite Hmax; reflexivity).
      assert (0 <= Qabs x * pow2 (-53))%Q by (apply Qmult_le_0_compat; lra).
      lra.
    + assert (pow2 (q - 1) == pow2 (ilog2 x) * pow2 (-53))%Q as ->
        by (rewrite <- pow2_add; replace (q - 1) with (ilog2 x + -53) by lia;
            reflexivity).
      assert (pow2 (ilog2 x) * pow2 (-53) <= Qabs x * pow2 (-53))%Q
        by (apply Qmult_le_compat_r; lra).
      lra.
Qed.


Lemma whole_plus (a b : Q) : whole a -> whole b -> whole (a + b).
Proof.
  intros [ka Ha] [kb Hb]. exists (ka + kb). rewrite inject_Z_plus, Ha, Hb.
  reflexivity.
Qed.

Lemma whole_minus (a b : Q) : whole a -> whole b -> whole (a - b).
Proof.
  intros [ka Ha] [kb Hb]. exists (ka - kb).
  unfold Z.sub. rewrite inject_Z_plus, inject_Z_opp, Ha, Hb. reflexivity.
Qed.

Lemma whole_comp (a b : Q) : (a == b)%Q -> whole a -> whole b.
Proof. intros H [k Hk]. exists k. rewrite <- H. exact Hk. Qed.

(** Whole numbers up to [MAX_SAFE_INTEGER] are doubles. *)
Lemma binary64_whole (x : Q) :
  whole x -> (Qabs x <= safe)%Q -> (binary64 x == x)%Q.
Proof.
  intros [k Hk] Hb. apply (binary64_integer x k Hk).
  rewrite Hk in Hb.
  assert (Qabs (inject_Z k) = inject_Z (Z.abs k)) as E by reflexivity.
  rewrite E in Hb. unfold safe in Hb. rewrite <- Zle_Qle in Hb.
  unfold MAX_SAFE_INTEGER in Hb. lia.
Qed.





End JSFacts.

(** ** The merge script *)

Section MergeFacts.
Import JS Merge.

Variable toLowerCase : jsstring -> jsstring.
Variable normalizeNFD : jsstring -> jsstring.

Local Abbreviation norm := (normalizeName toLowerCase normalizeNFD).
Local Abbreviation ymap := (yahooMap toLowerCase normalizeNFD).

Lemma yahooMap_snoc (ys : list YahooPlayer) (y : YahooPlayer) :
  ymap (ys ++ [y])
  = <[norm (yahoo_name y) := yahooAuctionValue y]> (ymap ys).
Proof. unfold yahooMap. rewrite foldl_app. reflexivity. Qed.




Lemma merge_perm (primary : list EspnPlayer) (secondary : list YahooPlayer) :
  Permutation (merge toLowerCase normalizeNFD primary secondary)
              (map (mergePlayer toLowerCase normalizeNFD (ymap secondary))
                   primary).
Proof.
  unfold merge, mergedData, byValueDesc.
  apply (Array_sort_perm m_avgAuctionValue).
Qed.

Lemma mergePlayer_name (m : gmap (list N) Q) (p : EspnPlayer) :
  m_name (mergePlayer toLowerCase normalizeNFD m p) = name p.
Proof. unfold mergePlayer. destruct (m !! _); reflexivity. Qed.



(** C6 (amended): the output holds exactly one record per primary record:
    its normalized names are, up to order, those of the primary list.  So
    the output has as many records as the primary list, and no two output
    records share a normalized name exactly when no two primary records
    do. *)
Theorem merge_one_record_per_primary (primary : list EspnPlayer)
    (secondary : list YahooPlayer) :
  let out := merge toLowerCase normalizeNFD primary secondary in
  Permutation (map (fun r => norm (m_name r)) out)
              (map (fun p => norm (name p)) primary)
  /\ length out = length primary
  /\ (List.NoDup (map (fun r => norm (m_name r)) out)
      <-> List.NoDup (map (fun p => norm (name p)) primary)).
Proof.
  cbn zeta.
  assert (Permutation
            (map (fun r => norm (m_name r))
                 (merge toLowerCase normalizeNFD primary secondary))
            (map (fun p => norm (name p)) primary)) as HP.
  { rewrite (Permutation_map _ (merge_perm primary secondary)).
    rewrite map_map. erewrite map_ext; [reflexivity | ].
    intros p. cbn. rewrite mergePlayer_name. reflexivity. }
  split; [exact HP | split].
  - rewrite (Permutation_length (merge_perm primary secondary)).
    apply length_map.
  - split; intros H.
    + eapply Permutation_NoDup; [exact HP | exact H].
    + eapply Permutation_NoDup; [symmetry; exact HP | exact H].
Qed.

(** C8: the output is sorted non-increasing by [avgAuctionValue], and for
    every value [v] the output records of average [v] are, in this order,
    the merged records of the primary players of average [v] taken in
    primary input order. *)
Theorem merge_sorted_stable (primary : list EspnPlayer)
    (secondary : list YahooPlayer) :
  let out := merge toLowerCase normalizeNFD primary secondary in
  let merged := mergePlayer toLowerCase normalizeNFD (ymap secondary) in
  StronglySorted
    (fun a b => (m_avgAuctionValue b <= m_avgAuctionValue a)%Q) out
  /\ forall v : Q,
       List.filter (fun r => Qeq_bool (m_avgAuctionValue r) v) out
       = map merged
           (List.filter
              (fun p => Qeq_bool (m_avgAuctionValue (merged p)) v) primary).
Proof.
  cbn zeta. unfold merge, mergedData, byValueDesc. split.
  - apply (Array_sort_sorted m_avgAuctionValue).
  - intros v. rewrite (Array_sort_stable m_avgAuctionValue).
    induction primary as [|p ps IH]; [reflexivity | ].
    cbn [map List.filter].
    destruct (Qeq_bool _ v); cbn [map]; rewrite IH; reflexivity.
Qed.

End MergeFacts.

(** *** Concrete runs of the merge script (ASCII names) *)

Section MergeRuns.
Import JS Merge.

Example normalizeName_ascii :
  normalizeName asciiLower asciiNFD (lit " Shai Gilgeous-Alexander Jr. ")
  = lit "shai gilgeousalexander jr".
Proof. vm_compute. reflexivity. Qed.

(** The numbers of the JSON files as doubles: [0.1], [30.1] and [64.6], and
    [0.1 + 0.2], are not the decimals they are written as. *)
Example parsed_decimals :
  parsed (1 # 10) = (3602879701896397 # 36028797018963968)%Q
  /\ parsed (301 # 10) = (4236198399495373 # 140737488355328)%Q
  /\ parsed (646 # 10) = (2272910436938547 # 35184372088832)%Q
  /\ Number_add (parsed (1 # 10)) (parsed (2 # 10))
     = (1351079888211149 # 4503599627370496)%Q
  /\ ~ (Number_add (parsed (1 # 10)) (parsed (2 # 10)) == parsed (3 # 10))%Q.
Proof. vm_compute. repeat split. discriminate. Qed.

(** Primary [A: 80], secondary [A: 60]: one record of average 70. *)
Example merge_matched :
  map (fun r => (m_avgAuctionValue r, m_espnAuctionValue r,
                 m_yahooAuctionValue r))
      (run_merge [espn "A" 80] [yahoo "a" 60])
  = [(70%Q, 80%Q, Some 60%Q)].
Proof. vm_compute. reflexivity. Qed.

(** Primary [B: 40], secondary empty: average 40, Yahoo value [null]. *)
Example merge_unmatched :
  map (fun r => (m_avgAuctionValue r, m_yahooAuctionValue r))
      (run_merge [espn "B" 40] [])
  = [(40%Q, None)].
Proof. vm_compute. reflexivity. Qed.

(** Primary [C: 80], secondary [C: 61]: the mean 70.5 is kept to one decimal. *)
Example merge_one_decimal :
  map m_avgAuctionValue (run_merge [espn "C" 80] [yahoo "C" 61])
  = [(141 # 2)%Q].
Proof. vm_compute. reflexivity. Qed.



(** C6, as stated, fails: a primary list with the same player twice yields
    two output records of the same normalized name. *)
Lemma merge_keeps_primary_duplicates :
  let out := run_merge [espn "A" 80; espn "a" 70] [yahoo "A" 60] in
  length out = 2%nat
  /\ ~ List.NoDup (map (fun r => normalizeName asciiLower asciiNFD (m_name r)) out).
Proof.
  split; [vm_compute; reflexivity | ].
  vm_compute. intros H. inversion H as [|x l Hnotin _]. apply Hnotin.
  left. reflexivity.
Qed.

End MergeRuns.

(** ** The tracker page *)

Section TrackerFacts.
Import JS Merge DraftSync Tracker.

Lemma pickMatches_spec (lower : jsstring -> jsstring) (p : MergedPlayer)
    (pick : DraftPick) :
  pickMatches lower p pick = true
  <-> namesMatch lower (m_name p) (v_playerName pick).
Proof.
  unfold pickMatches, namesMatch, occursIn.
  rewrite orb_true_iff, !includes_spec. reflexivity.
Qed.

Lemma availablePlayers_spec (lower : jsstring -> jsstring)
    (allPlayers : list MergedPlayer) (picks : list DraftPick)
    (p : MergedPlayer) :
  In p (availablePlayers lower allPlayers picks)
  <-> In p allPlayers
      /\ ~ exists pick, In pick picks
                        /\ namesMatch lower (m_name p) (v_playerName pick).
Proof.
  unfold availablePlayers. rewrite filter_In, negb_true_iff.
  rewrite <- not_true_iff_false, existsb_exists.
  split; intros [Hin Hno]; (split; [exact Hin | ]);
    intros [pick [Hpick Hm]]; apply Hno; exists pick;
    (split; [exact Hpick | ]); apply pickMatches_spec; exact Hm.
Qed.

(** C7: a catalog player is excluded from the available players exactly when
    some pick's [playerName] and the player's [name], both lower-cased,
    contain one another in either direction (so an unequal, partial name
    excludes too); a player is kept exactly when no pick matches.  The
    catalog [LeBron James] with the pick [LeBron] is left empty, and the
    pick [Curry] leaves it untouched. *)
Theorem available_by_containment :
  (forall (lower : jsstring -> jsstring) (allPlayers : list MergedPlayer)
          (picks : list DraftPick) (p : MergedPlayer),
      (In p allPlayers /\ ~ In p (availablePlayers lower allPlayers picks)
       <-> In p allPlayers
           /\ exists pick, In pick picks
                /\ namesMatch lower (m_name p) (v_playerName pick))
      /\ (In p (availablePlayers lower allPlayers picks)
          <-> In p allPlayers
              /\ ~ exists pick, In pick picks
                     /\ namesMatch lower (m_name p) (v_playerName pick)))
  /\ availablePlayers asciiLower [player "LeBron James"] [pickOf "LeBron"] = []
  /\ availablePlayers asciiLower [player "LeBron James"] [pickOf "Curry"]
     = [player "LeBron James"].
Proof.
  split; [ | split; vm_compute; reflexivity].
  intros lower allPlayers picks p.
  split; [ | apply availablePlayers_spec].
  rewrite availablePlayers_spec. split.
  - intros [Hin Hno]. split; [exact Hin | ].
    destruct (existsb (pickMatches lower p) picks) eqn:E.
    + apply existsb_exists in E. destruct E as [pick [Hpick Hm]].
      exists pick. split; [exact Hpick | apply pickMatches_spec, Hm].
    + exfalso. apply Hno. split; [exact Hin | ].
      intros [pick [Hpick Hm]].
      assert (existsb (pickMatches lower p) picks = true) as E'
        by (apply existsb_exists; exists pick; split;
            [exact Hpick | apply pickMatches_spec, Hm]).
      congruence.
  - intros [Hin Hex]. split; [exact Hin | ].
    intros [_ Hno]. exact (Hno Hex).
Qed.

End TrackerFacts.

(** ** The draft-sync route *)

Section DraftSyncFacts.
Import JS DraftSync.

Lemma accepted_true (body : PutBody) :
  accepted body = true
  <-> exists nm bid, truthyStr (put_playerName body) = Some nm
                     /\ put_bidAmount body = Some bid.
Proof.
  unfold accepted.
  destruct (truthyStr _) as [nm|], (put_bidAmount body) as [bid|];
    split; try discriminate; eauto; intros [? [? [? ?]]]; discriminate.
Qed.

Lemma accepted_false (body : PutBody) :
  accepted body = false
  <-> truthyStr (put_playerName body) = None \/ put_bidAmount body = None.
Proof.
  unfold accepted.
  destruct (truthyStr _) as [nm|], (put_bidAmount body) as [bid|];
    split; try discriminate; auto; intros [? | ?]; discriminate.
Qed.

Lemma PUT_rejected (now : jsstring) (cache : Cache) (leagueId : jsstring)
    (body : PutBody) :
  accepted body = false ->
  PUT now cache leagueId body
  = (ErrorJson 400 (lit "playerName and bidAmount are required"), cache).
Proof.
  unfold accepted, PUT.
  destruct (truthyStr _), (put_bidAmount body); try discriminate; reflexivity.
Qed.

Lemma PUT_accepted (now : jsstring) (cache : Cache) (leagueId : jsstring)
    (body : PutBody) (nm : jsstring) (bid : Q) :
  truthyStr (put_playerName body) = Some nm ->
  put_bidAmount body = Some bid ->
  let existing := default (emptyData now) (loadFromCache cache leagueId) in
  let isMy := default false (put_isMyPick body) in
  let s' := written now existing nm bid isMy (put_draftedByTeam body) in
  exists ok,
    PUT now cache leagueId body = (Json 200 ok, <[leagueId := s']> cache)
    /\ put_pick ok = newPick existing nm bid isMy (put_draftedByTeam body)
    /\ put_totalPicks ok = Z.of_nat (length (picks s'))
    /\ myTeamBudget s' = Some (put_myTeamBudget ok).
Proof.
  intros Hn Hb. cbn zeta. unfold PUT, written. rewrite Hn, Hb.
  destruct (deduct _ _ _ _ _) as [teams' myBudget']. cbn.
  eexists. repeat split.
Qed.

Lemma picksOf_insert (cache : Cache) (leagueId : jsstring) (s : CacheData) :
  picksOf (<[leagueId := s]> cache) leagueId = picks s.
Proof. unfold picksOf, loadFromCache. rewrite lookup_insert_eq. reflexivity. Qed.

Lemma picks_existing (now : jsstring) (cache : Cache) (leagueId : jsstring) :
  picks (default (emptyData now) (loadFromCache cache leagueId))
  = picksOf cache leagueId.
Proof. unfold picksOf. destruct (loadFromCache _ _); reflexivity. Qed.

(** What one [PUT] does to the stored pick list. *)
Lemma PUT_picks (now : jsstring) (cache : Cache) (leagueId : jsstring)
    (body : PutBody) :
  exists new,
    picksOf (snd (PUT now cache leagueId body)) leagueId
    = picksOf cache leagueId ++ new
    /\ map pickNumber new
       = seqZ (Z.of_nat (length (picksOf cache leagueId)) + 1)
              (if accepted body then 1 else 0).
Proof.
  destruct (accepted body) eqn:E.
  - destruct (proj1 (accepted_true body) E) as [nm [bid [Hn Hb]]].
    destruct (PUT_accepted now cache leagueId body nm bid Hn Hb)
      as [ok [-> _]].
    cbn [snd]. rewrite picksOf_insert. cbn [written picks].
    rewrite picks_existing. eexists. split; [reflexivity | ].
    cbn. rewrite picks_existing. reflexivity.
  - rewrite (PUT_rejected _ _ _ _ E). exists []. cbn [snd].
    rewrite app_nil_r. split; reflexivity.
Qed.

Lemma serveAll_puts_picks (leagueId : jsstring)
    (calls : list (jsstring * PutBody)) (cache : Cache) :
  exists new,
    picksOf (serveAll cache (putsTo leagueId calls)) leagueId
    = picksOf cache leagueId ++ new
    /\ map pickNumber new
       = seqZ (Z.of_nat (length (picksOf cache leagueId)) + 1)
              (Z.of_nat (length (List.filter (fun c => accepted (snd c)) calls))).
Proof.
  revert cache. induction calls as [|[now body] calls IH]; intros cache.
  - exists []. rewrite app_nil_r. split; reflexivity.
  - cbn [putsTo map serveAll foldl serve fst snd List.filter].
    destruct (IH (snd (PUT now cache leagueId body))) as [new2 [E2 N2]].
    destruct (PUT_picks now cache leagueId body) as [new1 [E1 N1]].
    exists (new1 ++ new2). unfold serveAll, putsTo in E2. rewrite E2, E1.
    split; [symmetry; apply app_assoc | ].
    rewrite map_app, N1, N2, E1, length_app.
    assert (length new1 = Z.to_nat (if accepted body then 1 else 0)) as L1
      by (rewrite <- (length_map pickNumber), N1; apply length_seqZ).
    destruct (accepted body); cbn [length] in *; rewrite L1.
    + rewrite Nat2Z.inj_succ, <- Z.add_1_l.
      rewrite seqZ_app by lia. f_equal. f_equal. clear. lia.
    + change (Z.to_nat 0) with 0%nat. rewrite Nat.add_0_r. reflexivity.
Qed.

(** C5: starting from a league without stored session, the first accepted
    [PUT] returns a pick numbered 1 (a rejected one stores nothing); after
    any run of [N] [PUT] requests of which [n] are accepted, the stored pick
    numbers are exactly [1, ..., n], that is [1, ..., N] when every request
    is accepted; and from any state, a
    run of [PUT] requests leaves the earlier picks as they were and appends
    picks numbered from the current count plus 1 on. *)
Theorem pickNumbers_sequential (leagueId : jsstring) (cache : Cache)
    (calls : list (jsstring * PutBody)) :
  let fresh := delete leagueId cache in
  let n := Z.of_nat (length (List.filter (fun c => accepted (snd c)) calls)) in
  (forall now body,
      match PUT now fresh leagueId body with
      | (Json _ ok, _) =>
          accepted body = true /\ pickNumber (put_pick ok) = 1
      | (ErrorJson _ _, cache') => accepted body = false /\ cache' = fresh
      end)
  /\ map pickNumber (picksOf (serveAll fresh (putsTo leagueId calls)) leagueId)
     = seqZ 1 n
  /\ (forallb (fun c => accepted (snd c)) calls = true ->
      map pickNumber (picksOf (serveAll fresh (putsTo leagueId calls)) leagueId)
      = seqZ 1 (Z.of_nat (length calls)))
  /\ (exists new,
        picksOf (serveAll cache (putsTo leagueId calls)) leagueId
        = picksOf cache leagueId ++ new
        /\ map pickNumber new
           = seqZ (Z.of_nat (length (picksOf cache leagueId)) + 1) n).
Proof.
  cbn zeta.
  assert (picksOf (delete leagueId cache) leagueId = []) as Hfresh
    by (unfold picksOf, loadFromCache; rewrite lookup_delete_eq; reflexivity).
  assert (map pickNumber
            (picksOf (serveAll (delete leagueId cache) (putsTo leagueId calls))
                     leagueId)
          = seqZ 1 (Z.of_nat (length (List.filter (fun c => accepted (snd c))
                                                  calls)))) as Hrun.
  { destruct (serveAll_puts_picks leagueId calls (delete leagueId cache))
      as [new [-> Hnew]].
    rewrite Hfresh in *. exact Hnew. }
  split; [ | split; [exact Hrun | split]].
  - intros now body. destruct (accepted body) eqn:E.
    + destruct (proj1 (accepted_true body) E) as [nm [bid [Hn Hb]]].
      destruct (PUT_accepted now (delete leagueId cache) leagueId body nm bid
                  Hn Hb) as [ok [-> [-> _]]].
      split; [reflexivity | ]. cbn. rewrite picks_existing, Hfresh.
      reflexivity.
    + rewrite (PUT_rejected _ _ _ _ E). split; reflexivity.
  - intros Hall. rewrite Hrun. do 3 f_equal.
    clear Hrun. induction calls as [|c calls IH]; [reflexivity | ].
    cbn in Hall |- *. apply andb_true_iff in Hall. destruct Hall as [-> Hall].
    cbn. f_equal. exact (IH Hall).
  - apply serveAll_puts_picks.
Qed.

(** *** Rounds reported by [GET] *)

Lemma numbered_snoc (l : list SyncedPick) (p : SyncedPick) :
  numbered l -> pickNumber p = Z.of_nat (length l) + 1 -> numbered (l ++ [p]).
Proof.
  unfold numbered. intros Hl Hp.
  rewrite map_app, length_app, Hl. cbn [map length].
  rewrite Nat.add_1_r, seqZ_S, Hp. f_equal. f_equal. apply Z.add_comm.
Qed.

Lemma serve_allNumbered (cache : Cache) (r : Request) :
  allNumbered cache -> allNumbered (serve cache r).
Proof.
  intros Hc. destruct r as [lid now body | lid now body | lid | lid];
    cbn [serve]; [ | | exact Hc | ].
  - unfold POST. destruct (post_teams body) as [ts|]; [ | exact Hc].
    cbn [snd]. unfold saveToCache. intros l s Hs.
    destruct (decide (lid = l)) as [-> | Hne].
    + rewrite lookup_insert_eq in Hs. injection Hs as <-. reflexivity.
    + rewrite lookup_insert_ne in Hs by exact Hne. exact (Hc l s Hs).
  - destruct (accepted body) eqn:E.
    + destruct (proj1 (accepted_true body) E) as [nm [bid [Hn Hb]]].
      destruct (PUT_accepted now cache lid body nm bid Hn Hb) as [ok [-> _]].
      cbn [snd]. intros l s Hs.
      destruct (decide (lid = l)) as [-> | Hne].
      * rewrite lookup_insert_eq in Hs. injection Hs as <-.
        cbn [written picks]. apply numbered_snoc; [ | reflexivity].
        unfold loadFromCache.
        destruct (cache !! l) as [s0|] eqn:E0; [exact (Hc l s0 E0) | ].
        reflexivity.
      * rewrite lookup_insert_ne in Hs by exact Hne. exact (Hc l s Hs).
    + rewrite (PUT_rejected _ _ _ _ E). exact Hc.
  - cbn. intros l s Hs.
    destruct (decide (lid = l)) as [-> | Hne].
    + rewrite lookup_delete_eq in Hs. discriminate.
    + rewrite lookup_delete_ne in Hs by exact Hne. exact (Hc l s Hs).
Qed.

Lemma serveAll_allNumbered (rs : list Request) (cache : Cache) :
  allNumbered cache -> allNumbered (serveAll cache rs).
Proof.
  revert cache. induction rs as [|r rs IH]; intros cache Hc; [exact Hc | ].
  apply IH, serve_allNumbered, Hc.
Qed.

Lemma floor_tenth (i : Z) : Math_floor (inject_Z i / 10) = i / 10.
Proof.
  unfold Math_floor, Qdiv, Qmult, Qinv, inject_Z, Qfloor. cbn.
  rewrite Z.mul_1_r. reflexivity.
Qed.

(** What [GET] reports for the pick at position [i] of a numbered list. *)
Lemma transformPick_numbered (l : list SyncedPick) (i : nat) (v : DraftPick) :
  numbered l ->
  imap transformPick l !! i = Some v ->
  v_pickNumber v = Z.of_nat i + 1 /\ v_round v = Z.of_nat i / 10 + 1.
Proof.
  intros Hl Hv. rewrite list_lookup_imap in Hv.
  destruct (l !! i) as [p|] eqn:Ep; [ | discriminate].
  injection Hv as <-.
  assert (pickNumber p = 1 + Z.of_nat i) as Hp.
  { assert (map pickNumber l !! i = Some (pickNumber p)) as H
      by (change (map pickNumber l) with (pickNumber <$> l);
          rewrite list_lookup_fmap, Ep; reflexivity).
    rewrite Hl in H. apply lookup_seqZ in H. tauto. }
  cbn [transformPick v_pickNumber v_round]. rewrite floor_tenth, Hp.
  destruct (1 + Z.of_nat i =? 0) eqn:E; [lia | ].
  split; [lia | reflexivity].
Qed.

(** C4 (amended): in every state reached from the empty cache directory by
    any requests, [GET] answers, and every pick it returns has
    [round = floor((pickNumber - 1) / 10) + 1]: the divisor is the constant
    10, whatever the number of teams configured. *)
Theorem round_divides_by_ten (rs : list Request) (leagueId : jsstring) :
  match GET (serveAll ∅ rs) leagueId with
  | Json status d =>
      status = 200
      /\ Forall (fun v => v_round v = (v_pickNumber v - 1) / 10 + 1) (d_picks d)
  | ErrorJson _ _ => False
  end.
Proof.
  assert (allNumbered (serveAll ∅ rs)) as Hn.
  { apply serveAll_allNumbered. intros l s Hs.
    rewrite lookup_empty in Hs. discriminate. }
  unfold GET, loadFromCache.
  destruct (serveAll ∅ rs !! leagueId) as [s|] eqn:Es.
  - split; [reflexivity | ]. cbn [d_picks].
    apply Forall_lookup. intros i v Hv.
    destruct (transformPick_numbered _ _ _ (Hn _ _ Es) Hv) as [-> ->].
    f_equal. f_equal. lia.
  - split; [reflexivity | constructor].
Qed.

(** *** Budget deduction *)

Lemma findIndex_Some {A : Type} (f : A -> bool) (l : list A) (i : nat) :
  findIndex f l = Some i
  <-> exists x, l !! i = Some x /\ f x = true
                /\ forall j y, (j < i)%nat -> l !! j = Some y -> f y = false.
Proof.
  revert i. induction l as [|a l IH]; intros i; cbn [findIndex].
  - split; [discriminate | intros [x [H _]]; discriminate].
  - destruct (f a) eqn:Ea.
    + split.
      * intros [= <-]. exists a. repeat split; [exact Ea | lia].
      * intros [x [Hx [Hfx Hlt]]]. destruct i as [|i]; [reflexivity | ].
        specialize (Hlt 0%nat a ltac:(lia) eq_refl). congruence.
    + split.
      * intros H. destruct (findIndex f l) as [k|] eqn:Ek; [ | discriminate].
        cbn in H. injection H as <-.
        destruct (proj1 (IH k) eq_refl) as [x [Hx [Hfx Hlt]]].
        exists x. repeat split; [exact Hx | exact Hfx | ].
        intros [|j] y Hj Hy; [cbn in Hy; congruence | ].
        apply (Hlt j y); [lia | exact Hy].
      * intros [x [Hx [Hfx Hlt]]].
        destruct i as [|i]; [cbn in Hx; congruence | ].
        assert (findIndex f l = Some i) as ->; [ | reflexivity].
        apply IH. exists x. repeat split; [exact Hx | exact Hfx | ].
        intros j y Hj Hy. apply (Hlt (S j) y); [lia | exact Hy].
Qed.

Lemma findIndex_None {A : Type} (f : A -> bool) (l : list A) :
  (forall x, In x l -> f x = false) -> findIndex f l = None.
Proof.
  induction l as [|a l IH]; intros H; cbn [findIndex]; [reflexivity | ].
  rewrite (H a) by (left; reflexivity).
  rewrite IH; [reflexivity | ]. intros x Hx. apply H. right. exact Hx.
Qed.

Lemma strEq_true (a b : jsstring) : strEq a b = true <-> a = b.
Proof. unfold strEq. apply bool_decide_eq_true. Qed.

Lemma strEq_false (a b : jsstring) : strEq a b = false <-> a <> b.
Proof. unfold strEq. apply bool_decide_eq_false. Qed.

(** The request names the first team called [d]: that team is charged. *)
Lemma deduct_named (ts : list DraftTeam) (b : Q) (isMy : bool)
    (d : jsstring) (bid : Q) (i : nat) (t : DraftTeam) :
  d <> [] -> ts !! i = Some t -> name t = d ->
  (forall j y, (j < i)%nat -> ts !! j = Some y -> name y <> d) ->
  deduct (Some ts) b isMy (Some d) bid
  = (Some (alter (subBudget bid) i ts),
     if isMyTeam t then Number_subtract b bid else b).
Proof.
  intros Hd Ht Hn Hfirst. unfold deduct.
  destruct d as [|c d]; [congruence | ]. cbn [truthyStr].
  destruct ts as [|t0 ts0]; [discriminate | ].
  assert (findIndex (fun y => strEq (name y) (c :: d)) (t0 :: ts0) = Some i)
    as ->.
  { apply findIndex_Some. exists t. split; [exact Ht | ].
    split; [apply strEq_true, Hn | ].
    intros j y Hj Hy. apply strEq_false. eauto. }
  rewrite Ht. reflexivity.
Qed.

(** The request names no team: nothing is charged to a team. *)
Lemma deduct_unnamed (ots : option (list DraftTeam)) (b : Q) (isMy : bool)
    (od : option jsstring) (bid : Q) :
  (forall ts t, ots = Some ts -> In t ts -> od <> Some (name t)) ->
  fst (deduct ots b isMy od bid) = ots.
Proof.
  intros H. unfold deduct.
  destruct (truthyStr od) as [d|] eqn:Ed; [ | reflexivity].
  destruct ots as [[|t0 ts0]|]; [reflexivity | | reflexivity].
  assert (od = Some d) as ->
    by (destruct od as [[|? ?]|]; cbn in Ed; congruence).
  rewrite findIndex_None; [reflexivity | ].
  intros y Hy. apply strEq_false. intros Hn.
  apply (H (t0 :: ts0) y eq_refl Hy). congruence.
Qed.

(** C1 (amended): [PUT] fails, with status 400 and the cache untouched,
    exactly when [playerName] is missing or empty or [bidAmount] is missing.
    Any other request is accepted, whatever the sign of [bidAmount] and
    whether or not [draftedByTeam] names a configured team: the returned
    pick, carrying that [bidAmount], is appended to the stored picks; and
    when [draftedByTeam] names no configured team, the stored teams (so
    every team budget) are left as they were. *)
Theorem addPick_rejects_only_missing_fields (now : jsstring) (cache : Cache)
    (leagueId : jsstring) (body : PutBody) :
  let missing :=
    put_playerName body = None \/ put_playerName body = Some []
    \/ put_bidAmount body = None in
  let existing := default (emptyData now) (loadFromCache cache leagueId) in
  (missing ->
     exists msg, PUT now cache leagueId body = (ErrorJson 400 msg, cache))
  /\ (~ missing ->
      exists ok s',
        PUT now cache leagueId body = (Json 200 ok, <[leagueId := s']> cache)
        /\ picks s' = picks existing ++ [put_pick ok]
        /\ put_bidAmount body = Some (bidAmount (put_pick ok))
        /\ ((forall ts t, teams existing = Some ts -> In t ts ->
               put_draftedByTeam body <> Some (name t)) ->
            teams s' = teams existing)).
Proof.
  cbn zeta. split.
  - intros Hm. eexists. apply PUT_rejected, accepted_false.
    destruct Hm as [-> | [-> | ->]]; auto.
  - intros Hm. destruct (accepted body) eqn:E.
    + destruct (proj1 (accepted_true body) E) as [nm [bid [Hn Hb]]].
      destruct (PUT_accepted now cache leagueId body nm bid Hn Hb)
        as [ok [HP [Hpick _]]].
      eexists ok, _. split; [exact HP | ].
      cbn [written picks teams]. rewrite Hpick.
      split; [reflexivity | ]. split; [exact Hb | ].
      intros Hun. apply deduct_unnamed, Hun.
    + exfalso. apply Hm. apply accepted_false in E.
      destruct E as [E | E]; [ | auto].
      destruct (put_playerName body) as [[|c r]|]; cbn in E;
        [auto | discriminate | auto].
Qed.

(** C9 (amended): when a stored session has a team [t] of budget [B] with a
    non-empty name that no earlier team bears, an accepted [PUT] whose
    [draftedByTeam] is that name, with any [bidAmount] [A], succeeds and
    leaves [t] with the budget [B - A] of double arithmetic, every other
    team being untouched; no sign or size of [A] or [B] makes it fail.  As
    long as [B - A] is within the finite doubles, that budget is the double
    nearest to [B - A], at most [|B - A| * 2^-53 + 2^-1075] away from it;
    it is [B - A] itself when that is a whole number up to
    [Number.MAX_SAFE_INTEGER]. *)
Theorem addPick_deducts_bid (now : jsstring) (cache : Cache)
    (leagueId : jsstring) (body : PutBody) (s : CacheData)
    (ts : list DraftTeam) (i : nat) (t : DraftTeam) (nm : jsstring) (A : Q) :
  loadFromCache cache leagueId = Some s ->
  teams s = Some ts ->
  ts !! i = Some t ->
  name t <> [] ->
  (forall j y, (j < i)%nat -> ts !! j = Some y -> name y <> name t) ->
  truthyStr (put_playerName body) = Some nm ->
  put_bidAmount body = Some A ->
  put_draftedByTeam body = Some (name t) ->
  exists ok s' ts' t',
    PUT now cache leagueId body = (Json 200 ok, <[leagueId := s']> cache)
    /\ teams s' = Some ts'
    /\ ts' !! i = Some t'
    /\ name t' = name t
    /\ isMyTeam t' = isMyTeam t
    /\ ((Qabs (budget t - A) <= MAX_VALUE)%Q ->
        budget t' = Number_subtract (budget t) A
        /\ (Qabs (budget t' - (budget t - A))
            <= Qabs (budget t - A) * pow2 (-53) + pow2 (-1075))%Q)
    /\ (whole (budget t - A) -> (Qabs (budget t - A) <= safe)%Q ->
        (budget t' == budget t - A)%Q)
    /\ forall j, j <> i -> ts' !! j = ts !! j.
Proof.
  intros Hs Hts Ht Hne Hfirst Hn Hb Hd.
  destruct (PUT_accepted now cache leagueId body nm A Hn Hb) as [ok [HP _]].
  rewrite Hs in HP. cbn [default from_option id] in HP.
  eexists ok, _, (alter (subBudget A) i ts), (subBudget A t).
  split; [exact HP | ].
  cbn [written teams]. rewrite Hts, Hd.
  rewrite (deduct_named ts _ _ (name t) A i t Hne Ht eq_refl Hfirst).
  split; [reflexivity | ].
  split; [rewrite list_lookup_alter_eq, Ht; reflexivity | ].
  split; [reflexivity | ]. split; [reflexivity | ].
  cbn [subBudget budget]. split; [ | split].
  - intros _. split; [reflexivity | ]. apply binary64_error.
  - intros Hw Hsafe. apply binary64_whole; assumption.
  - intros j Hj. apply list_lookup_alter_ne. congruence.
Qed.

(** *** The budget of my team *)

Lemma spentBy_snoc (d : jsstring) (l : list SyncedPick) (p : SyncedPick) :
  spentBy d (l ++ [p])
  = if bool_decide (draftedByTeam p = Some d)
    then (spentBy d l + bidAmount p)%Q else spentBy d l.
Proof.
  unfold spentBy. rewrite List.filter_app. cbn [List.filter].
  destruct (bool_decide _).
  - rewrite foldl_app. reflexivity.
  - rewrite app_nil_r. reflexivity.
Qed.

Lemma deduct_truthy (ts : list DraftTeam) (b : Q) (isMy : bool)
    (d : jsstring) (bid : Q) :
  d <> [] -> ts <> [] ->
  deduct (Some ts) b isMy (Some d) bid
  = match findIndex (fun y => strEq (name y) d) ts with
    | Some i =>
        (Some (alter (subBudget bid) i ts),
         match ts !! i with
         | Some t => if isMyTeam t then Number_subtract b bid else b
         | None => b
         end)
    | None => (Some ts, b)
    end.
Proof.
  intros Hd Hts. unfold deduct.
  destruct d as [|c d]; [congruence | ].
  destruct ts as [|t0 ts0]; [congruence | ]. reflexivity.
Qed.

Lemma subBudget_lookup (bid : Q) (i j : nat) (ts : list DraftTeam)
    (y : DraftTeam) :
  alter (subBudget bid) i ts !! j = Some y ->
  exists y0, ts !! j = Some y0 /\ name y = name y0
             /\ isMyTeam y = isMyTeam y0.
Proof.
  destruct (decide (i = j)) as [-> | Hne].
  - rewrite list_lookup_alter_eq. destruct (ts !! j) as [y0|]; [ | discriminate].
    intros [= <-]. exists y0. repeat split.
  - rewrite list_lookup_alter_ne by exact Hne. intros H. exists y.
    repeat split. exact H.
Qed.

Section MyTeam.

(** The position and the name of my team in the configured list. *)
Variable m : nat.
Variable mineName : jsstring.

Lemma myTeamAt_alter (bid : Q) (i : nat) (ts : list DraftTeam) :
  myTeamAt m mineName ts -> myTeamAt m mineName (alter (subBudget bid) i ts).
Proof.
  intros [[t [Ht [Hn Hm]]] [Huniq Hfirst]]. split; [ | split].
  - destruct (decide (i = m)) as [-> | Hne].
    + exists (subBudget bid t). rewrite list_lookup_alter_eq, Ht.
      repeat split; assumption.
    + exists t. rewrite list_lookup_alter_ne by exact Hne.
      repeat split; assumption.
  - intros j y Hy Hmy. apply subBudget_lookup in Hy.
    destruct Hy as [y0 [Hy0 [_ Hf]]]. apply (Huniq j y0 Hy0). congruence.
  - intros j y Hj Hy. apply subBudget_lookup in Hy.
    destruct Hy as [y0 [Hy0 [Hnm _]]]. rewrite Hnm. exact (Hfirst j y0 Hj Hy0).
Qed.

(** The first team named [d] is my team exactly when [d] is my team's name. *)
Lemma first_named_is_mine (ts : list DraftTeam) (d : jsstring) (f : nat) :
  myTeamAt m mineName ts ->
  findIndex (fun y => strEq (name y) d) ts = Some f ->
  (f = m <-> d = mineName).
Proof.
  intros [[t [Ht [Hn Hm]]] [Huniq Hfirst]] Hf.
  apply findIndex_Some in Hf. destruct Hf as [x [Hx [Hfx Hmin]]].
  apply strEq_true in Hfx. split.
  - intros ->. congruence.
  - intros ->. destruct (lt_eq_lt_dec f m) as [[Hlt | Heq] | Hgt].
    + exfalso. exact (Hfirst f x Hlt Hx Hfx).
    + exact Heq.
    + exfalso. specialize (Hmin m t Hgt Ht). apply strEq_false in Hmin.
      contradiction.
Qed.

Lemma PUT_tracksMyTeam (now : jsstring) (cache : Cache) (leagueId : jsstring)
    (body : PutBody) (s : CacheData) (d : jsstring) :
  cache !! leagueId = Some s -> tracksMyTeam m mineName s ->
  put_draftedByTeam body = Some d -> d <> [] ->
  exists s', snd (PUT now cache leagueId body) !! leagueId = Some s'
             /\ tracksMyTeam m mineName s'.
Proof.
  intros Hs Htr Hd Hne. destruct (accepted body) eqn:E.
  2:{ rewrite (PUT_rejected _ _ _ _ E). exists s. split; assumption. }
  destruct (proj1 (accepted_true body) E) as [nm [bid [Hn Hb]]].
  destruct (PUT_accepted now cache leagueId body nm bid Hn Hb) as [ok [-> _]].
  cbn [snd]. rewrite lookup_insert_eq. eexists. split; [reflexivity | ].
  unfold loadFromCache. rewrite Hs. cbn [default from_option id].
  destruct Htr as [ts [t [b [Hts [Hat [Ht [Hb0 Hbt]]]]]]].
  unfold tracksMyTeam, written. cbn [teams myTeamBudget picks].
  rewrite Hts, Hb0, Hd. cbn [default from_option id].
  assert (ts <> []) as Hnil by (intros ->; discriminate).
  rewrite (deduct_truthy ts b _ d bid Hne Hnil).
  destruct (findIndex (fun y => strEq (name y) d) ts) as [f|] eqn:Ef.
  - pose proof (first_named_is_mine ts d f Hat Ef) as Hiff.
    pose proof Ef as Ef'. apply findIndex_Some in Ef'.
    destruct Ef' as [x [Hx [Hfx _]]]. rewrite Hx. cbn [fst snd].
    destruct Hat as [Hex [Huniq Hfirst]].
    destruct (decide (f = m)) as [-> | Hfm].
    + assert (x = t) as -> by congruence.
      assert (isMyTeam t = true) as ->
        by (destruct Hex as [t' [Ht' [_ Hmy]]]; congruence).
      exists (alter (subBudget bid) m ts), (subBudget bid t),
             (Number_subtract b bid).
      split; [reflexivity | ].
      split; [apply myTeamAt_alter; repeat split; assumption | ].
      split; [rewrite list_lookup_alter_eq, Ht; reflexivity | ].
      split; [reflexivity | ]. cbn [subBudget budget].
      unfold Number_subtract.
      rewrite (binary64_comp (b - bid) (budget t - bid))
        by (rewrite Hbt; reflexivity).
      reflexivity.
    + assert (isMyTeam x = false) as ->.
      { destruct (isMyTeam x) eqn:Ex; [ | reflexivity].
        exfalso. apply Hfm. exact (Huniq f x Hx Ex). }
      exists (alter (subBudget bid) f ts), t, b.
      split; [reflexivity | ].
      split; [apply myTeamAt_alter; repeat split; assumption | ].
      split; [rewrite list_lookup_alter_ne by exact Hfm; exact Ht | ].
      split; [reflexivity | assumption].
  - cbn [fst snd]. exists ts, t, b. repeat split; try assumption; apply Hat.
Qed.

Lemma puts_tracksMyTeam (leagueId : jsstring)
    (calls : list (jsstring * PutBody)) (cache : Cache) (s : CacheData) :
  cache !! leagueId = Some s -> tracksMyTeam m mineName s ->
  (forall c, In c calls ->
     exists d, put_draftedByTeam (snd c) = Some d /\ d <> []) ->
  exists s', serveAll cache (putsTo leagueId calls) !! leagueId = Some s'
             /\ tracksMyTeam m mineName s'.
Proof.
  revert cache s. induction calls as [|[now body] calls IH];
    intros cache s Hs Htr Hd.
  - exists s. split; assumption.
  - destruct (Hd (now, body) (or_introl eq_refl)) as [d [Hbd Hne]].
    destruct (PUT_tracksMyTeam now cache leagueId body s d Hs Htr Hbd Hne)
      as [s1 [Hs1 Htr1]].
    cbn [putsTo map serveAll foldl serve fst snd].
    apply (IH _ s1 Hs1 Htr1). intros c Hc. apply Hd. right. exact Hc.
Qed.

End MyTeam.

(** *** Whole-dollar bids *)

Lemma magnitude_nonneg (l : list SyncedPick) : (0 <= magnitude l)%Q.
Proof.
  induction l as [|p l IH]; [discriminate | ].
  change (magnitude (p :: l)) with (Qabs (bidAmount p) + magnitude l)%Q.
  pose proof (Qabs_nonneg (bidAmount p)). lra.
Qed.

Lemma magnitude_snoc (l : list SyncedPick) (p : SyncedPick) :
  (magnitude (l ++ [p]) == magnitude l + Qabs (bidAmount p))%Q.
Proof.
  induction l as [|q l IH].
  - change (magnitude ([] ++ [p])) with (Qabs (bidAmount p) + 0)%Q.
    change (magnitude []) with 0%Q. lra.
  - change (magnitude ((q :: l) ++ [p]))
      with (Qabs (bidAmount q) + magnitude (l ++ [p]))%Q.
    change (magnitude (q :: l)) with (Qabs (bidAmount q) + magnitude l)%Q.
    lra.
Qed.

Lemma volume_nonneg (calls : list (jsstring * PutBody)) : (0 <= volume calls)%Q.
Proof.
  induction calls as [|c l IH]; [discriminate | ].
  change (volume (c :: l)) with (Qabs (bidOf (snd c)) + volume l)%Q.
  pose proof (Qabs_nonneg (bidOf (snd c))). lra.
Qed.

Lemma Qabs_plus_le (a b ca cb : Q) :
  (Qabs a <= ca)%Q -> (Qabs b <= cb)%Q -> (Qabs (a + b) <= ca + cb)%Q.
Proof.
  intros Ha Hb. pose proof (Qabs_triangle a b). lra.
Qed.

Lemma Qabs_minus_le (a b ca cb : Q) :
  (Qabs a <= ca)%Q -> (Qabs b <= cb)%Q -> (Qabs (a - b) <= ca + cb)%Q.
Proof.
  intros Ha Hb. unfold Qminus. apply Qabs_plus_le; [exact Ha | ].
  rewrite Qabs_opp. exact Hb.
Qed.

(** The exact sum of whole bids is whole, and bounded by their magnitude. *)
Lemma foldl_whole (f : SyncedPick -> bool) (l : list SyncedPick) (a : Q) :
  wholePicks l -> whole a ->
  whole (foldl (fun sum p => (sum + bidAmount p)%Q) a (List.filter f l))
  /\ (Qabs (foldl (fun sum p => (sum + bidAmount p)%Q) a (List.filter f l))
      <= Qabs a + magnitude l)%Q.
Proof.
  intros Hl. revert a. induction Hl as [|p l Hp Hl IH]; intros a Ha.
  - cbn [List.filter foldl]. change (magnitude []) with 0%Q.
    split; [exact Ha | lra].
  - cbn [List.filter]. destruct (f p).
    + cbn [foldl]. destruct (IH (a + bidAmount p)%Q (whole_plus _ _ Ha Hp))
        as [Hw Hb].
      split; [exact Hw | ]. eapply Qle_trans; [exact Hb | ].
      pose proof (Qabs_triangle a (bidAmount p)).
      change (magnitude (p :: l))
        with (Qabs (bidAmount p) + magnitude l)%Q. lra.
    + destruct (IH a Ha) as [Hw Hb]. split; [exact Hw | ].
      eapply Qle_trans; [exact Hb | ].
      pose proof (Qabs_nonneg (bidAmount p)).
      change (magnitude (p :: l))
        with (Qabs (bidAmount p) + magnitude l)%Q. lra.
Qed.

Lemma spentBy_whole (d : jsstring) (l : list SyncedPick) :
  wholePicks l ->
  whole (spentBy d l) /\ (Qabs (spentBy d l) <= magnitude l)%Q.
Proof.
  intros Hl. unfold spentBy.
  destruct (foldl_whole (fun p => bool_decide (draftedByTeam p = Some d))
              l 0%Q Hl) as [Hw Hb]; [exists 0; reflexivity | ].
  split; [exact Hw | ]. change (Qabs 0) with 0%Q in Hb. lra.
Qed.

Lemma deduct_no_teams (b : Q) (isMy : bool) (d : option jsstring) (bid : Q) :
  deduct (Some []) b isMy d bid
  = (Some [], if isMy then Number_subtract b bid else b).
Proof. unfold deduct. destruct (truthyStr d); reflexivity. Qed.

Lemma teamShape_alter (bid : Q) (i : nat) (ts : list DraftTeam) :
  teamShape (alter (subBudget bid) i ts) = teamShape ts.
Proof.
  revert i. induction ts as [|t ts IH]; intros [|i]; cbn; try reflexivity.
  f_equal. apply IH.
Qed.

Lemma firstNamed_shape (d : jsstring) (ts ts' : list DraftTeam) :
  teamShape ts = teamShape ts' -> firstNamed d ts = firstNamed d ts'.
Proof.
  revert ts'. induction ts as [|t ts IH]; intros [|t' ts'] H;
    try discriminate; [reflexivity | ].
  cbn in H. injection H as Hn _ Hrest. unfold firstNamed in *.
  cbn [findIndex]. rewrite Hn, (IH ts' Hrest). reflexivity.
Qed.

Lemma deduct_teams (ts : list DraftTeam) (b : Q) (isMy : bool)
    (d : jsstring) (bid : Q) :
  d <> [] ->
  fst (deduct (Some ts) b isMy (Some d) bid)
  = Some (match firstNamed d ts with
          | Some f => alter (subBudget bid) f ts
          | None => ts
          end).
Proof.
  intros Hd. destruct ts as [|t0 ts0].
  - rewrite deduct_no_teams. reflexivity.
  - rewrite deduct_truthy by (try exact Hd; discriminate).
    unfold firstNamed. destruct (findIndex _ _); reflexivity.
Qed.

(** One whole bid, within the safe integers: the team charged, if it is
    team [i], has its budget reduced by exactly the bid. *)
Lemma PUT_charged (i : nat) (B : Q) (now : jsstring) (cache : Cache)
    (leagueId : jsstring) (body : PutBody) (s : CacheData) (d : jsstring) :
  cache !! leagueId = Some s -> charged i B s ->
  wholePicks (picks s) -> whole B ->
  put_draftedByTeam body = Some d -> d <> [] ->
  whole (bidOf body) ->
  (Qabs B + magnitude (picks s) + Qabs (bidOf body) <= safe)%Q ->
  exists s', snd (PUT now cache leagueId body) !! leagueId = Some s'
             /\ charged i B s' /\ wholePicks (picks s')
             /\ (magnitude (picks s')
                 <= magnitude (picks s) + Qabs (bidOf body))%Q.
Proof.
  intros Hs Hch Hwp HwB Hd Hne Hwb Hbound. destruct (accepted body) eqn:E.
  2:{ rewrite (PUT_rejected _ _ _ _ E). exists s.
      split; [exact Hs | ]. split; [exact Hch | ]. split; [exact Hwp | ].
      pose proof (Qabs_nonneg (bidOf body)). lra. }
  destruct (proj1 (accepted_true body) E) as [nm [bid [Hn Hb]]].
  assert (bidOf body = bid) as Hbid by (unfold bidOf; rewrite Hb; reflexivity).
  rewrite Hbid in Hwb, Hbound |- *.
  destruct (PUT_accepted now cache leagueId body nm bid Hn Hb) as [ok [-> _]].
  cbn [snd]. rewrite lookup_insert_eq. eexists. split; [reflexivity | ].
  unfold loadFromCache. rewrite Hs. cbn [default from_option id].
  destruct Hch as [ts [t [Hts [Ht [Hfirst Hbud]]]]].
  unfold written. cbn [picks]. split; [ | split].
  - unfold charged. cbn [teams picks].
    rewrite Hts, Hd, (deduct_teams ts _ _ d bid Hne).
    assert (draftedByTeam
              (newPick s nm bid (default false (put_isMyPick body)) (Some d))
            = Some d) as Hdrafted
      by (destruct d; [congruence | reflexivity]).
    set (ts' := match firstNamed d ts with
                | Some f => alter (subBudget bid) f ts
                | None => ts
                end).
    assert (teamShape ts' = teamShape ts) as Hshape'
      by (unfold ts'; destruct (firstNamed d ts);
          [apply teamShape_alter | reflexivity]).
    destruct (spentBy_whole (name t) (picks s) Hwp) as [Hsw Hsb].
    destruct (decide (d = name t)) as [-> | Hdn].
    + exists ts', (subBudget bid t). split; [reflexivity | ].
      split; [unfold ts'; rewrite Hfirst, list_lookup_alter_eq, Ht;
              reflexivity | ].
      split; [rewrite (firstNamed_shape _ _ _ Hshape'); exact Hfirst | ].
      cbn [subBudget name budget].
      rewrite spentBy_snoc, Hdrafted, bool_decide_eq_true_2 by reflexivity.
      cbn [newPick bidAmount]. unfold Number_subtract.
      assert (budget t - bid == B - spentBy (name t) (picks s) - bid)%Q as Heq
        by (rewrite Hbud; reflexivity).
      rewrite (binary64_comp _ _ Heq).
      rewrite binary64_whole; [lra | | ].
      * apply whole_minus; [apply whole_minus | ]; assumption.
      * eapply Qle_trans; [ | exact Hbound].
        apply Qabs_minus_le; [ | apply Qle_refl].
        apply Qabs_minus_le; [apply Qle_refl | exact Hsb].
    + exists ts', t. split; [reflexivity | ].
      assert (ts' !! i = Some t) as Ht'.
      { unfold ts'. destruct (firstNamed d ts) as [f|] eqn:Ef; [ | exact Ht].
        rewrite list_lookup_alter_ne; [exact Ht | ].
        intros ->. apply findIndex_Some in Ef.
        destruct Ef as [x [Hx [Hfx _]]]. apply strEq_true in Hfx.
        congruence. }
      split; [exact Ht' | ].
      split; [rewrite (firstNamed_shape _ _ _ Hshape'); exact Hfirst | ].
      rewrite spentBy_snoc, Hdrafted, bool_decide_eq_false_2 by congruence.
      exact Hbud.
  - apply Forall_app. split; [exact Hwp | ].
    constructor; [exact Hwb | constructor].
  - rewrite magnitude_snoc. cbn [newPick bidAmount]. lra.
Qed.

Lemma puts_charged (i : nat) (B : Q) (leagueId : jsstring)
    (calls : list (jsstring * PutBody)) (cache : Cache) (s : CacheData) :
  cache !! leagueId = Some s -> charged i B s ->
  wholePicks (picks s) -> whole B ->
  (forall c, In c calls ->
     exists d, put_draftedByTeam (snd c) = Some d /\ d <> []) ->
  wholeBids calls ->
  (Qabs B + magnitude (picks s) + volume calls <= safe)%Q ->
  exists s', serveAll cache (putsTo leagueId calls) !! leagueId = Some s'
             /\ charged i B s' /\ wholePicks (picks s')
             /\ (magnitude (picks s') <= magnitude (picks s) + volume calls)%Q.
Proof.
  revert cache s. induction calls as [|[now body] calls IH];
    intros cache s Hs Hch Hwp HwB Hd Hwc Hbound.
  - exists s. split; [exact Hs | ]. split; [exact Hch | ].
    split; [exact Hwp | ]. change (volume []) with 0%Q. lra.
  - destruct (Hd (now, body) (or_introl eq_refl)) as [d [Hbd Hne]].
    apply Forall_cons in Hwc. destruct Hwc as [Hwb Hwc].
    cbn [snd] in Hwb.
    change (volume ((now, body) :: calls))
      with (Qabs (bidOf body) + volume calls)%Q in Hbound |- *.
    pose proof (volume_nonneg calls) as Hv.
    destruct (PUT_charged i B now cache leagueId body s d
                Hs Hch Hwp HwB Hbd Hne Hwb) as [s1 [Hs1 [Hch1 [Hwp1 Hm1]]]];
      [lra | ].
    cbn [putsTo map serveAll foldl serve fst snd].
    destruct (IH _ s1 Hs1 Hch1 Hwp1 HwB) as [s' [Hs' [Hch' [Hwp' Hm']]]];
      [intros c Hc; apply Hd; right; exact Hc | exact Hwc | lra | ].
    exists s'. split; [exact Hs' | ]. split; [exact Hch' | ].
    split; [exact Hwp' | lra].
Qed.

(** After [POST], team [i] has been charged nothing. *)
Lemma POST_charged (i : nat) (ts : list TeamInput) (t0 : TeamInput)
    (s : CacheData) :
  ts !! i = Some t0 ->
  (forall j t, (j < i)%nat -> ts !! j = Some t -> in_name t <> in_name t0) ->
  teams s = Some (map initTeam ts) -> picks s = [] ->
  charged i (budgetOrDefault (in_budget t0)) s.
Proof.
  intros Hi Hfirst Hts Hps. exists (map initTeam ts), (initTeam t0).
  split; [exact Hts | ].
  assert (map initTeam ts !! i = Some (initTeam t0)) as Hi'.
  { change (map initTeam ts) with (initTeam <$> ts).
    rewrite list_lookup_fmap, Hi. reflexivity. }
  split; [exact Hi' | ]. split.
  - apply findIndex_Some. exists (initTeam t0). split; [exact Hi' | ].
    split; [apply strEq_true; reflexivity | ].
    intros j y Hj Hy. apply strEq_false.
    change (map initTeam ts) with (initTeam <$> ts) in Hy.
    rewrite list_lookup_fmap in Hy.
    destruct (ts !! j) as [y0|] eqn:Hy0; [ | discriminate].
    injection Hy as <-. cbn. exact (Hfirst j y0 Hj Hy0).
  - rewrite Hps. unfold spentBy. cbn. lra.
Qed.

(** C10 (amended): initialize a team list in which exactly one team, at
    position [m], is flagged [isMyTeam], its budget is 200, and no earlier
    team bears its name; then serve any [PUT] requests whose [draftedByTeam]
    is each a non-empty string (so, in particular, each the non-empty name of
    a configured team).  In the resulting session [myTeamBudget] equals the
    budget of team [m]; and when the bids are whole numbers that stay, added
    to 200, within [Number.MAX_SAFE_INTEGER], both are 200 less the sum of
    the [bidAmount]s of the stored picks whose [draftedByTeam] is that
    team's name. *)
Theorem myTeamBudget_tracks_my_team (now0 : jsstring) (cache : Cache)
    (leagueId : jsstring) (ts : list TeamInput) (m : nat) (mine : TeamInput)
    (calls : list (jsstring * PutBody)) :
  ts !! m = Some mine ->
  (forall j t, ts !! j = Some t ->
     (default false (in_isMyTeam t) = true <-> j = m)) ->
  (budgetOrDefault (in_budget mine) == 200)%Q ->
  (forall j t, (j < m)%nat -> ts !! j = Some t ->
     in_name t <> in_name mine) ->
  (forall c, In c calls ->
     exists d, put_draftedByTeam (snd c) = Some d /\ d <> []) ->
  let cache' :=
    serveAll (snd (POST now0 cache leagueId {| post_teams := Some ts |}))
             (putsTo leagueId calls) in
  exists s teams' t b,
    cache' !! leagueId = Some s
    /\ teams s = Some teams'
    /\ teams' !! m = Some t
    /\ name t = in_name mine
    /\ isMyTeam t = true
    /\ myTeamBudget s = Some b
    /\ (b == budget t)%Q
    /\ (wholeBids calls -> (200 + volume calls <= safe)%Q ->
        (b == 200 - spentBy (in_name mine) (picks s))%Q).
Proof.
  intros Hm Huniq Hbudget Hfirst Hcalls. cbn zeta.
  unfold POST. cbn [post_teams snd]. unfold saveToCache.
  set (s0 := {| picks := []; teams := Some (map initTeam ts);
                syncedAt := now0; totalPicks := 130; isComplete := false;
                myTeamBudget := Some 200%Q |}).
  assert (forall j y, map initTeam ts !! j = Some y ->
            exists y0, ts !! j = Some y0 /\ y = initTeam y0) as Hlook.
  { intros j y. change (map initTeam ts) with (initTeam <$> ts).
    rewrite list_lookup_fmap. destruct (ts !! j) as [y0|]; [ | discriminate].
    intros [= <-]. eauto. }
  assert (map initTeam ts !! m = Some (initTeam mine)) as Hm'.
  { change (map initTeam ts) with (initTeam <$> ts).
    rewrite list_lookup_fmap, Hm. reflexivity. }
  assert (tracksMyTeam m (in_name mine) s0) as Htr.
  { exists (map initTeam ts), (initTeam mine), 200%Q.
    split; [reflexivity | ]. split.
    - split; [ | split].
      + exists (initTeam mine). split; [exact Hm' | ].
        split; [reflexivity | ]. cbn. apply (Huniq m mine Hm). reflexivity.
      + intros j y Hy Hmy. destruct (Hlook j y Hy) as [y0 [Hy0 ->]].
        apply (Huniq j y0 Hy0). exact Hmy.
      + intros j y Hj Hy. destruct (Hlook j y Hy) as [y0 [Hy0 ->]].
        cbn. exact (Hfirst j y0 Hj Hy0).
    - split; [exact Hm' | ]. split; [reflexivity | ].
      cbn [initTeam budget]. symmetry. exact Hbudget. }
  destruct (puts_tracksMyTeam m (in_name mine) leagueId calls
              (<[leagueId := s0]> cache) s0 (lookup_insert_eq _ _ _) Htr Hcalls)
    as [s [Hs [teams' [t [b [Hts [Hat [Ht [Hb Hbt]]]]]]]]].
  exists s, teams', t, b.
  destruct Hat as [[t' [Ht' [Hn' Hmy']]] _].
  assert (t' = t) as -> by congruence.
  do 7 (split; [assumption | ]).
  intros Hwhole Hvol.
  destruct (puts_charged m (budgetOrDefault (in_budget mine)) leagueId calls
              (<[leagueId := s0]> cache) s0 (lookup_insert_eq _ _ _)
              (POST_charged m ts mine s0 Hm Hfirst eq_refl eq_refl))
    as [s' [Hs' [[ts2 [t2 [Hts2 [Ht2 [_ Hbud]]]]] _]]].
  - constructor.
  - exists 200. exact Hbudget.
  - exact Hcalls.
  - exact Hwhole.
  - rewrite Hbudget. change (magnitude (picks s0)) with 0%Q.
    change (Qabs 200) with 200%Q. lra.
  - assert (s' = s) as -> by congruence.
    assert (ts2 = teams') as -> by congruence.
    assert (t2 = t) as -> by congruence.
    rewrite Hbt, Hbud, Hn', Hbudget. reflexivity.
Qed.

End DraftSyncFacts.

(** *** Concrete runs of the route *)

Section DraftRuns.
Import JS DraftSync.

(** The end-to-end scenario: two teams of budget 200, then "Player1" for 50
    to "A" and "Player2" for 30 to "B". *)
Example two_teams_two_picks :
  let cache :=
    serveAll (initialized teamsAB)
      (putsTo league [(t0, pickFor "Player1" 50 true (lit "A"));
                      (t0, pickFor "Player2" 30 false (lit "B"))]) in
  budgetsOf cache = Some [150%Q; 170%Q]
  /\ map pickNumber (picksOf cache league) = [1; 2]
  /\ (myTeamBudget <$> loadFromCache cache league) = Some (Some 150%Q).
Proof. vm_compute. repeat split. Qed.

(** C1, as stated, fails: a negative bid for a configured team, and a bid
    for a team that is not configured, are both accepted and stored. *)
Lemma addPick_accepts_negative_bid_and_unknown_team :
  let cache := initialized [teamIn (lit "A") 200 true] in
  let negative := PUT t0 cache league (pickFor "X" (-5) true (lit "A")) in
  let unknown := PUT t0 cache league (pickFor "X" 5 false (lit "Z")) in
  picksOf cache league = []
  /\ ((-5 < 0)%Q
      /\ (exists ok, fst negative = Json 200 ok)
      /\ map bidAmount (picksOf (snd negative) league) = [(-5)%Q]
      /\ budgetsOf (snd negative) = Some [205%Q])
  /\ (lit "Z" <> lit "A"
      /\ (exists ok, fst unknown = Json 200 ok)
      /\ map draftedByTeam (picksOf (snd unknown) league) = [Some (lit "Z")]
      /\ budgetsOf (snd unknown) = Some [200%Q]).
Proof.
  vm_compute. split; [reflexivity | ]. split.
  - split; [reflexivity | ]. split; [eexists; reflexivity | ].
    split; reflexivity.
  - split; [discriminate | ]. split; [eexists; reflexivity | ].
    split; reflexivity.
Qed.

Lemma addPick_rejects_only_missing_fields_witness :
  let body := pickFor "X" (-5) true (lit "Z") in
  let cache := initialized [teamIn (lit "A") 200 true] in
  exists ok s',
    PUT t0 cache league body = (Json 200 ok, <[league := s']> cache)
    /\ length (picks s') = 1%nat
    /\ put_bidAmount body = Some (bidAmount (put_pick ok)).
Proof.
  cbn zeta.
  destruct (proj2 (addPick_rejects_only_missing_fields t0
                     (initialized [teamIn (lit "A") 200 true]) league
                     (pickFor "X" (-5) true (lit "Z"))))
    as [ok [s' [HP [Hpicks [Hbid _]]]]].
  - intros [H | [H | H]]; discriminate H.
  - exists ok, s'. split; [exact HP | ]. split; [ | exact Hbid].
    rewrite Hpicks. reflexivity.
Defined.

(** C4, as stated, fails: with two teams configured, the third pick is
    reported in round 1, not in round [floor((3 - 1) / 2) + 1 = 2]. *)
Lemma round_ignores_team_count :
  let cache :=
    serveAll (initialized teamsAB)
      (putsTo league [(t0, pickFor "P1" 50 true (lit "A"));
                      (t0, pickFor "P2" 30 false (lit "B"));
                      (t0, pickFor "P3" 10 true (lit "A"))]) in
  exists d,
    GET cache league = Json 200 d
    /\ length (d_teams d) = 2%nat
    /\ map (fun v => (v_pickNumber v, v_round v)) (d_picks d)
       = [(1, 1); (2, 1); (3, 1)]
    /\ (3 - 1) / 2 + 1 = 2.
Proof. vm_compute. eexists. repeat split. Qed.

(** C9, as stated, fails: of two teams named "S" only the first is charged,
    the second keeps its budget of 100; and a team whose name is the empty
    string is never charged, [draftedByTeam] being falsy. *)
Lemma addPick_charges_first_nonempty_name_only :
  (let cache :=
     initialized [teamIn (lit "S") 200 false; teamIn (lit "S") 100 false] in
   let r := PUT t0 cache league (pickFor "X" 35 false (lit "S")) in
   teamsOf cache = Some [(lit "S", 200%Q); (lit "S", 100%Q)]
   /\ (exists ok, fst r = Json 200 ok)
   /\ teamsOf (snd r) = Some [(lit "S", 165%Q); (lit "S", 100%Q)]
   /\ ~ (100 == 100 - 35)%Q)
  /\ (let cache := initialized [teamIn [] 200 false] in
      let r := PUT t0 cache league (pickFor "X" 35 false []) in
      teamsOf cache = Some [([], 200%Q)]
      /\ (exists ok, fst r = Json 200 ok)
      /\ teamsOf (snd r) = Some [([], 200%Q)]
      /\ ~ (200 == 200 - 35)%Q).
Proof.
  vm_compute. split.
  - split; [reflexivity | ]. split; [eexists; reflexivity | ].
    split; [reflexivity | discriminate].
  - split; [reflexivity | ]. split; [eexists; reflexivity | ].
    split; [reflexivity | discriminate].
Qed.

(** The budget example: a team of budget 200, a pick of 35, budget 165. *)
Lemma addPick_deducts_bid_witness :
  let cache := initialized [teamIn (lit "A") 200 true] in
  exists ok s' ts' t',
    PUT t0 cache league (pickFor "X" 35 true (lit "A"))
    = (Json 200 ok, <[league := s']> cache)
    /\ teams s' = Some ts'
    /\ ts' !! 0%nat = Some t'
    /\ name t' = lit "A"
    /\ budget t' = Number_subtract 200 35
    /\ (budget t' == 165)%Q.
Proof.
  cbn zeta.
  destruct (addPick_deducts_bid t0 (initialized [teamIn (lit "A") 200 true])
              league (pickFor "X" 35 true (lit "A"))
              {| picks := [];
                 teams := Some [{| name := lit "A"; budget := 200;
                                   isMyTeam := true |}];
                 syncedAt := t0; totalPicks := 130; isComplete := false;
                 myTeamBudget := Some 200%Q |}
              [{| name := lit "A"; budget := 200; isMyTeam := true |}]
              0%nat {| name := lit "A"; budget := 200; isMyTeam := true |}
              (lit "X") 35%Q)
    as [ok [s' [ts' [t' [HP [Hts [Hi [Hn [_ [Hval [Hexact _]]]]]]]]]]].
  - vm_compute. reflexivity.
  - reflexivity.
  - reflexivity.
  - discriminate.
  - intros j y Hj. inversion Hj.
  - reflexivity.
  - reflexivity.
  - reflexivity.
  - exists ok, s', ts', t'. split; [exact HP | ]. split; [exact Hts | ].
    split; [exact Hi | ]. split; [exact Hn | ]. split.
    + apply Hval. apply Qle_bool_iff. vm_compute. reflexivity.
    + rewrite Hexact; [reflexivity | exists 165; reflexivity | ].
      apply Qle_bool_iff. vm_compute. reflexivity.
Defined.

(** A fractional bid: from a budget of 199.8 a bid of 0.1 leaves the double
    199.70000000000002, which is not the double 199.7. *)
Example fractional_bid_is_rounded :
  let cache := initialized [teamIn (lit "A") (parsed (1998 # 10)) true] in
  let r := PUT t0 cache league (pickFor "X" (parsed (1 # 10)) true (lit "A")) in
  budgetsOf cache = Some [parsed (1998 # 10)]
  /\ budgetsOf (snd r) = Some [(7026319106139751 # 35184372088832)%Q]
  /\ ~ (7026319106139751 # 35184372088832 == parsed (1997 # 10))%Q.
Proof. vm_compute. split; [reflexivity | ]. split; [reflexivity | discriminate]. Qed.

(** Fractional bids do not add up: after three bids of 0.1 my team, and
    [myTeamBudget], are at 199.70000000000002; that is neither 200 less the
    sum of the three bids nor the double 199.7. *)
Example fractional_bids_do_not_add_up :
  let bid := parsed (1 # 10) in
  let cache :=
    serveAll (initialized [teamIn (lit "A") 200 true])
      (putsTo league [(t0, pickFor "P1" bid true (lit "A"));
                      (t0, pickFor "P2" bid true (lit "A"));
                      (t0, pickFor "P3" bid true (lit "A"))]) in
  budgetsOf cache = Some [(7026319106139751 # 35184372088832)%Q]
  /\ myBudgetOf cache = Some (7026319106139751 # 35184372088832)%Q
  /\ ~ (7026319106139751 # 35184372088832
        == 200 - spentBy (lit "A") (picksOf cache league))%Q
  /\ ~ (7026319106139751 # 35184372088832 == parsed (1997 # 10))%Q.
Proof.
  vm_compute. split; [reflexivity | ]. split; [reflexivity | ].
  split; discriminate.
Qed.

(** C10, as stated, fails: when [draftedByTeam] is the empty name of my
    team, [myTeamBudget] is charged and the team is not; and when my team is
    the second of two teams named "S", neither is charged for a pick drafted
    by "S". *)
Lemma myTeamBudget_diverges :
  (let cache :=
     serveAll (initialized [teamIn [] 200 true])
              (putsTo league [(t0, pickFor "X" 10 true [])]) in
   teamsOf cache = Some [([], 200%Q)]
   /\ myBudgetOf cache = Some 190%Q
   /\ ~ (190 == 200)%Q)
  /\ (let cache :=
        serveAll
          (initialized [teamIn (lit "S") 200 false; teamIn (lit "S") 200 true])
          (putsTo league [(t0, pickFor "X" 10 true (lit "S"))]) in
      teamsOf cache = Some [(lit "S", 190%Q); (lit "S", 200%Q)]
      /\ myBudgetOf cache = Some 200%Q
      /\ spentBy (lit "S") (picksOf cache league) = 10%Q
      /\ ~ (200 == 200 - 10)%Q).
Proof.
  vm_compute. split.
  - split; [reflexivity | ]. split; [reflexivity | discriminate].
  - split; [reflexivity | ]. split; [reflexivity | ].
    split; [reflexivity | discriminate].
Qed.

Lemma myTeamBudget_tracks_my_team_witness :
  let calls := [(t0, pickFor "Player1" 50 true (lit "A"));
                (t0, pickFor "Player2" 30 false (lit "B"))] in
  exists s t b,
    serveAll (initialized teamsAB) (putsTo league calls) !! league = Some s
    /\ (teams s ≫= (fun ts => ts !! 0%nat)) = Some t
    /\ myTeamBudget s = Some b
    /\ (b == budget t)%Q
    /\ (b == 200 - spentBy (lit "A") (picks s))%Q.
Proof.
  cbn zeta.
  destruct (myTeamBudget_tracks_my_team t0 ∅ league teamsAB 0%nat
              (teamIn (lit "A") 200 true)
              [(t0, pickFor "Player1" 50 true (lit "A"));
               (t0, pickFor "Player2" 30 false (lit "B"))])
    as [s [teams' [t [b [Hs [Hts [Ht [_ [_ [Hb [Hbt Hsp]]]]]]]]]]].
  - reflexivity.
  - intros [|[|j]] t Ht; cbn in Ht; try discriminate;
      injection Ht as <-; cbn; split; intros H; try discriminate; reflexivity.
  - reflexivity.
  - intros j t Hj. inversion Hj.
  - intros c [<- | [<- | []]]; cbn; eexists; split;
      try reflexivity; discriminate.
  - exists s, t, b. split; [exact Hs | ].
    split; [rewrite Hts; exact Ht | ]. split; [exact Hb | ].
    split; [exact Hbt | ]. apply Hsp.
    + repeat constructor; [exists 50 | exists 30]; reflexivity.
    + apply Qle_bool_iff. vm_compute. reflexivity.
Defined.

Lemma pickNumbers_sequential_witness :
  let calls := [(t0, pickFor "P1" 50 true (lit "A"));
                (t0, pickFor "P2" 30 false (lit "B"));
                (t0, pickFor "P3" 10 true (lit "A"))] in
  forallb (fun c => accepted (snd c)) calls = true
  /\ map pickNumber
       (picksOf (serveAll (delete league (initialized teamsAB))
                          (putsTo league calls)) league)
     = [1; 2; 3].
Proof.
  cbn zeta. split; [reflexivity | ].
  apply (proj1 (proj2 (proj2
           (pickNumbers_sequential league (initialized teamsAB)
              [(t0, pickFor "P1" 50 true (lit "A"));
               (t0, pickFor "P2" 30 false (lit "B"));
               (t0, pickFor "P3" 10 true (lit "A"))])))).
  reflexivity.
Defined.

End DraftRuns.

(** ** The route: resets, isolation, round trips *)

Section RouteFacts.
Import JS DraftSync.

(** X1: [DELETE] always succeeds and leaves the league without session, so
    that [GET] then answers the default state (no picks, no teams, current
    pick 1, [synced = false]); deleting again changes nothing. *)
Theorem reset_then_getState (cache : Cache) (leagueId : jsstring) :
  let cache' := snd (DELETE cache leagueId) in
  (exists ok, fst (DELETE cache leagueId) = Json 200 ok
              /\ del_success ok = true)
  /\ loadFromCache cache' leagueId = None
  /\ GET cache' leagueId = Json 200 defaultDraftData
  /\ snd (DELETE cache' leagueId) = cache'.
Proof.
  cbn zeta. unfold DELETE, GET, loadFromCache. cbn [fst snd].
  rewrite lookup_delete_eq.
  split; [eexists; split; reflexivity | ].
  split; [reflexivity | ]. split; [reflexivity | ].
  apply delete_id, lookup_delete_eq.
Qed.

Lemma serve_other_league (cache : Cache) (r : Request) (leagueId : jsstring) :
  leagueOf r <> leagueId -> serve cache r !! leagueId = cache !! leagueId.
Proof.
  intros Hne. destruct r as [lid now body | lid now body | lid | lid];
    cbn [leagueOf serve] in *.
  - unfold POST. destruct (post_teams body); [ | reflexivity].
    cbn [snd]. apply lookup_insert_ne, Hne.
  - destruct (accepted body) eqn:E.
    + destruct (proj1 (accepted_true body) E) as [nm [bid [Hn Hb]]].
      destruct (PUT_accepted now cache lid body nm bid Hn Hb) as [ok [-> _]].
      cbn [snd]. apply lookup_insert_ne, Hne.
    + rewrite (PUT_rejected _ _ _ _ E). reflexivity.
  - reflexivity.
  - cbn. apply lookup_delete_ne, Hne.
Qed.

(** X2: requests addressed to other leagues never change what is stored
    for a league, nor what [GET] answers for it. *)
Theorem other_leagues_untouched (cache : Cache) (rs : list Request)
    (leagueId : jsstring) :
  Forall (fun r => leagueOf r <> leagueId) rs ->
  serveAll cache rs !! leagueId = cache !! leagueId
  /\ GET (serveAll cache rs) leagueId = GET cache leagueId.
Proof.
  intros Hrs.
  assert (serveAll cache rs !! leagueId = cache !! leagueId) as H.
  { revert cache. induction Hrs as [|r rs Hr _ IH]; intros cache;
      [reflexivity | ].
    cbn [serveAll foldl]. etransitivity; [apply IH | ].
    apply serve_other_league, Hr. }
  split; [exact H | ]. unfold GET, loadFromCache. rewrite H. reflexivity.
Qed.

Lemma budgetOrDefault_truthy (b : option Q) :
  truthyNum (budgetOrDefault b) = true.
Proof.
  unfold budgetOrDefault. destruct b as [x|]; [ | reflexivity].
  destruct (truthyNum x) eqn:E; [exact E | reflexivity].
Qed.

(** X3: [POST] fails, with status 400 and the cache untouched, exactly when
    [teams] is missing or not an array.  Otherwise, whatever was stored, the
    league restarts: [GET] then reports no picks, current pick 1, the teams
    of the request in order (each with its own budget, or 200 when that is
    missing or zero, so never 0), [myTeamBudget = 200], and
    [teamsConfigured] true exactly when the list is not empty. *)
Theorem initialize_then_getState (now : jsstring) (cache : Cache)
    (leagueId : jsstring) (body : PostBody) :
  match post_teams body with
  | None =>
      exists msg, POST now cache leagueId body = (ErrorJson 400 msg, cache)
  | Some ts =>
      exists ok cache',
        POST now cache leagueId body = (Json 200 ok, cache')
        /\ post_result_teams ok = map initTeam ts
        /\ Forall (fun t => truthyNum (budget t) = true) (map initTeam ts)
        /\ GET cache' leagueId
           = Json 200
               {| d_picks := [];
                  d_teams := map initTeam ts;
                  d_currentPick := 1;
                  d_totalPicks := 130;
                  d_isComplete := false;
                  d_synced := true;
                  d_syncedAt := Some now;
                  d_myTeamBudget := 200%Q;
                  d_teamsConfigured :=
                    Some (match ts with [] => false | _ :: _ => true end) |}
  end.
Proof.
  unfold POST. destruct (post_teams body) as [ts|]; [ | eexists; reflexivity].
  eexists _, _. split; [reflexivity | ]. split; [reflexivity | ]. split.
  - apply List.Forall_forall. intros t Ht. apply in_map_iff in Ht.
    destruct Ht as [t0 [<- _]]. apply budgetOrDefault_truthy.
  - unfold GET, loadFromCache, saveToCache. rewrite lookup_insert_eq.
    cbn. rewrite length_map. destruct ts; reflexivity.
Qed.

Lemma GET_stored (cache : Cache) (leagueId : jsstring) (s : CacheData) :
  cache !! leagueId = Some s -> GET cache leagueId = Json 200 (reported s).
Proof. intros H. unfold GET, loadFromCache. rewrite H. reflexivity. Qed.

Lemma GET_absent (cache : Cache) (leagueId : jsstring) :
  cache !! leagueId = None -> GET cache leagueId = Json 200 defaultDraftData.
Proof. intros H. unfold GET, loadFromCache. rewrite H. reflexivity. Qed.

(** X4: [GET] after a [PUT] agrees with what the [PUT] answered.  After an
    accepted [PUT] the current pick has advanced by exactly one, is one more
    than the [totalPicks] of the answer, [myTeamBudget] is the one of the
    answer, and the last reported pick is the new one; after a rejected
    [PUT], [GET] answers what it answered before. *)
Theorem addPick_then_getState (now : jsstring) (cache : Cache)
    (leagueId : jsstring) (body : PutBody) :
  let before := GET cache leagueId in
  let after := GET (snd (PUT now cache leagueId body)) leagueId in
  match fst (PUT now cache leagueId body) with
  | Json _ ok =>
      accepted body = true
      /\ exists d0 d,
           before = Json 200 d0 /\ after = Json 200 d
           /\ d_currentPick d = d_currentPick d0 + 1
           /\ d_currentPick d = put_totalPicks ok + 1
           /\ d_myTeamBudget d = put_myTeamBudget ok
           /\ exists v, d_picks d = d_picks d0 ++ [v]
                /\ Some (v_playerName v) = put_playerName body
                /\ v_pickNumber v = pickNumber (put_pick ok)
                /\ v_draftedByTeam v = draftedByTeam (put_pick ok)
  | ErrorJson _ _ => accepted body = false /\ after = before
  end.
Proof.
  cbn zeta. destruct (accepted body) eqn:E.
  2:{ rewrite (PUT_rejected _ _ _ _ E). split; reflexivity. }
  destruct (proj1 (accepted_true body) E) as [nm [bid [Hn Hb]]].
  destruct (PUT_accepted now cache leagueId body nm bid Hn Hb)
    as [ok [-> [Hpick [Htot Hmy]]]].
  cbn [fst snd]. split; [reflexivity | ].
  rewrite (GET_stored _ _ _ (lookup_insert_eq _ _ _)).
  set (existing := default (emptyData now) (loadFromCache cache leagueId)) in *.
  set (s' := written now existing nm bid
               (default false (put_isMyPick body)) (put_draftedByTeam body)) in *.
  assert (exists d0, GET cache leagueId = Json 200 d0
                     /\ d_picks d0 = imap transformPick (picks existing)
                     /\ d_currentPick d0
                        = Z.of_nat (length (picks existing)) + 1)
    as [d0 [Hd0 [Hp0 Hc0]]].
  { unfold GET, existing. destruct (loadFromCache cache leagueId);
      eexists; (split; [reflexivity | ]); cbn;
      rewrite ?length_imap; split; reflexivity. }
  exists d0, (reported s'). split; [exact Hd0 | ]. split; [reflexivity | ].
  assert (picks s' = picks existing ++ [put_pick ok]) as Hps
    by (rewrite Hpick; reflexivity).
  unfold reported. cbn [d_currentPick d_myTeamBudget d_picks].
  rewrite length_imap, Hps, length_app, Hc0. cbn [length].
  split; [lia | ]. split; [rewrite Htot, Hps, length_app; reflexivity | ].
  split; [rewrite Hmy; reflexivity | ].
  rewrite imap_app, Hp0. cbn [imap]. eexists. split; [reflexivity | ].
  cbn [transformPick v_playerName v_pickNumber v_draftedByTeam].
  rewrite Hpick. cbn [newPick playerName pickNumber draftedByTeam].
  split; [ | split; [ | reflexivity]].
  - revert Hn. destruct (put_playerName body) as [[|c r]|]; cbn;
      intros [= <-]; reflexivity.
  - destruct (Z.of_nat (length (picks existing)) + 1 =? 0) eqn:E0; [lia | ].
    reflexivity.
Qed.

Lemma serve_wellFormed (cache : Cache) (r : Request) :
  (forall l s, cache !! l = Some s -> wellFormedSession s) ->
  forall l s, serve cache r !! l = Some s -> wellFormedSession s.
Proof.
  intros Hc l s. destruct (decide (leagueOf r = l)) as [<- | Hne].
  2:{ rewrite serve_other_league by exact Hne. apply Hc. }
  destruct r as [lid now body | lid now body | lid | lid];
    cbn [leagueOf serve].
  - unfold POST. destruct (post_teams body) as [ts|]; [ | apply Hc].
    cbn [snd]. unfold saveToCache. rewrite lookup_insert_eq.
    intros [= <-]. repeat split; eexists; reflexivity.
  - destruct (accepted body) eqn:E.
    + destruct (proj1 (accepted_true body) E) as [nm [bid [Hn Hb]]].
      destruct (PUT_accepted now cache lid body nm bid Hn Hb) as [ok [-> _]].
      cbn [snd]. rewrite lookup_insert_eq. intros [= <-].
      assert (wellFormedSession
                (default (emptyData now) (loadFromCache cache lid)))
        as [Hic [Htp [[ts Hts] _]]].
      { unfold loadFromCache. destruct (cache !! lid) as [s0|] eqn:E0;
          [exact (Hc lid s0 E0) | ].
        repeat split; eexists; reflexivity. }
      unfold wellFormedSession, written.
      cbn [isComplete totalPicks teams myTeamBudget].
      split; [exact Hic | ]. split; [exact Htp | ].
      split; [ | eexists; reflexivity].
      rewrite Hts. unfold deduct.
      destruct (truthyStr (put_draftedByTeam body));
        [ | eexists; reflexivity].
      destruct ts; [eexists; reflexivity | ].
      destruct (findIndex _ _); eexists; reflexivity.
    + rewrite (PUT_rejected _ _ _ _ E). apply Hc.
  - apply Hc.
  - cbn. rewrite lookup_delete_eq. discriminate.
Qed.

(** X5: in every state reached from the empty cache directory, whatever the
    requests and however many picks were added, [GET] answers with
    [isComplete = false] and [totalPicks = 130]: no handler ever completes
    a draft or changes its size. *)
Theorem draft_never_completes (rs : list Request) (leagueId : jsstring) :
  match GET (serveAll ∅ rs) leagueId with
  | Json _ d => d_isComplete d = false /\ d_totalPicks d = 130
  | ErrorJson _ _ => False
  end.
Proof.
  assert (forall l s, serveAll ∅ rs !! l = Some s -> wellFormedSession s)
    as Hwf.
  { assert (forall cache : Cache,
              (forall l s, cache !! l = Some s -> wellFormedSession s) ->
              forall l s, serveAll cache rs !! l = Some s ->
                          wellFormedSession s) as Hgen.
    { induction rs as [|r rs IH]; intros cache Hc; [exact Hc | ].
      cbn [serveAll foldl]. apply IH, serve_wellFormed, Hc. }
    apply Hgen. intros l s Hs. rewrite lookup_empty in Hs. discriminate. }
  unfold GET, loadFromCache.
  destruct (serveAll ∅ rs !! leagueId) as [s|] eqn:Es; [ | split; reflexivity].
  destruct (Hwf _ _ Es) as [Hic [Htp _]]. split; assumption.
Qed.

End RouteFacts.

(** ** More on the runtime primitives *)

Section JSMoreFacts.
Import JS.

Lemma trimStart_suffix (s : jsstring) :
  exists ws, s = ws ++ trimStart s
             /\ Forall (fun c => isWhiteSpace c = true) ws.
Proof.
  induction s as [|c s [ws [E F]]]; cbn [trimStart].
  - exists []. split; [reflexivity | constructor].
  - destruct (isWhiteSpace c) eqn:Ec.
    + exists (c :: ws). split; [cbn; congruence | constructor; assumption].
    + exists []. split; [reflexivity | constructor].
Qed.

Lemma trimStart_head (s : jsstring) :
  match trimStart s with
  | c :: _ => isWhiteSpace c = false
  | [] => True
  end.
Proof.
  induction s as [|c s IH]; cbn [trimStart]; [exact I | ].
  destruct (isWhiteSpace c) eqn:Ec; [exact IH | exact Ec].
Qed.

Lemma trimEnd_prefix (s : jsstring) :
  exists ws, s = trimEnd s ++ ws
             /\ Forall (fun c => isWhiteSpace c = true) ws.
Proof.
  unfold trimEnd. destruct (trimStart_suffix (rev s)) as [ws [E F]].
  exists (rev ws). split.
  - rewrite <- rev_app_distr, <- E, rev_involutive. reflexivity.
  - apply Forall_rev. exact F.
Qed.

Lemma trimEnd_last (s : jsstring) :
  match last (trimEnd s) with
  | Some c => isWhiteSpace c = false
  | None => True
  end.
Proof.
  unfold trimEnd. pose proof (trimStart_head (rev s)) as H.
  destruct (trimStart (rev s)) as [|c r]; [exact I | ].
  cbn [rev]. rewrite last_snoc. exact H.
Qed.

(** [trim] cuts white space, and only white space, from both ends. *)
Lemma trim_spec (s : jsstring) :
  (exists front back,
      s = front ++ trim s ++ back
      /\ Forall (fun c => isWhiteSpace c = true) front
      /\ Forall (fun c => isWhiteSpace c = true) back)
  /\ match head (trim s) with
     | Some c => isWhiteSpace c = false
     | None => True
     end
  /\ match last (trim s) with
     | Some c => isWhiteSpace c = false
     | None => True
     end.
Proof.
  unfold trim.
  destruct (trimStart_suffix s) as [front [E1 F1]].
  destruct (trimEnd_prefix (trimStart s)) as [back [E2 F2]].
  split; [ | split].
  - exists front, back. split; [ | split; assumption].
    rewrite <- E2. exact E1.
  - pose proof (trimStart_head s) as H. rewrite E2 in H.
    destruct (trimEnd (trimStart s)) as [|c r]; [exact I | exact H].
  - apply trimEnd_last.
Qed.

Lemma includes_refl (s : jsstring) : includes s s = true.
Proof. apply includes_spec. exists [], []. rewrite app_nil_r. reflexivity. Qed.

(** A trimmed string occurs in the string it was trimmed from. *)
Lemma includes_trim (s : jsstring) : includes s (trim s) = true.
Proof.
  apply includes_spec. destruct (trim_spec s) as [[front [back [E _]]] _].
  exists front, back. exact E.
Qed.

(** In a list sorted by [R], each of the first [n] elements is related to
    each of the others. *)
Lemma take_drop_sorted {A : Type} (R : A -> A -> Prop) (n : nat) (l : list A) :
  StronglySorted R l ->
  forall a b, In a (take n l) -> In b (drop n l) -> R a b.
Proof.
  intros Hs. revert n. induction Hs as [|x l Hl IH Hx]; intros n a b.
  - destruct n; intros [].
  - destruct n as [|n]; [intros [] | ].
    cbn [take drop]. intros [<- | Ha] Hb.
    + rewrite List.Forall_forall in Hx. apply Hx.
      rewrite <- (take_drop n l). apply in_or_app. right. exact Hb.
    + exact (IH n a b Ha Hb).
Qed.

Lemma In_take {A : Type} (n : nat) (l : list A) (a : A) :
  In a (take n l) -> In a l.
Proof.
  intros H. rewrite <- (take_drop n l). apply in_or_app. left. exact H.
Qed.

Lemma sorted_weaken {A : Type} (R R' : A -> A -> Prop) (l : list A) :
  (forall a b, R a b -> R' a b) -> StronglySorted R l -> StronglySorted R' l.
Proof.
  intros HR. induction 1 as [|x l Hl IH Hx]; constructor; [exact IH | ].
  rewrite List.Forall_forall in Hx |- *. intros y Hy. apply HR, Hx, Hy.
Qed.

Lemma take_sorted {A : Type} (R : A -> A -> Prop) (n : nat) (l : list A) :
  StronglySorted R l -> StronglySorted R (take n l).
Proof.
  intros Hs. revert n. induction Hs as [|x l Hl IH Hx]; intros [|n];
    cbn [take]; constructor; [apply IH | ].
  apply List.Forall_forall. intros a Ha. rewrite List.Forall_forall in Hx.
  apply Hx. exact (In_take n l a Ha).
Qed.

End JSMoreFacts.

(** ** More on the merge script *)

Section MergeMoreFacts.
Import JS Merge MergeLog.

Variable toLowerCase : jsstring -> jsstring.
Variable normalizeNFD : jsstring -> jsstring.

Local Abbreviation norm := (normalizeName toLowerCase normalizeNFD).
Local Abbreviation ymap := (yahooMap toLowerCase normalizeNFD).

(** X6: whatever the Unicode tables do, a normalized name consists of the
    letters [a-z] and white space only, and neither starts nor ends with
    white space. *)
Theorem normalizeName_shape (nm : jsstring) :
  Forall (fun c => isLetterOrSpace c = true) (norm nm)
  /\ match head (norm nm) with
     | Some c => isWhiteSpace c = false /\ (97 <= c <= 122)%N
     | None => True
     end
  /\ match last (norm nm) with
     | Some c => isWhiteSpace c = false /\ (97 <= c <= 122)%N
     | None => True
     end.
Proof.
  unfold normalizeName.
  set (kept := List.filter isLetterOrSpace _).
  assert (Forall (fun c => isLetterOrSpace c = true) kept) as Hkept.
  { apply List.Forall_forall. intros c Hc. apply filter_In in Hc. tauto. }
  destruct (trim_spec kept) as [[front [back [E [_ _]]]] [Hh Hl]].
  assert (Forall (fun c => isLetterOrSpace c = true) (trim kept)) as Hall.
  { rewrite E in Hkept. apply Forall_app in Hkept. destruct Hkept as [_ H].
    apply Forall_app in H. tauto. }
  assert (forall c, In c (trim kept) -> isWhiteSpace c = false ->
                    (97 <= c <= 122)%N) as Hletter.
  { intros c Hc Hw. rewrite List.Forall_forall in Hall.
    specialize (Hall c Hc). unfold isLetterOrSpace in Hall.
    rewrite Hw, orb_false_r, andb_true_iff, !N.leb_le in Hall. exact Hall. }
  split; [exact Hall | split].
  - destruct (trim kept) as [|c r] eqn:Et; [exact I | ]. cbn in *.
    split; [exact Hh | apply Hletter; [left; reflexivity | exact Hh]].
  - destruct (last (trim kept)) as [c|] eqn:El; [ | exact I].
    split; [exact Hl | apply Hletter; [ | exact Hl]].
    apply list_elem_of_In. apply last_Some in El. destruct El as [l' ->].
    apply list_elem_of_In, in_or_app. right. left. reflexivity.
Qed.

Lemma yahooMap_filter (keep : YahooPlayer -> bool) (k : jsstring)
    (ys : list YahooPlayer) :
  (forall y, In y ys -> norm (yahoo_name y) = k -> keep y = true) ->
  ymap (List.filter keep ys) !! k = ymap ys !! k.
Proof.
  induction ys as [|z ys IH] using rev_ind; intros H; [reflexivity | ].
  assert (ymap (List.filter keep ys) !! k = ymap ys !! k) as IH'
    by (apply IH; intros y Hy; apply H, in_or_app; left; exact Hy).
  rewrite List.filter_app, yahooMap_snoc. cbn [List.filter].
  destruct (decide (norm (yahoo_name z) = k)) as [Hk | Hk].
  - rewrite (H z) by (try apply in_or_app; auto; right; left; reflexivity).
    rewrite yahooMap_snoc, Hk, !lookup_insert_eq. reflexivity.
  - rewrite lookup_insert_ne by exact Hk.
    destruct (keep z).
    + rewrite yahooMap_snoc, lookup_insert_ne by exact Hk. exact IH'.
    + rewrite app_nil_r. exact IH'.
Qed.

(** X7: the primary list defines the players: secondary records whose
    normalized name is the name of no primary record have no influence on
    the output, which is the same with them removed. *)
Theorem secondary_only_records_dropped (primary : list EspnPlayer)
    (secondary : list YahooPlayer) :
  let inPrimary := fun y : YahooPlayer =>
    existsb (fun p => bool_decide (norm (name p) = norm (yahoo_name y)))
            primary in
  merge toLowerCase normalizeNFD primary secondary
  = merge toLowerCase normalizeNFD primary (List.filter inPrimary secondary).
Proof.
  cbn zeta. unfold merge, mergedData. f_equal.
  apply map_ext_in. intros p Hp. unfold mergePlayer.
  rewrite yahooMap_filter; [reflexivity | ].
  intros y _ Hy. apply existsb_exists. exists p. split; [exact Hp | ].
  apply bool_decide_eq_true. congruence.
Qed.

Lemma mergeLoop_from (m : gmap (list N) Q) (l : list EspnPlayer)
    (st : LoopState) :
  let final := foldl (loopBody toLowerCase normalizeNFD m) st l in
  let out := map (mergePlayer toLowerCase normalizeNFD m) l in
  merged final = merged st ++ out
  /\ matchedCount final
     = matchedCount st
       + Z.of_nat (length (List.filter
                             (fun r => bool_decide
                                         (is_Some (m_yahooAuctionValue r)))
                             out))
  /\ unmatchedCount final
     = unmatchedCount st
       + Z.of_nat (length (List.filter
                             (fun r => bool_decide
                                         (m_yahooAuctionValue r = None))
                             out)).
Proof.
  cbn zeta. revert st. induction l as [|p l IH]; intros st.
  - cbn. rewrite app_nil_r, !Z.add_0_r. repeat split.
  - cbn [foldl map]. destruct (IH (loopBody toLowerCase normalizeNFD m st p))
      as [E1 [E2 E3]].
    rewrite E1, E2, E3. clear IH E1 E2 E3.
    unfold loopBody, mergePlayer. cbn [List.filter].
    destruct (m !! norm (name p)) as [v|];
      cbn [merged matchedCount unmatchedCount m_yahooAuctionValue];
      rewrite <- app_assoc; cbn [app].
    + rewrite bool_decide_eq_true_2 by (eexists; reflexivity).
      rewrite bool_decide_eq_false_2 by discriminate.
      cbn [length]. repeat split; lia.
    + rewrite bool_decide_eq_false_2 by (intros [? ?]; discriminate).
      rewrite bool_decide_eq_true_2 by reflexivity.
      cbn [length]. repeat split; lia.
Qed.

(** X8: the loop pushes one record per primary player, in primary order,
    so what gets sorted is [mergedData]; the two counters it logs add up to
    the number of primary players, and [matchedCount] is the number of
    output records with a Yahoo value, [unmatchedCount] the number of those
    with [null]. *)
Theorem merge_counters (primary : list EspnPlayer)
    (secondary : list YahooPlayer) :
  let final := mergeLoop toLowerCase normalizeNFD primary secondary in
  let out := merge toLowerCase normalizeNFD primary secondary in
  merged final = mergedData toLowerCase normalizeNFD primary secondary
  /\ matchedCount final + unmatchedCount final = Z.of_nat (length primary)
  /\ matchedCount final
     = Z.of_nat (length (List.filter
                           (fun r => bool_decide
                                       (is_Some (m_yahooAuctionValue r)))
                           out))
  /\ unmatchedCount final
     = Z.of_nat (length (List.filter
                           (fun r => bool_decide
                                       (m_yahooAuctionValue r = None))
                           out)).
Proof.
  cbn zeta. unfold mergeLoop.
  destruct (mergeLoop_from (ymap secondary) primary
              {| merged := []; matchedCount := 0; unmatchedCount := 0 |})
    as [E1 [E2 E3]].
  cbn [merged matchedCount unmatchedCount app] in E1, E2, E3.
  pose proof (merge_perm toLowerCase normalizeNFD primary secondary) as HP.
  split; [exact E1 | ].
  assert (forall f : MergedPlayer -> bool,
            length (List.filter f
                      (merge toLowerCase normalizeNFD primary secondary))
            = length (List.filter f
                        (map (mergePlayer toLowerCase normalizeNFD
                                (ymap secondary)) primary))) as Hlen.
  { intros f. apply Permutation_length.
    clear -HP. induction HP; cbn [List.filter].
    - reflexivity.
    - destruct (f x); [apply perm_skip | ]; exact IHHP.
    - destruct (f x), (f y); try reflexivity; apply perm_swap.
    - etransitivity; eassumption. }
  rewrite !Hlen. split; [ | split; [exact E2 | exact E3]].
  rewrite E2, E3.
  rewrite <- (length_map (mergePlayer toLowerCase normalizeNFD
                            (ymap secondary)) primary).
  generalize (map (mergePlayer toLowerCase normalizeNFD (ymap secondary))
                  primary) as out.
  clear. intros out. induction out as [|r out IH]; [reflexivity | ].
  cbn [List.filter length].
  destruct (m_yahooAuctionValue r) as [v|].
  - rewrite bool_decide_eq_true_2 by (eexists; reflexivity).
    rewrite bool_decide_eq_false_2 by discriminate. cbn [length]. lia.
  - rewrite bool_decide_eq_false_2 by (intros [? ?]; discriminate).
    rewrite bool_decide_eq_true_2 by reflexivity. cbn [length]. lia.
Qed.

(** X9: the table printed at the end has a row for each of the first ten
    output records, at most ten rows, in non-increasing order of average;
    no output record left out of the table has a higher average than a
    record in it. *)
Theorem topTen_highest (primary : list EspnPlayer)
    (secondary : list YahooPlayer) :
  let out := merge toLowerCase normalizeNFD primary secondary in
  let table := topTen toLowerCase normalizeNFD primary secondary in
  length table = Nat.min 10 (length primary)
  /\ StronglySorted (fun a b => (row_Avg b <= row_Avg a)%Q) table
  /\ forall row r, In row table -> In r (drop 10 out) ->
       (m_avgAuctionValue r <= row_Avg row)%Q.
Proof.
  cbn zeta. unfold topTen.
  assert (StronglySorted
            (fun a b => (m_avgAuctionValue b <= m_avgAuctionValue a)%Q)
            (merge toLowerCase normalizeNFD primary secondary)) as Hsorted
    by apply (Array_sort_sorted m_avgAuctionValue).
  split; [ | split].
  - rewrite length_map, length_take.
    rewrite (Permutation_length
               (merge_perm toLowerCase normalizeNFD primary secondary)).
    rewrite length_map. lia.
  - assert (StronglySorted
              (fun a b => (m_avgAuctionValue b <= m_avgAuctionValue a)%Q)
              (take 10 (merge toLowerCase normalizeNFD primary secondary)))
      as H by (apply take_sorted; exact Hsorted).
    induction H as [|x l Hl IH Hx]; cbn [map]; constructor;
      [exact IH | ].
    apply List.Forall_forall. intros row Hrow. apply in_map_iff in Hrow.
    destruct Hrow as [y [<- Hy]]. rewrite List.Forall_forall in Hx.
    exact (Hx y Hy).
  - intros row r Hrow Hr. apply in_map_iff in Hrow.
    destruct Hrow as [a [<- Ha]].
    exact (take_drop_sorted _ 10 _ Hsorted a r Ha Hr).
Qed.

End MergeMoreFacts.

(** ** The page and its panels *)

Section PanelFacts.
Import JS DraftSync.

Lemma orZero_eq (x : Q) : (Page.orZero (Some x) == x)%Q.
Proof.
  unfold Page.orZero, truthyNum. destruct (Qeq_bool x 0) eqn:E; cbn.
  - apply Qeq_bool_iff in E. symmetry. exact E.
  - reflexivity.
Qed.

Lemma transformPick_shows (i : nat) (p : SyncedPick) :
  shows (transformPick i p) p.
Proof.
  unfold shows, transformPick.
  cbn [v_playerName v_isMyPick v_draftedByTeam v_bidAmount].
  split; [reflexivity | ]. split; [reflexivity | ]. split; [reflexivity | ].
  etransitivity; [apply orZero_eq | ].
  destruct (truthyNum (bidAmount p)) eqn:E; [reflexivity | ].
  unfold truthyNum in E. apply negb_false_iff, Qeq_bool_iff in E.
  symmetry. exact E.
Qed.

Lemma imap_shows (l : list SyncedPick) :
  Forall2 shows (imap transformPick l) l.
Proof.
  assert (forall f : nat -> SyncedPick -> DraftPick,
            (forall i p, shows (f i p) p) -> Forall2 shows (imap f l) l) as H.
  { induction l as [|p l IH]; intros f Hf; cbn [imap]; constructor;
      [apply Hf | ].
    apply IH. intros i q. apply Hf. }
  apply H, transformPick_shows.
Qed.

(** The panels add the bids of reported picks in double arithmetic; on whole
    bids within the safe integers that is the exact sum over the stored
    picks they show. *)
Lemma sum_shows (fv : DraftPick -> bool) (fp : SyncedPick -> bool)
    (vs : list DraftPick) (ps : list SyncedPick) (a b : Q) :
  Forall2 (fun v p => shows v p /\ fv v = fp p) vs ps ->
  (a == b)%Q -> whole b -> wholePicks ps ->
  (Qabs b + magnitude ps <= safe)%Q ->
  (foldl (fun sum v => Number_add sum (Page.orZero (Some (v_bidAmount v)))) a
         (List.filter fv vs)
   == foldl (fun sum p => sum + bidAmount p) b (List.filter fp ps))%Q.
Proof.
  intros H. revert a b.
  induction H as [|v p vs ps [Hvp Hf] _ IH]; intros a b Hab Hb Hps Hbound.
  - exact Hab.
  - apply Forall_cons in Hps. destruct Hps as [Hp Hps].
    change (magnitude (p :: ps))
      with (Qabs (bidAmount p) + magnitude ps)%Q in Hbound.
    pose proof (magnitude_nonneg ps) as Hm.
    pose proof (Qabs_nonneg (bidAmount p)) as Hp0.
    cbn [List.filter]. rewrite Hf. destruct (fp p).
    + cbn [foldl]. destruct Hvp as [_ [_ [_ Hbid]]].
      pose proof (Qabs_triangle b (bidAmount p)) as Htri.
      apply IH.
      * unfold Number_add.
        assert (a + Page.orZero (Some (v_bidAmount v)) == b + bidAmount p)%Q
          as Heq by (rewrite Hab, Hbid; reflexivity).
        rewrite (binary64_comp _ _ Heq).
        apply binary64_whole; [apply whole_plus; assumption | lra].
      * apply whole_plus; assumption.
      * exact Hps.
      * lra.
    + apply IH; [exact Hab | exact Hb | exact Hps | lra].
Qed.

Lemma count_shows (fv : DraftPick -> bool) (fp : SyncedPick -> bool)
    (vs : list DraftPick) (ps : list SyncedPick) :
  Forall2 shows vs ps ->
  (forall v p, shows v p -> fv v = fp p) ->
  length (List.filter fv vs) = length (List.filter fp ps).
Proof.
  intros H Hf. induction H as [|v p vs ps Hvp _ IH]; [reflexivity | ].
  cbn [List.filter]. rewrite (Hf v p Hvp).
  destruct (fp p); cbn [length]; congruence.
Qed.

(** *** Availability *)

Section Lower.
Variable lower : jsstring -> jsstring.

Lemma nameDrafted_pickMatches (p : Merge.MergedPlayer) (pick : DraftPick) :
  Page.nameDrafted lower p (v_playerName pick)
  = Tracker.pickMatches lower p pick.
Proof. reflexivity. Qed.

Lemma rosterMatch_simpl (pick : DraftPick) (p : Merge.MergedPlayer) :
  Page.rosterMatch lower pick p = Tracker.pickMatches lower p pick.
Proof.
  unfold Page.rosterMatch, Tracker.pickMatches.
  destruct (strEq _ _) eqn:E; cbn [orb].
  - apply strEq_true in E. rewrite E, includes_refl. reflexivity.
  - apply orb_comm.
Qed.

(** X10: the request for advice is built only when player data is loaded.
    Its pool of available players is exactly the list the page shows as
    available; its drafted names are the pick names in order; and its
    roster has one entry per pick flagged [isMyPick], in order and under the
    pick's name, whose position is that of the first catalog player whose
    name matches under containment ("Unknown" when none does or when that
    position is empty). *)
Theorem recommendation_request_pool (allPlayers : list Merge.MergedPlayer)
    (picks : list DraftPick) (remaining : Q) :
  match Page.fetchRecommendations lower allPlayers picks remaining with
  | None => allPlayers = []
  | Some rq =>
      allPlayers <> []
      /\ Page.rq_availablePlayers rq
         = Tracker.availablePlayers lower allPlayers picks
      /\ Page.draftedPlayers rq = map v_playerName picks
      /\ map Page.mt_playerName (Page.myTeam rq)
         = map v_playerName (List.filter v_isMyPick picks)
      /\ Forall2
           (fun e pick =>
              Page.mt_position e
              = Page.orUnknown
                  (Merge.m_position
                     <$> List.find
                           (fun p => Tracker.pickMatches lower p pick)
                           allPlayers))
           (Page.myTeam rq) (List.filter v_isMyPick picks)
  end.
Proof.
  unfold Page.fetchRecommendations. destruct allPlayers as [|p0 ps] eqn:E;
    [reflexivity | ].
  rewrite <- E. cbn [Page.rq_availablePlayers Page.draftedPlayers Page.myTeam].
  split; [congruence | ]. split; [ | split; [reflexivity | split]].
  - unfold Tracker.availablePlayers. apply filter_ext. intros p. f_equal.
    induction picks as [|pick l IH]; [reflexivity | ].
    cbn [map existsb]. rewrite IH. reflexivity.
  - rewrite map_map. reflexivity.
  - induction (List.filter v_isMyPick picks) as [|pick l IH];
      cbn [map]; constructor; [ | exact IH].
    unfold Page.rosterEntry. cbn [Page.mt_position]. do 2 f_equal.
    clear. induction allPlayers as [|p l IH]; [reflexivity | ].
    cbn [List.find]. rewrite rosterMatch_simpl, IH. reflexivity.
Qed.

Lemma pickMatches_same_name (p : Merge.MergedPlayer) (pick : DraftPick) :
  v_playerName pick = Merge.m_name p -> Tracker.pickMatches lower p pick = true.
Proof.
  intros H. unfold Tracker.pickMatches. rewrite H, includes_refl. reflexivity.
Qed.

(** X11: once a pick is accepted under a player's name, [GET] reports it
    and the page no longer lists any catalog player of that name as
    available; and a player missing before the pick is still missing after
    it. *)
Theorem drafted_player_not_available (now : jsstring) (cache : Cache)
    (leagueId : jsstring) (body : PutBody)
    (catalog : list Merge.MergedPlayer) :
  accepted body = true ->
  exists d0 d,
    GET cache leagueId = Json 200 d0
    /\ GET (snd (PUT now cache leagueId body)) leagueId = Json 200 d
    /\ (forall p, In p (Tracker.availablePlayers lower catalog (d_picks d)) ->
          Some (Merge.m_name p) <> put_playerName body)
    /\ (forall p, In p (Tracker.availablePlayers lower catalog (d_picks d)) ->
          In p (Tracker.availablePlayers lower catalog (d_picks d0))).
Proof.
  intros E.
  destruct (proj1 (accepted_true body) E) as [nm [bid [Hn Hb]]].
  destruct (PUT_accepted now cache leagueId body nm bid Hn Hb)
    as [ok [-> _]].
  cbn [snd]. rewrite (GET_stored _ _ _ (lookup_insert_eq _ _ _)).
  set (existing := default (emptyData now) (loadFromCache cache leagueId)).
  assert (exists d0, GET cache leagueId = Json 200 d0
                     /\ d_picks d0 = imap transformPick (picks existing))
    as [d0 [Hd0 Hp0]].
  { unfold GET, existing. destruct (loadFromCache cache leagueId);
      eexists; split; reflexivity. }
  exists d0. eexists. split; [exact Hd0 | ]. split; [reflexivity | ].
  unfold reported. cbn [d_picks written picks]. rewrite imap_app, Hp0.
  cbn [imap].
  assert (put_playerName body = Some nm) as Hname
    by (revert Hn; destruct (put_playerName body) as [[|c r]|]; cbn;
        congruence).
  split.
  - intros p Hp. unfold Tracker.availablePlayers in Hp.
    apply filter_In in Hp. destruct Hp as [_ Hp].
    apply negb_true_iff in Hp. rewrite existsb_app in Hp.
    apply orb_false_iff in Hp. destruct Hp as [_ Hp]. cbn [existsb] in Hp.
    rewrite orb_false_r in Hp. intros Heq.
    rewrite pickMatches_same_name in Hp; [discriminate | ].
    cbn. congruence.
  - intros p Hp. unfold Tracker.availablePlayers in *.
    apply filter_In in Hp. destruct Hp as [Hin Hp]. apply filter_In.
    split; [exact Hin | ]. apply negb_true_iff in Hp.
    rewrite existsb_app in Hp. apply orb_false_iff in Hp.
    apply negb_true_iff. tauto.
Qed.

(** X12: [getPlayerData] returns the first catalog player whose lower-cased
    name contains, or is contained in, the lower-cased and trimmed pick
    name: its test for equality of the trimmed names adds nothing to the two
    containment tests.  So it finds a player for every pick entered under a
    catalog name, though possibly an earlier player with a shorter or longer
    name. *)
Theorem getPlayerData_first_containing (allPlayers : list Merge.MergedPlayer)
    (nm : jsstring) :
  let q := trim (lower nm) in
  LiveDraft.getPlayerData lower allPlayers nm
  = List.find (fun p => includes (lower (Merge.m_name p)) q
                        || includes q (lower (Merge.m_name p))) allPlayers
  /\ ((exists p, In p allPlayers /\ Merge.m_name p = nm) ->
      is_Some (LiveDraft.getPlayerData lower allPlayers nm)).
Proof.
  cbn zeta.
  assert (forall p,
            LiveDraft.fuzzyMatch lower (trim (lower nm)) p
            = includes (lower (Merge.m_name p)) (trim (lower nm))
              || includes (trim (lower nm)) (lower (Merge.m_name p))) as Hm.
  { intros p. unfold LiveDraft.fuzzyMatch.
    destruct (strEq _ _) eqn:E; [ | reflexivity].
    apply strEq_true in E. rewrite <- E, includes_trim. reflexivity. }
  unfold LiveDraft.getPlayerData. split.
  - induction allPlayers as [|p l IH]; [reflexivity | ].
    cbn [List.find]. rewrite Hm, IH. reflexivity.
  - intros [p [Hin Hname]].
    destruct (List.find _ allPlayers) as [r|] eqn:Ef; [eexists; reflexivity | ].
    exfalso. pose proof (find_none _ _ Ef p Hin) as Hnone. cbn in Hnone.
    rewrite Hm, Hname, includes_trim in Hnone. discriminate.
Qed.

End Lower.

End PanelFacts.

(** ** Budgets over a whole draft *)

Section BudgetFacts.
Import JS DraftSync.

(** [PUT] requests keep the names and flags of the teams. *)
Lemma puts_teamShape (leagueId : jsstring) (calls : list (jsstring * PutBody))
    (cache : Cache) (s : CacheData) (shape : list (jsstring * bool)) :
  cache !! leagueId = Some s ->
  (exists t1, teams s = Some t1 /\ teamShape t1 = shape) ->
  exists s' t2,
    serveAll cache (putsTo leagueId calls) !! leagueId = Some s'
    /\ teams s' = Some t2 /\ teamShape t2 = shape.
Proof.
  revert cache s. induction calls as [|[now body] l IH];
    intros c s Hs [t1 [Ht1 Hsh]].
  - exists s, t1. repeat split; assumption.
  - cbn [putsTo map serveAll foldl serve fst snd].
    destruct (accepted body) eqn:E.
    2:{ rewrite (PUT_rejected _ _ _ _ E). apply (IH c s Hs). eauto. }
    destruct (proj1 (accepted_true body) E) as [nm [bid [Hn Hb]]].
    destruct (PUT_accepted now c leagueId body nm bid Hn Hb) as [ok [-> _]].
    cbn [snd]. eapply IH; [apply lookup_insert_eq | ].
    unfold loadFromCache. rewrite Hs. cbn [default from_option id written teams].
    rewrite Ht1. unfold deduct.
    destruct (truthyStr (put_draftedByTeam body)); [ | eauto].
    destruct t1 as [|t0 t1]; [eauto | ].
    destruct (findIndex _ _); cbn [fst]; [ | eauto].
    eexists. split; [reflexivity | ]. rewrite teamShape_alter. exact Hsh.
Qed.

(** Requests that flag [isMyPick] exactly when they name [mineName] keep
    the stored picks flagged that way. *)
Lemma puts_flagged (mineName : jsstring) (leagueId : jsstring)
    (calls : list (jsstring * PutBody)) (cache : Cache) (s : CacheData) :
  cache !! leagueId = Some s -> flaggedFor mineName (picks s) ->
  (forall c, In c calls ->
     exists d, put_draftedByTeam (snd c) = Some d /\ d <> []
               /\ default false (put_isMyPick (snd c))
                  = bool_decide (d = mineName)) ->
  exists s', serveAll cache (putsTo leagueId calls) !! leagueId = Some s'
             /\ flaggedFor mineName (picks s').
Proof.
  revert cache s. induction calls as [|[now body] l IH];
    intros c s Hs Hfl Hd.
  - exists s. split; assumption.
  - cbn [putsTo map serveAll foldl serve fst snd].
    assert (forall c0, In c0 l ->
              exists d, put_draftedByTeam (snd c0) = Some d /\ d <> []
                        /\ default false (put_isMyPick (snd c0))
                           = bool_decide (d = mineName)) as Hd'
      by (intros c0 Hc0; apply Hd; right; exact Hc0).
    destruct (accepted body) eqn:E.
    2:{ rewrite (PUT_rejected _ _ _ _ E). exact (IH c s Hs Hfl Hd'). }
    destruct (proj1 (accepted_true body) E) as [nm [bid [Hn Hb]]].
    destruct (PUT_accepted now c leagueId body nm bid Hn Hb) as [ok [-> _]].
    cbn [snd]. eapply IH; [apply lookup_insert_eq | | exact Hd'].
    unfold loadFromCache. rewrite Hs. cbn [default from_option id written picks].
    destruct (Hd (now, body) (or_introl eq_refl)) as [d [Hbd [Hne Hmy]]].
    cbn [snd] in Hbd, Hmy.
    apply Forall_app. split; [exact Hfl | ].
    constructor; [ | constructor].
    rewrite Hbd, Hmy. cbn [newPick isMyPick draftedByTeam].
    destruct d as [|c0 d]; [congruence | ]. cbn [truthyStr].
    destruct (decide (c0 :: d = mineName)) as [Heq | Hneq].
    + rewrite !bool_decide_eq_true_2; congruence.
    + rewrite !bool_decide_eq_false_2; congruence.
Qed.

Lemma shows_flagged (mineName : jsstring) (vs : list DraftPick)
    (ps : list SyncedPick) :
  Forall2 shows vs ps -> flaggedFor mineName ps ->
  Forall2 (fun v p =>
             shows v p
             /\ v_isMyPick v = bool_decide (draftedByTeam p = Some mineName))
          vs ps.
Proof.
  intros H. induction H as [|v p vs ps Hvp _ IH]; intros Hfl; constructor.
  - apply Forall_cons in Hfl. destruct Hfl as [Hp _].
    split; [exact Hvp | ]. destruct Hvp as [_ [Hmy _]]. congruence.
  - apply IH. apply Forall_cons in Hfl. apply Hfl.
Qed.

(** X13: initialize a team list in which exactly one team, at position
    [m], is flagged [isMyTeam], its budget is 200 and no earlier team bears
    its name; then serve [PUT] requests that name a team (a non-empty
    [draftedByTeam]) and set [isMyPick] exactly when they name my team,
    with whole bids that stay, added to 200, within
    [Number.MAX_SAFE_INTEGER].  Then the [myTeamBudget] that [GET] reports
    is 200 less the [totalSpent] the my-team panel computes from the
    reported picks. *)
Theorem my_team_panel_balances (now0 : jsstring) (cache : Cache)
    (leagueId : jsstring) (ts : list TeamInput) (m : nat) (mine : TeamInput)
    (calls : list (jsstring * PutBody)) :
  ts !! m = Some mine ->
  (forall j t, ts !! j = Some t ->
     (default false (in_isMyTeam t) = true <-> j = m)) ->
  (budgetOrDefault (in_budget mine) == 200)%Q ->
  (forall j t, (j < m)%nat -> ts !! j = Some t ->
     in_name t <> in_name mine) ->
  (forall c, In c calls ->
     exists d, put_draftedByTeam (snd c) = Some d /\ d <> []
               /\ default false (put_isMyPick (snd c))
                  = bool_decide (d = in_name mine)) ->
  wholeBids calls ->
  (200 + volume calls <= safe)%Q ->
  let cache' :=
    serveAll (snd (POST now0 cache leagueId {| post_teams := Some ts |}))
             (putsTo leagueId calls) in
  exists d,
    GET cache' leagueId = Json 200 d
    /\ (d_myTeamBudget d == 200 - MyTeam.totalSpent (d_picks d))%Q.
Proof.
  intros Hm Huniq Hbudget Hfirst Hcalls Hwhole Hvol. cbn zeta.
  unfold POST. cbn [post_teams snd]. unfold saveToCache.
  set (s0 := {| picks := []; teams := Some (map initTeam ts);
                syncedAt := now0; totalPicks := 130; isComplete := false;
                myTeamBudget := Some 200%Q |}).
  assert (forall c, In c calls ->
            exists d, put_draftedByTeam (snd c) = Some d /\ d <> []) as Hnamed.
  { intros c Hc. destruct (Hcalls c Hc) as [d [Hd [Hne _]]]. eauto. }
  assert (forall j y, map initTeam ts !! j = Some y ->
            exists y0, ts !! j = Some y0 /\ y = initTeam y0) as Hlook.
  { intros j y. change (map initTeam ts) with (initTeam <$> ts).
    rewrite list_lookup_fmap. destruct (ts !! j) as [y0|]; [ | discriminate].
    intros [= <-]. eauto. }
  assert (map initTeam ts !! m = Some (initTeam mine)) as Hm'.
  { change (map initTeam ts) with (initTeam <$> ts).
    rewrite list_lookup_fmap, Hm. reflexivity. }
  assert (tracksMyTeam m (in_name mine) s0) as Htr.
  { exists (map initTeam ts), (initTeam mine), 200%Q.
    split; [reflexivity | ]. split.
    - split; [ | split].
      + exists (initTeam mine). split; [exact Hm' | ].
        split; [reflexivity | ]. cbn. apply (Huniq m mine Hm). reflexivity.
      + intros j y Hy Hmy. destruct (Hlook j y Hy) as [y0 [Hy0 ->]].
        apply (Huniq j y0 Hy0). exact Hmy.
      + intros j y Hj Hy. destruct (Hlook j y Hy) as [y0 [Hy0 ->]].
        cbn. exact (Hfirst j y0 Hj Hy0).
    - split; [exact Hm' | ]. split; [reflexivity | ].
      cbn [initTeam budget]. symmetry. exact Hbudget. }
  destruct (puts_tracksMyTeam m (in_name mine) leagueId calls
              (<[leagueId := s0]> cache) s0 (lookup_insert_eq _ _ _) Htr Hnamed)
    as [s [Hs [teams' [t [b [Hts [Hat [Ht [Hb Hbt]]]]]]]]].
  destruct Hat as [[t' [Ht' [Hn' _]]] _].
  assert (t' = t) as -> by congruence.
  destruct (puts_charged m (budgetOrDefault (in_budget mine)) leagueId calls
              (<[leagueId := s0]> cache) s0 (lookup_insert_eq _ _ _)
              (POST_charged m ts mine s0 Hm Hfirst eq_refl eq_refl))
    as [s1 [Hs1 [[ts2 [t2 [Hts2 [Ht2 [_ Hbud]]]]] [Hwp Hmag]]]].
  { constructor. }
  { exists 200. exact Hbudget. }
  { exact Hnamed. }
  { exact Hwhole. }
  { rewrite Hbudget. change (magnitude (picks s0)) with 0%Q.
    change (Qabs 200) with 200%Q. lra. }
  assert (s1 = s) as -> by congruence.
  assert (ts2 = teams') as -> by congruence.
  assert (t2 = t) as -> by congruence.
  destruct (puts_flagged (in_name mine) leagueId calls
              (<[leagueId := s0]> cache) s0 (lookup_insert_eq _ _ _))
    as [s2 [Hs2 Hfl]]; [constructor | exact Hcalls | ].
  assert (s2 = s) as -> by congruence.
  exists (reported s). split; [apply GET_stored, Hs | ].
  unfold reported. cbn [d_myTeamBudget d_picks]. rewrite Hb.
  cbn [default from_option id].
  unfold MyTeam.totalSpent, MyTeam.myPicks.
  rewrite (sum_shows v_isMyPick
             (fun p => bool_decide (draftedByTeam p = Some (in_name mine)))
             _ _ 0 0 (shows_flagged _ _ _ (imap_shows (picks s)) Hfl)).
  - fold (spentBy (in_name mine) (picks s)).
    rewrite Hbt, Hbud, Hn', Hbudget. reflexivity.
  - reflexivity.
  - exists 0. reflexivity.
  - exact Hwp.
  - change (magnitude (picks s0)) with 0%Q in Hmag.
    change (Qabs 0) with 0%Q. lra.
Qed.

Lemma firstNamed_NoDup (ts : list DraftTeam) (i : nat) (t : DraftTeam) :
  List.NoDup (map name ts) -> ts !! i = Some t ->
  firstNamed (name t) ts = Some i.
Proof.
  intros Hnd Ht. apply findIndex_Some. exists t. split; [exact Ht | ].
  split; [apply strEq_true; reflexivity | ].
  intros j y Hj Hy. apply strEq_false. intros Heq.
  apply NoDup_ListNoDup in Hnd.
  assert (j = i); [ | lia].
  apply (NoDup_lookup (map name ts) j i (name t) Hnd).
  - change (map name ts) with (name <$> ts).
    rewrite list_lookup_fmap, Hy. cbn. congruence.
  - change (map name ts) with (name <$> ts).
    rewrite list_lookup_fmap, Ht. reflexivity.
Qed.

(** X14: initialize teams with pairwise distinct names and whole budgets,
    then serve [PUT] requests whose [draftedByTeam] is each a non-empty
    string, with whole bids that stay, added to any starting budget, within
    [Number.MAX_SAFE_INTEGER].  In what [GET] reports, the team-budgets
    panel has one row per configured team, in order and under its name, and
    in every row the remaining budget plus the amount shown as spent is the
    team's starting budget. *)
Theorem team_budgets_balance (now0 : jsstring) (cache : Cache)
    (leagueId : jsstring) (ts : list TeamInput)
    (calls : list (jsstring * PutBody)) :
  List.NoDup (map in_name ts) ->
  (forall c, In c calls ->
     exists d, put_draftedByTeam (snd c) = Some d /\ d <> []) ->
  wholeBids calls ->
  (forall t0, In t0 ts ->
     whole (budgetOrDefault (in_budget t0))
     /\ (Qabs (budgetOrDefault (in_budget t0)) + volume calls <= safe)%Q) ->
  let cache' :=
    serveAll (snd (POST now0 cache leagueId {| post_teams := Some ts |}))
             (putsTo leagueId calls) in
  exists d,
    GET cache' leagueId = Json 200 d
    /\ Forall2
         (fun row t0 =>
            TeamBudgets.st_name row = in_name t0
            /\ (TeamBudgets.st_budget row + TeamBudgets.totalSpent row
                == budgetOrDefault (in_budget t0))%Q)
         (TeamBudgets.teamStats (d_teams d) (d_picks d)) ts.
Proof.
  intros Hnd Hcalls Hwhole Hbudgets. cbn zeta. unfold POST. cbn [post_teams snd].
  unfold saveToCache.
  set (s0 := {| picks := []; teams := Some (map initTeam ts);
                syncedAt := now0; totalPicks := 130; isComplete := false;
                myTeamBudget := Some 200%Q |}).
  destruct (puts_teamShape leagueId calls (<[leagueId := s0]> cache) s0
              (teamShape (map initTeam ts)) (lookup_insert_eq _ _ _))
    as [s [ts' [Hs [Hts Hshape]]]]; [exists (map initTeam ts); eauto | ].
  exists (reported s). split; [apply GET_stored, Hs | ].
  unfold reported. cbn [d_teams d_picks]. rewrite Hts.
  cbn [default from_option id]. unfold TeamBudgets.teamStats.
  assert (map name ts' = map in_name ts) as Hnames.
  { transitivity (map fst (teamShape ts'));
      [unfold teamShape; rewrite map_map; reflexivity | ].
    rewrite Hshape. unfold teamShape. rewrite !map_map. reflexivity. }
  apply Forall2_same_length_lookup_2.
  - rewrite length_map, <- (length_map name ts'), Hnames, length_map.
    reflexivity.
  - intros i row t0 Hrow Ht0.
    change (map (TeamBudgets.teamStat (imap transformPick (picks s))) ts')
      with (TeamBudgets.teamStat (imap transformPick (picks s)) <$> ts')
      in Hrow.
    rewrite list_lookup_fmap in Hrow.
    destruct (ts' !! i) as [t|] eqn:Ht; [ | discriminate].
    injection Hrow as <-.
    assert (name t = in_name t0) as Hname.
    { assert (map name ts' !! i = Some (name t)) as H1
        by (change (map name ts') with (name <$> ts');
            rewrite list_lookup_fmap, Ht; reflexivity).
      rewrite Hnames in H1. change (map in_name ts) with (in_name <$> ts) in H1.
      rewrite list_lookup_fmap, Ht0 in H1. cbn in H1. congruence. }
    cbn [TeamBudgets.teamStat TeamBudgets.st_name TeamBudgets.st_budget
         TeamBudgets.totalSpent].
    split; [exact Hname | ].
    assert (In t0 ts) as Hin
      by (apply list_elem_of_In, list_elem_of_lookup; eauto).
    destruct (Hbudgets t0 Hin) as [HwB HB].
    assert (forall j y, (j < i)%nat -> ts !! j = Some y ->
              in_name y <> in_name t0) as Hfirst.
    { intros j y Hj Hy Heq. apply NoDup_ListNoDup in Hnd.
      assert (j = i); [ | lia].
      apply (NoDup_lookup (map in_name ts) j i (in_name t0) Hnd).
      - change (map in_name ts) with (in_name <$> ts).
        rewrite list_lookup_fmap, Hy. cbn. congruence.
      - change (map in_name ts) with (in_name <$> ts).
        rewrite list_lookup_fmap, Ht0. reflexivity. }
    destruct (puts_charged i (budgetOrDefault (in_budget t0)) leagueId calls
                (<[leagueId := s0]> cache) s0 (lookup_insert_eq _ _ _)
                (POST_charged i ts t0 s0 Ht0 Hfirst eq_refl eq_refl))
      as [s1 [Hs1 [[ts2 [t2 [Hts2 [Ht2 [_ Hbud]]]]] [Hwp Hmag]]]].
    { constructor. }
    { exact HwB. }
    { exact Hcalls. }
    { exact Hwhole. }
    { change (magnitude (picks s0)) with 0%Q. lra. }
    assert (s1 = s) as -> by congruence.
    assert (ts2 = ts') as -> by congruence.
    assert (t2 = t) as -> by congruence.
    change (magnitude (picks s0)) with 0%Q in Hmag.
    pose proof (Qabs_nonneg (budgetOrDefault (in_budget t0))) as HB0.
    rewrite (sum_shows
               (fun p => bool_decide (v_draftedByTeam p = Some (name t)))
               (fun p => bool_decide (draftedByTeam p = Some (name t)))
               (imap transformPick (picks s)) (picks s) 0 0).
    + fold (spentBy (name t) (picks s)). rewrite Hbud. ring.
    + eapply Forall2_impl; [apply imap_shows | ].
      intros v p Hvp. split; [exact Hvp | ].
      destruct Hvp as [_ [_ [Hd _]]]. rewrite Hd. reflexivity.
    + reflexivity.
    + exists 0. reflexivity.
    + exact Hwp.
    + change (Qabs 0) with 0%Q. lra.
Qed.

(** X15: [PUT] requests never add, remove, rename, reorder or re-flag a
    team: after any of them the stored teams have the names and [isMyTeam]
    flags [POST] stored, in the same order. *)
Theorem picks_never_change_team_list (now0 : jsstring) (cache : Cache)
    (leagueId : jsstring) (ts : list TeamInput)
    (calls : list (jsstring * PutBody)) :
  let cache' :=
    serveAll (snd (POST now0 cache leagueId {| post_teams := Some ts |}))
             (putsTo leagueId calls) in
  exists s ts',
    cache' !! leagueId = Some s
    /\ teams s = Some ts'
    /\ teamShape ts'
       = map (fun t => (in_name t, default false (in_isMyTeam t))) ts.
Proof.
  cbn zeta. unfold POST. cbn [post_teams snd]. unfold saveToCache.
  set (s0 := {| picks := []; teams := Some (map initTeam ts);
                syncedAt := now0; totalPicks := 130; isComplete := false;
                myTeamBudget := Some 200%Q |}).
  assert (forall (c : Cache) (s : CacheData) (shape : list (jsstring * bool)),
            c !! leagueId = Some s ->
            (exists t1, teams s = Some t1 /\ teamShape t1 = shape) ->
            exists s' t2,
              serveAll c (putsTo leagueId calls) !! leagueId = Some s'
              /\ teams s' = Some t2 /\ teamShape t2 = shape) as Hgen.
  { induction calls as [|[now body] l IH]; intros c s shape Hs [t1 [Ht1 Hsh]].
    - exists s, t1. repeat split; assumption.
    - cbn [putsTo map serveAll foldl serve fst snd].
      destruct (accepted body) eqn:E.
      2:{ rewrite (PUT_rejected _ _ _ _ E). apply (IH c s shape Hs). eauto. }
      destruct (proj1 (accepted_true body) E) as [nm [bid [Hn Hb]]].
      destruct (PUT_accepted now c leagueId body nm bid Hn Hb) as [ok [-> _]].
      cbn [snd]. eapply IH; [apply lookup_insert_eq | ].
      unfold loadFromCache. rewrite Hs. cbn [default from_option id written teams].
      rewrite Ht1. unfold deduct.
      destruct (truthyStr (put_draftedByTeam body)); [ | eauto].
      destruct t1 as [|t0 t1]; [eauto | ].
      destruct (findIndex _ _); cbn [fst]; [ | eauto].
      eexists. split; [reflexivity | ]. rewrite teamShape_alter. exact Hsh. }
  apply (Hgen _ s0 _ (lookup_insert_eq _ _ _)).
  exists (map initTeam ts). split; [reflexivity | ].
  unfold teamShape. rewrite map_map. reflexivity.
Qed.

End BudgetFacts.

(** ** The live-draft and team-budgets panels *)

Section BoardFacts.
Import JS DraftSync.

Lemma sortInsert_after {A : Type} (compareFn : A -> A -> Q) (x : A)
    (l : list A) :
  (forall y, In y l -> Qle_bool (compareFn x y) 0 = false) ->
  sortInsert compareFn x l = l ++ [x].
Proof.
  induction l as [|y l IH]; intros H; [reflexivity | ].
  cbn [sortInsert]. rewrite (H y) by (left; reflexivity).
  cbn [app]. f_equal. apply IH. intros z Hz. apply H. right. exact Hz.
Qed.

(** Picks in increasing order of number are shown in reverse. *)
Lemma sortedPicks_reverse (l : list DraftPick) :
  StronglySorted (fun a b => v_pickNumber a < v_pickNumber b) l ->
  LiveDraft.sortedPicks l = rev l.
Proof.
  unfold LiveDraft.sortedPicks.
  induction 1 as [|x l Hl IH Hx]; [reflexivity | ].
  cbn [Array_sort rev]. rewrite IH. apply sortInsert_after.
  intros y Hy. apply in_rev in Hy. rewrite List.Forall_forall in Hx.
  specialize (Hx y Hy). unfold LiveDraft.byPickNumberDesc.
  destruct (Qle_bool _ 0) eqn:E; [ | reflexivity].
  apply Qle_bool_iff in E. unfold Qle in E. cbn in E. lia.
Qed.

Lemma reported_increasing (l : list SyncedPick) :
  numbered l ->
  StronglySorted (fun a b => v_pickNumber a < v_pickNumber b)
                 (imap transformPick l).
Proof.
  intros Hn.
  assert (forall i v, imap transformPick l !! i = Some v ->
                      v_pickNumber v = Z.of_nat i + 1) as Hlook
    by (intros i v Hv; apply (transformPick_numbered l i v Hn Hv)).
  revert Hlook. generalize (imap transformPick l) as vs. clear.
  assert (forall (vs : list DraftPick) (k : Z),
            (forall i v, vs !! i = Some v -> v_pickNumber v = Z.of_nat i + k) ->
            StronglySorted (fun a b => v_pickNumber a < v_pickNumber b) vs)
    as H.
  { induction vs as [|x vs IH]; intros k Hk; constructor.
    - apply (IH (k + 1)). intros i v Hv.
      rewrite (Hk (S i) v Hv). lia.
    - apply List.Forall_forall. intros y Hy.
      apply list_elem_of_In, list_elem_of_lookup in Hy. destruct Hy as [j Hj].
      rewrite (Hk 0%nat x eq_refl), (Hk (S j) y Hj). lia. }
  intros vs Hvs. exact (H vs 1 Hvs).
Qed.

(** X16: in every state reached from the empty cache directory, the list
    under "Recent Picks" is the last ten reported picks (all of them when
    there are fewer), newest first. *)
Theorem recent_picks_newest_first (rs : list Request) (leagueId : jsstring) :
  match GET (serveAll ∅ rs) leagueId with
  | Json _ d =>
      LiveDraft.recentPicks (d_picks d) = take 10 (rev (d_picks d))
      /\ length (LiveDraft.recentPicks (d_picks d))
         = Nat.min 10 (length (d_picks d))
  | ErrorJson _ _ => False
  end.
Proof.
  assert (allNumbered (serveAll ∅ rs)) as Hn.
  { apply serveAll_allNumbered. intros l s Hs.
    rewrite lookup_empty in Hs. discriminate. }
  destruct (serveAll ∅ rs !! leagueId) as [s|] eqn:Es.
  - rewrite (GET_stored _ _ _ Es). unfold reported, LiveDraft.recentPicks.
    cbn [d_picks].
    rewrite (sortedPicks_reverse _ (reported_increasing _ (Hn _ _ Es))).
    split; [reflexivity | ]. rewrite length_take, length_rev. reflexivity.
  - rewrite (GET_absent _ _ Es). split; reflexivity.
Qed.

(** X17: in every state reached from the empty cache directory, a pick
    shown in a cell of the five-round draft board was drafted by the team
    of the column, is reported in the round of the row, and is one of the
    first fifty picks: later picks never appear on the board. *)
Theorem board_shows_first_fifty (rs : list Request) (leagueId : jsstring)
    (team : DraftTeam) :
  match GET (serveAll ∅ rs) leagueId with
  | Json _ d =>
      Forall
        (fun round =>
           match LiveDraft.boardCell (d_picks d) round team with
           | Some p =>
               In p (d_picks d)
               /\ v_draftedByTeam p = Some (name team)
               /\ v_round p = round
               /\ 1 <= v_pickNumber p <= 50
           | None => True
           end)
        LiveDraft.boardRounds
  | ErrorJson _ _ => False
  end.
Proof.
  assert (allNumbered (serveAll ∅ rs)) as Hn.
  { apply serveAll_allNumbered. intros l s Hs.
    rewrite lookup_empty in Hs. discriminate. }
  destruct (serveAll ∅ rs !! leagueId) as [s|] eqn:Es.
  2:{ rewrite (GET_absent _ _ Es). apply List.Forall_forall. intros r _.
      exact I. }
  rewrite (GET_stored _ _ _ Es). unfold reported. cbn [d_picks].
  apply List.Forall_forall. intros round Hround.
  unfold LiveDraft.boardCell.
  destruct (List.find _ _) as [p|] eqn:Ef; [ | exact I].
  apply find_some in Ef. destruct Ef as [Hin Hp].
  apply andb_true_iff in Hp. destruct Hp as [Hr Hd].
  apply Z.eqb_eq in Hr. apply bool_decide_eq_true in Hd.
  split; [exact Hin | ]. split; [exact Hd | ]. split; [exact Hr | ].
  apply list_elem_of_In, list_elem_of_lookup in Hin. destruct Hin as [i Hi].
  destruct (transformPick_numbered _ _ _ (Hn _ _ Es) Hi) as [Hnum Hrnd].
  assert (1 <= round <= 5) as Hbound.
  { unfold LiveDraft.boardRounds in Hround. cbn in Hround.
    repeat (destruct Hround as [<- | Hround]; [lia | ]). destruct Hround. }
  rewrite Hrnd in Hr. rewrite Hnum.
  assert (Z.of_nat i / 10 < 5) as Hq by lia.
  assert (Z.of_nat i < 10 * 5) as Hi50
    by (apply Z.nle_gt; intros Hge;
        apply (Z.div_le_lower_bound _ 10 5) in Hge; lia).
  lia.
Qed.

Lemma sortInsert_mine (x : TeamBudgets.TeamStat)
    (l : list TeamBudgets.TeamStat) :
  TeamBudgets.st_isMyTeam x = true ->
  sortInsert TeamBudgets.myTeamFirst x l = x :: l.
Proof.
  intros Hx. destruct l as [|y l]; [reflexivity | ].
  cbn [sortInsert]. unfold TeamBudgets.myTeamFirst. rewrite Hx. reflexivity.
Qed.

Lemma sortInsert_other (x : TeamBudgets.TeamStat)
    (mine others : list TeamBudgets.TeamStat) :
  TeamBudgets.st_isMyTeam x = false ->
  Forall (fun y => TeamBudgets.st_isMyTeam y = true) mine ->
  Forall (fun y => TeamBudgets.st_isMyTeam y = false) others ->
  sortInsert TeamBudgets.myTeamFirst x (mine ++ others)
  = mine ++ sortInsert
              (fun a b => (TeamBudgets.st_budget b - TeamBudgets.st_budget a)%Q)
              x others.
Proof.
  intros Hx Hmine Hothers. induction Hmine as [|y mine Hy _ IH].
  - cbn [app]. induction Hothers as [|y others Hy _ IH]; [reflexivity | ].
    cbn [sortInsert]. unfold TeamBudgets.myTeamFirst at 1. rewrite Hx, Hy.
    destruct (Qle_bool _ 0); [reflexivity | ]. f_equal. exact IH.
  - cbn [app sortInsert]. unfold TeamBudgets.myTeamFirst at 1.
    rewrite Hx, Hy. cbn. f_equal. exact IH.
Qed.

(** X18: when at most one team is flagged [isMyTeam] (the comparator is
    then a consistent order), the team-budgets panel lists that team first,
    followed by the other teams by remaining budget, highest first, teams
    of equal budget in configured order. *)
Theorem my_team_listed_first (teams : list DraftTeam)
    (picks : list DraftPick) :
  (length (List.filter isMyTeam teams) <= 1)%nat ->
  let stats := TeamBudgets.teamStats teams picks in
  let others :=
    List.filter (fun r => negb (TeamBudgets.st_isMyTeam r)) stats in
  TeamBudgets.sortedTeamStats teams picks
  = List.filter TeamBudgets.st_isMyTeam stats
    ++ Array_sort
         (fun a b => (TeamBudgets.st_budget b - TeamBudgets.st_budget a)%Q)
         others.
Proof.
  intros _. cbn zeta. unfold TeamBudgets.sortedTeamStats.
  generalize (TeamBudgets.teamStats teams picks) as stats.
  induction stats as [|x l IH]; [reflexivity | ].
  cbn [Array_sort List.filter]. rewrite IH.
  destruct (TeamBudgets.st_isMyTeam x) eqn:Ex; cbn [negb].
  - rewrite sortInsert_mine by exact Ex. reflexivity.
  - cbn [Array_sort]. apply sortInsert_other; [exact Ex | | ].
    + apply List.Forall_forall. intros y Hy. apply filter_In in Hy. tauto.
    + apply List.Forall_forall. intros y Hy.
      apply (Permutation_in _
               (Array_sort_perm TeamBudgets.st_budget _)) in Hy.
      apply filter_In in Hy. destruct Hy as [_ Hy].
      apply negb_true_iff in Hy. exact Hy.
Qed.

End BoardFacts.

(** ** The forms *)

Section FormFacts.
Import JS DraftSync.

Lemma teamLabel_nonempty (index : nat) : TeamSetup.teamLabel index <> [].
Proof. unfold TeamSetup.teamLabel. cbn. discriminate. Qed.

Lemma handleComplete_lookup (st : TeamSetup.State) (i : nat) (t : DraftTeam) :
  TeamSetup.handleComplete st !! i = Some t ->
  exists nm, TeamSetup.teamNames st !! i = Some nm
             /\ budget t = 200%Q
             /\ isMyTeam t = Nat.eqb i (TeamSetup.myTeamIndex st)
             /\ name t <> []
             /\ (trim nm <> [] -> name t = trim nm)
             /\ (trim nm = [] -> name t = TeamSetup.teamLabel i).
Proof.
  unfold TeamSetup.handleComplete. rewrite list_lookup_imap.
  destruct (TeamSetup.teamNames st !! i) as [nm|]; [ | discriminate].
  intros [= <-]. exists nm. cbn [name budget isMyTeam].
  split; [reflexivity | ]. split; [reflexivity | ]. split; [reflexivity | ].
  destruct (trim nm) as [|c r].
  - split; [apply teamLabel_nonempty | ]. split; [congruence | reflexivity].
  - split; [discriminate | ]. split; [reflexivity | discriminate].
Qed.

(** X19: the teams the setup form hands over are one per name field, in
    order, each with budget 200 and a non-empty name (the trimmed field, or
    "Team i" for a blank one); the team at [myTeamIndex] and no other is
    flagged [isMyTeam] (none when that index is past the list).  Posted as
    they are, they are stored and reported unchanged. *)
Theorem setup_teams_well_formed (st : TeamSetup.State) (now : jsstring)
    (cache : Cache) (leagueId : jsstring) :
  let teams := TeamSetup.handleComplete st in
  length teams = length (TeamSetup.teamNames st)
  /\ Forall (fun t => budget t = 200%Q /\ name t <> []) teams
  /\ (forall i t, teams !! i = Some t ->
        (isMyTeam t = true <-> i = TeamSetup.myTeamIndex st))
  /\ exists ok cache',
       POST now cache leagueId (Page.handleTeamSetup teams)
       = (Json 200 ok, cache')
       /\ exists d, GET cache' leagueId = Json 200 d /\ d_teams d = teams.
Proof.
  cbn zeta. split; [apply length_imap | ]. split; [ | split].
  - apply Forall_lookup. intros i t Ht.
    destruct (handleComplete_lookup st i t Ht) as [nm [_ [Hb [_ [Hn _]]]]].
    split; assumption.
  - intros i t Ht.
    destruct (handleComplete_lookup st i t Ht) as [nm [_ [_ [Hm _]]]].
    rewrite Hm. apply Nat.eqb_eq.
  - unfold POST, Page.handleTeamSetup. cbn [post_teams].
    eexists _, _. split; [reflexivity | ].
    unfold saveToCache. rewrite (GET_stored _ _ _ (lookup_insert_eq _ _ _)).
    eexists. split; [reflexivity | ].
    unfold reported. cbn [d_teams teams default from_option id].
    rewrite map_map. apply list_eq. intros i.
    change (map ?f ?l) with (f <$> l). rewrite list_lookup_fmap.
    destruct (TeamSetup.handleComplete st !! i) as [t|] eqn:Et;
      [ | reflexivity].
    destruct (handleComplete_lookup st i t Et) as [nm [_ [Hb _]]].
    destruct t as [n b m]. cbn in Hb. subst b. reflexivity.
Qed.

(** X20: changing the number of teams keeps the names already entered for
    the positions that remain and labels the new positions "Team i", but
    keeps [myTeamIndex] as it was: when the list becomes too short for it,
    the teams then handed over include no team flagged [isMyTeam]. *)
Theorem num_teams_change_keeps_names (st : TeamSetup.State) (num : nat) :
  let st' := TeamSetup.handleNumTeamsChange st num in
  length (TeamSetup.teamNames st') = num
  /\ (forall i, (i < num)%nat ->
        TeamSetup.teamNames st' !! i
        = Some (default (TeamSetup.teamLabel i)
                        (TeamSetup.teamNames st !! i)))
  /\ TeamSetup.myTeamIndex st' = TeamSetup.myTeamIndex st
  /\ ((num <= TeamSetup.myTeamIndex st)%nat ->
      Forall (fun t => isMyTeam t = false) (TeamSetup.handleComplete st')).
Proof.
  cbn zeta. unfold TeamSetup.handleNumTeamsChange.
  cbn [TeamSetup.teamNames TeamSetup.myTeamIndex].
  split; [rewrite length_map, length_seq; reflexivity | ].
  split; [ | split; [reflexivity | ]].
  - intros i Hi. change (map ?f ?l) with (f <$> l).
    rewrite list_lookup_fmap, lookup_seq_lt by exact Hi. cbn.
    destruct (TeamSetup.teamNames st !! i); reflexivity.
  - intros Hnum. apply Forall_lookup. intros i t Ht.
    destruct (handleComplete_lookup _ i t Ht) as [nm [Hnm [_ [Hm _]]]].
    cbn [TeamSetup.teamNames TeamSetup.myTeamIndex] in Hnm, Hm.
    apply lookup_lt_Some in Hnm. rewrite length_map, length_seq in Hnm.
    rewrite Hm. apply Nat.eqb_neq. lia.
Qed.

Section ParseInt.
Variable parseInt : jsstring -> option Z.

(** X21: when the add-pick form calls [onPickAdded], a player is selected
    and is the one named, the salary is the parsed one and is not negative,
    the team is the trimmed, non-empty team field, and a pick for the
    user's own team does not exceed the remaining budget it was given.  If
    the player's name is not empty, the request the page then sends is
    accepted by [PUT], which stores the pick with that salary and team. *)
Theorem form_submission_is_accepted (teams : list DraftTeam)
    (remaining : Q) (st : AddPickForm.FormState) (nm : jsstring) (sal : Z)
    (my : bool) (team : jsstring) :
  AddPickForm.handleSubmit parseInt teams remaining st
  = AddPickForm.PickAdded nm sal my team ->
  (exists p, AddPickForm.selectedPlayer st = Some p /\ nm = Merge.m_name p)
  /\ parseInt (AddPickForm.salary st) = Some sal
  /\ 0 <= sal
  /\ team = trim (AddPickForm.draftedByTeam st) /\ team <> []
  /\ (my = true -> (inject_Z sal <= remaining)%Q)
  /\ (nm <> [] ->
      forall now cache leagueId,
      exists ok s',
        PUT now cache leagueId (Page.handleAddPick nm (inject_Z sal) my team)
        = (Json 200 ok, <[leagueId := s']> cache)
        /\ playerName (put_pick ok) = nm
        /\ bidAmount (put_pick ok) = inject_Z sal
        /\ isMyPick (put_pick ok) = my
        /\ draftedByTeam (put_pick ok) = Some team
        /\ last (picks s') = Some (put_pick ok)).
Proof.
  unfold AddPickForm.handleSubmit.
  destruct (AddPickForm.selectedPlayer st) as [p|]; [ | discriminate].
  destruct (trim (AddPickForm.draftedByTeam st)) as [|c r] eqn:Et;
    [discriminate | ].
  destruct (parseInt (AddPickForm.salary st)) as [v|]; [ | discriminate].
  destruct (v <? 0) eqn:Ev; [discriminate | ]. apply Z.ltb_ge in Ev.
  destruct (strEq _ _ && negb _) eqn:Eb; [discriminate | ].
  intros [= <- <- <- <-].
  split; [eauto | ]. split; [reflexivity | ]. split; [exact Ev | ].
  split; [reflexivity | ]. split; [discriminate | ]. split.
  - intros Hmy. rewrite Hmy in Eb. cbn in Eb.
    apply negb_false_iff, Qle_bool_iff in Eb. exact Eb.
  - intros Hnm now cache leagueId.
    destruct (PUT_accepted now cache leagueId
                (Page.handleAddPick (Merge.m_name p) (inject_Z v)
                   (strEq (AddPickForm.draftedByTeam st)
                          (AddPickForm.myTeamName teams)) (c :: r))
                (Merge.m_name p) (inject_Z v)) as [ok [HP [Hpick _]]].
    { cbn. destruct (Merge.m_name p); [congruence | reflexivity]. }
    { reflexivity. }
    eexists ok, _. split; [exact HP | ]. rewrite Hpick.
    cbn [newPick playerName bidAmount isMyPick draftedByTeam
         Page.handleAddPick put_isMyPick put_draftedByTeam
         default from_option id truthyStr written picks].
    repeat split. apply last_snoc.
Qed.

End ParseInt.

End FormFacts.

(** ** The recommendations route *)

Section RecommendFacts.
Import JS.

(** X22: the candidates sent to the advice service are at most thirty, in
    non-increasing order of average value, and no available player left out
    has a higher average value than a candidate. *)
Theorem top_thirty_candidates (availablePlayers : list Merge.MergedPlayer) :
  let sorted := Array_sort Recommend.byValueOrZeroDesc availablePlayers in
  let top := Recommend.topAvailable availablePlayers in
  length top = Nat.min 30 (length availablePlayers)
  /\ Permutation sorted availablePlayers
  /\ top = map Recommend.topEntry (take 30 sorted)
  /\ StronglySorted
       (fun a b => (Recommend.top_avgValue b <= Recommend.top_avgValue a)%Q)
       top
  /\ forall e p, In e top -> In p (drop 30 sorted) ->
       (Merge.m_avgAuctionValue p <= Recommend.top_avgValue e)%Q.
Proof.
  cbn zeta. unfold Recommend.topAvailable.
  set (key := fun p : Merge.MergedPlayer =>
                Page.orZero (Some (Merge.m_avgAuctionValue p))).
  assert (Permutation (Array_sort Recommend.byValueOrZeroDesc availablePlayers)
                      availablePlayers) as HP
    by apply (Array_sort_perm key).
  assert (StronglySorted
            (fun a b => (Merge.m_avgAuctionValue b
                         <= Merge.m_avgAuctionValue a)%Q)
            (Array_sort Recommend.byValueOrZeroDesc availablePlayers))
    as Hsorted.
  { pose proof (Array_sort_sorted key availablePlayers) as H.
    change (Array_sort (fun a b => (key b - key a)%Q) availablePlayers)
      with (Array_sort Recommend.byValueOrZeroDesc availablePlayers) in H.
    eapply sorted_weaken; [ | exact H]. intros a b Hab.
    unfold key in Hab. cbv beta in Hab.
    pose proof (orZero_eq (Merge.m_avgAuctionValue a)) as Ha.
    pose proof (orZero_eq (Merge.m_avgAuctionValue b)) as Hb.
    lra. }
  split; [ | split; [exact HP | split; [reflexivity | split]]].
  - rewrite length_map, length_take, (Permutation_length HP). reflexivity.
  - pose proof (take_sorted _ 30 _ Hsorted) as H.
    induction H as [|x l Hl IH Hx]; cbn [map]; constructor; [exact IH | ].
    apply List.Forall_forall. intros e He. apply in_map_iff in He.
    destruct He as [y [<- Hy]]. rewrite List.Forall_forall in Hx.
    exact (Hx y Hy).
  - intros e p He Hp. apply in_map_iff in He. destruct He as [a [<- Ha]].
    exact (take_drop_sorted _ 30 _ Hsorted a p Ha Hp).
Qed.

Lemma fromFirst_Some (c : N) (s t : jsstring) :
  Recommend.fromFirst c s = Some t ->
  exists pre rest, s = pre ++ c :: rest /\ ~ In c pre /\ t = c :: rest.
Proof.
  induction s as [|x s IH]; cbn [Recommend.fromFirst]; [discriminate | ].
  destruct (x =? c)%N eqn:E.
  - apply N.eqb_eq in E. subst x. intros [= <-].
    exists [], s. repeat split. intros [].
  - intros H. destruct (IH H) as [pre [rest [-> [Hpre ->]]]].
    exists (x :: pre), rest. repeat split.
    intros [-> | Hin]; [ | exact (Hpre Hin)].
    rewrite N.eqb_refl in E. discriminate.
Qed.

Lemma fromFirst_occurs (c : N) (pre x : jsstring) :
  exists y, Recommend.fromFirst c (pre ++ c :: x) = Some (c :: y ++ x).
Proof.
  induction pre as [|a pre [y IH]]; cbn [app Recommend.fromFirst].
  - rewrite N.eqb_refl. exists []. reflexivity.
  - destruct (a =? c)%N eqn:E.
    + apply N.eqb_eq in E. subst a. exists (pre ++ [c]).
      rewrite <- app_assoc. reflexivity.
    + exists y. exact IH.
Qed.

(** X23: the text taken from the advice service's reply runs from its
    first opening brace through its last closing brace after that one (so
    it spans everything between two objects, when the reply holds two);
    nothing is taken exactly when no closing brace follows an opening
    brace. *)
Theorem jsonMatch_first_to_last_brace (content : jsstring) :
  match Recommend.jsonMatch content with
  | Some m =>
      exists pre mid post,
        content = pre ++ m ++ post
        /\ m = [123%N] ++ mid ++ [125%N]
        /\ ~ In 123%N pre /\ ~ In 125%N post
  | None =>
      forall pre mid post,
        content <> pre ++ [123%N] ++ mid ++ [125%N] ++ post
  end.
Proof.
  unfold Recommend.jsonMatch, Recommend.throughLast.
  destruct (Recommend.fromFirst 123 content) as [t|] eqn:E1.
  - destruct (fromFirst_Some _ _ _ E1) as [pre [rest [Hc [Hpre ->]]]].
    destruct (Recommend.fromFirst 125 (rev rest)) as [u|] eqn:E2;
      cbn [option_map].
    + destruct (fromFirst_Some _ _ _ E2) as [pre2 [rest2 [Hr [Hpre2 ->]]]].
      assert (rest = rev rest2 ++ [125%N] ++ rev pre2) as Hrest.
      { rewrite <- (rev_involutive rest), Hr, rev_app_distr. cbn [rev].
        rewrite <- app_assoc. reflexivity. }
      exists pre, (rev rest2), (rev pre2). split; [ | split; [ | split]].
      * rewrite Hc, Hrest. cbn [rev app]. rewrite <- !app_assoc.
        reflexivity.
      * reflexivity.
      * exact Hpre.
      * intros Hin. apply in_rev in Hin. exact (Hpre2 Hin).
    + intros pre' mid post Hcontra. rewrite Hcontra in E1.
      destruct (fromFirst_occurs 123 pre' (mid ++ [125%N] ++ post))
        as [y Hy].
      cbn [app] in E1, Hy. rewrite Hy in E1. injection E1 as E1.
      assert (In 125%N (rev rest)) as Hin.
      { apply in_rev. rewrite rev_involutive, <- E1.
        apply in_or_app. right. apply in_or_app. right. left. reflexivity. }
      apply in_split in Hin. destruct Hin as [l1 [l2 Hl]].
      destruct (fromFirst_occurs 125 l1 l2) as [z Hz].
      rewrite <- Hl, E2 in Hz. discriminate.
  - intros pre mid post Hcontra.
    destruct (fromFirst_occurs 123 pre (mid ++ [125%N] ++ post)) as [y Hy].
    cbn [app] in Hcontra, Hy. rewrite <- Hcontra, E1 in Hy. discriminate.
Qed.

End RecommendFacts.

(** ** Concrete runs of the added properties *)

Section ExtraRuns.
Import JS DraftSync.

Lemma other_leagues_untouched_witness :
  let rs := [ReqPUT (lit "M") t0 (pickFor "P1" 50 true (lit "A"));
             ReqDELETE (lit "M")] in
  Forall (fun r => leagueOf r <> league) rs
  /\ serveAll (initialized teamsAB) rs !! league
     = initialized teamsAB !! league.
Proof.
  cbn zeta.
  assert (Forall (fun r => leagueOf r <> league)
            [ReqPUT (lit "M") t0 (pickFor "P1" 50 true (lit "A"));
             ReqDELETE (lit "M")]) as H
    by (repeat constructor; discriminate).
  split; [exact H | ].
  exact (proj1 (other_leagues_untouched (initialized teamsAB) _ league H)).
Defined.

Lemma drafted_player_not_available_witness :
  let body := pickFor "LeBron James" 50 true (lit "A") in
  let catalog := [player "LeBron James"; player "Stephen Curry"] in
  accepted body = true
  /\ exists d,
       GET (snd (PUT t0 (initialized teamsAB) league body)) league = Json 200 d
       /\ forall p,
            In p (Tracker.availablePlayers Merge.asciiLower catalog (d_picks d)) ->
            Some (Merge.m_name p) <> put_playerName body.
Proof.
  cbn zeta. split; [reflexivity | ].
  destruct (drafted_player_not_available Merge.asciiLower t0
              (initialized teamsAB) league
              (pickFor "LeBron James" 50 true (lit "A"))
              [player "LeBron James"; player "Stephen Curry"] eq_refl)
    as [d0 [d [_ [Hd [Hnot _]]]]].
  exists d. split; [exact Hd | exact Hnot].
Defined.

Lemma my_team_panel_balances_witness :
  let calls := [(t0, pickFor "Player1" 50 true (lit "A"));
                (t0, pickFor "Player2" 30 false (lit "B"));
                (t0, pickFor "Player3" 15 true (lit "A"))] in
  wholeBids calls
  /\ (200 + volume calls <= safe)%Q
  /\ exists d,
       GET (serveAll (initialized teamsAB) (putsTo league calls)) league
       = Json 200 d
       /\ (d_myTeamBudget d == 200 - MyTeam.totalSpent (d_picks d))%Q.
Proof.
  cbn zeta.
  assert (wholeBids [(t0, pickFor "Player1" 50 true (lit "A"));
                     (t0, pickFor "Player2" 30 false (lit "B"));
                     (t0, pickFor "Player3" 15 true (lit "A"))]) as Hw
    by (repeat constructor; [exists 50 | exists 30 | exists 15]; reflexivity).
  assert (200 + volume [(t0, pickFor "Player1" 50 true (lit "A"));
                        (t0, pickFor "Player2" 30 false (lit "B"));
                        (t0, pickFor "Player3" 15 true (lit "A"))]
          <= safe)%Q as Hv
    by (apply Qle_bool_iff; vm_compute; reflexivity).
  split; [exact Hw | ]. split; [exact Hv | ].
  apply (my_team_panel_balances t0 ∅ league teamsAB 0%nat
           (teamIn (lit "A") 200 true)
           [(t0, pickFor "Player1" 50 true (lit "A"));
            (t0, pickFor "Player2" 30 false (lit "B"));
            (t0, pickFor "Player3" 15 true (lit "A"))]).
  - reflexivity.
  - intros [|[|j]] t Ht; cbn in Ht; try discriminate;
      injection Ht as <-; cbn; split; intros H; try discriminate; reflexivity.
  - reflexivity.
  - intros j t Hj. inversion Hj.
  - intros c [<- | [<- | [<- | []]]]; cbn; eexists;
      (split; [reflexivity | ]); (split; [discriminate | reflexivity]).
  - exact Hw.
  - exact Hv.
Defined.

Lemma team_budgets_balance_witness :
  let calls := [(t0, pickFor "Player1" 50 true (lit "A"));
                (t0, pickFor "Player2" 30 false (lit "B"))] in
  List.NoDup (map in_name teamsAB)
  /\ wholeBids calls
  /\ exists d,
       GET (serveAll (initialized teamsAB) (putsTo league calls)) league
       = Json 200 d
       /\ Forall2
            (fun row t0 =>
               TeamBudgets.st_name row = in_name t0
               /\ (TeamBudgets.st_budget row + TeamBudgets.totalSpent row
                   == budgetOrDefault (in_budget t0))%Q)
            (TeamBudgets.teamStats (d_teams d) (d_picks d)) teamsAB.
Proof.
  cbn zeta.
  assert (List.NoDup (map in_name teamsAB)) as Hnd.
  { apply List.NoDup_cons;
      [ | apply List.NoDup_cons; [intros [] | apply List.NoDup_nil]].
    intros [H | []]. discriminate H. }
  assert (wholeBids [(t0, pickFor "Player1" 50 true (lit "A"));
                     (t0, pickFor "Player2" 30 false (lit "B"))]) as Hw
    by (repeat constructor; [exists 50 | exists 30]; reflexivity).
  split; [exact Hnd | ]. split; [exact Hw | ].
  apply (team_budgets_balance t0 ∅ league teamsAB
           [(t0, pickFor "Player1" 50 true (lit "A"));
            (t0, pickFor "Player2" 30 false (lit "B"))] Hnd).
  - intros c [<- | [<- | []]]; cbn; eexists; split;
      try reflexivity; discriminate.
  - exact Hw.
  - intros t [<- | [<- | []]];
      (split; [exists 200; reflexivity
              | apply Qle_bool_iff; vm_compute; reflexivity]).
Defined.

Lemma my_team_listed_first_witness :
  let teams := [{| name := lit "B"; budget := 150; isMyTeam := false |};
                {| name := lit "A"; budget := 100; isMyTeam := true |};
                {| name := lit "C"; budget := 170; isMyTeam := false |}] in
  (length (List.filter isMyTeam teams) <= 1)%nat
  /\ map TeamBudgets.st_name (TeamBudgets.sortedTeamStats teams [])
     = [lit "A"; lit "C"; lit "B"].
Proof.
  cbn zeta. split; [cbn; lia | ].
  rewrite my_team_listed_first by (cbn; lia). reflexivity.
Defined.

Lemma form_submission_is_accepted_witness :
  let parse := fun _ : jsstring => Some 35 in
  let teams := [{| name := lit "A"; budget := 200; isMyTeam := true |}] in
  let st := {| AddPickForm.selectedPlayer := Some (player "LeBron James");
               AddPickForm.salary := lit "35";
               AddPickForm.draftedByTeam := lit "A" |} in
  AddPickForm.handleSubmit parse teams 200 st
  = AddPickForm.PickAdded (lit "LeBron James") 35 true (lit "A")
  /\ 0 <= 35
  /\ (inject_Z 35 <= 200)%Q.
Proof.
  cbn zeta.
  pose proof (form_submission_is_accepted (fun _ => Some 35)
                [{| name := lit "A"; budget := 200; isMyTeam := true |}]
                200
                {| AddPickForm.selectedPlayer := Some (player "LeBron James");
                   AddPickForm.salary := lit "35";
                   AddPickForm.draftedByTeam := lit "A" |}
                (lit "LeBron James") 35 true (lit "A") eq_refl)
    as [_ [_ [Hsal [_ [_ [Hmy _]]]]]].
  split; [reflexivity | ]. split; [exact Hsal | exact (Hmy eq_refl)].
Defined.

End ExtraRuns.
